(** * ClawRoute: classifier, router, validator and executor

    A shallow embedding of the request pipeline of ClawRoute
    (src/classifier.ts, src/router.ts, src/validator.ts, src/executor.ts,
    src/models.ts, src/utils.ts, src/config.ts) and the properties the
    specification states about it.

    Modelling conventions.
    - A JavaScript string is a sequence of UTF-16 code units.  The model
      keeps the code units below 256 (Rocq's [ascii]), which is closed under
      [toLowerCase], [trim] and the regular expressions of the classifier.
    - JavaScript numbers are modelled exactly: token counts and HTTP statuses
      as [Z], prices, costs and confidences as rationals [Q].
    - Platform services the code calls but does not define (JSON.parse, the
      Date constructor, the clock, fetch) are fields of an explicit
      environment record passed to the functions that use them. *)

From Stdlib Require Import Bool Arith ZArith QArith Qminmax List Sorted Ascii String Lia.
Import ListNotations.

Close Scope Q_scope.
Set Implicit Arguments.

(* ================================================================= *)
(** ** JavaScript strings *)

Module Js.

Local Open Scope string_scope.

Definition code (c : ascii) : nat := nat_of_ascii c.

(** WhiteSpace and LineTerminator code units: what [trim] strips and what
    [\s] matches. *)
Definition isWhiteSpace (c : ascii) : bool :=
  let n := code c in
  ((n =? 9) || (n =? 10) || (n =? 11) || (n =? 12) || (n =? 13)
   || (n =? 32) || (n =? 160))%nat.

Definition isUpperChar (c : ascii) : bool :=
  let n := code c in
  (((65 <=? n) && (n <=? 90))
   || ((192 <=? n) && (n <=? 222) && negb (n =? 215)))%nat.

Definition toLowerChar (c : ascii) : ascii :=
  if isUpperChar c then ascii_of_nat (code c + 32) else c.

(** [\w] *)
Definition isWordChar (c : ascii) : bool :=
  let n := code c in
  (((48 <=? n) && (n <=? 57)) || ((65 <=? n) && (n <=? 90))
   || ((97 <=? n) && (n <=? 122)) || (n =? 95))%nat.

Fixpoint toLowerCase (s : string) : string :=
  match s with
  | "" => ""
  | String c t => String (toLowerChar c) (toLowerCase t)
  end.

Fixpoint trimStart (s : string) : string :=
  match s with
  | "" => ""
  | String c t => if isWhiteSpace c then trimStart t else s
  end.

Fixpoint trimEnd (s : string) : string :=
  match s with
  | "" => ""
  | String c t =>
      match trimEnd t with
      | "" => if isWhiteSpace c then "" else String c ""
      | r => String c r
      end
  end.

Definition trim (s : string) : string := trimEnd (trimStart s).

Definition isEmpty (s : string) : bool :=
  match s with "" => true | _ => false end.

(** [s.length] *)
Definition length (s : string) : Z := Z.of_nat (String.length s).

(** Every code unit of [s] satisfies [p]. *)
Fixpoint every (p : ascii -> bool) (s : string) : bool :=
  match s with
  | "" => true
  | String c t => p c && every p t
  end.

(** [s.includes(sub)] *)
Fixpoint includes (sub s : string) : bool :=
  if prefix sub s then true
  else match s with
       | "" => false
       | String _ t => includes sub t
       end.

(** [s.endsWith(suf)] *)
Fixpoint endsWith (suf s : string) : bool :=
  if String.eqb s suf then true
  else match s with
       | "" => false
       | String _ t => endsWith suf t
       end.

(** [s.split(sep)] for a one-character separator: always at least one
    piece. *)
Fixpoint split (sep : ascii) (s : string) : list string :=
  match s with
  | "" => [""]
  | String c t =>
      if Ascii.eqb c sep then "" :: split sep t
      else match split sep t with
           | [] => [String c ""]
           | p :: ps => String c p :: ps
           end
  end.

(** [parts.slice(1).join(sep)] *)
Fixpoint join (sep : string) (parts : list string) : string :=
  match parts with
  | [] => ""
  | [p] => p
  | p :: ps => p ++ sep ++ join sep ps
  end.

(** Truthiness of a string value. *)
Definition truthy (s : string) : bool := negb (isEmpty s).

(** [s.startsWith(p)] *)
Definition startsWith (p s : string) : bool := prefix p s.

(** [s.slice(n)] for a non-negative [n] *)
Fixpoint drop (n : nat) (s : string) : string :=
  match n, s with
  | O, _ => s
  | S k, String _ t => drop k t
  | S _, "" => ""
  end.

Fixpoint take (n : nat) (s : string) : string :=
  match n, s with
  | O, _ => ""
  | S k, String c t => String c (take k t)
  | S _, "" => ""
  end.

(** An index argument of [substring]: negative is 0, beyond the end is the
    length. *)
Definition clampIndex (i : Z) (s : string) : nat :=
  Z.to_nat (Z.min (Z.max i 0) (length s)).

(** [s.substring(a, b)]: the arguments are clamped and swapped when
    [a > b]. *)
Definition substring (a b : Z) (s : string) : string :=
  let x := clampIndex a s in
  let y := clampIndex b s in
  take (Nat.max x y - Nat.min x y) (drop (Nat.min x y) s).

(** [s.substring(a)] *)
Definition substringFrom (a : Z) (s : string) : string :=
  substring a (length s) s.

(** The line feed. *)
Definition lf : ascii := "010"%char.

End Js.

(* ================================================================= *)
(** ** Regular expressions

    The patterns of classifier.ts are kept as syntax trees and run by a
    derivative matcher.  [^] and [$] are not nodes: an anchored pattern is
    run with [test_anchored], an unanchored one with [test_search], and a
    pattern wrapped in [\b ... \b] with [test_word]. *)

Module Re.

Local Open Scope string_scope.

Inductive re : Type :=
| Void
| Eps
| Cls (p : ascii -> bool)
| Cat (r1 r2 : re)
| Alt (r1 r2 : re)
| Star (r : re).

Fixpoint nullable (r : re) : bool :=
  match r with
  | Void => false
  | Eps => true
  | Cls _ => false
  | Cat r1 r2 => nullable r1 && nullable r2
  | Alt r1 r2 => nullable r1 || nullable r2
  | Star _ => true
  end.

Definition mkCat (r1 r2 : re) : re :=
  match r1, r2 with
  | Void, _ => Void
  | _, Void => Void
  | Eps, _ => r2
  | _, _ => Cat r1 r2
  end.

Definition mkAlt (r1 r2 : re) : re :=
  match r1, r2 with
  | Void, _ => r2
  | _, Void => r1
  | _, _ => Alt r1 r2
  end.

Fixpoint deriv (c : ascii) (r : re) : re :=
  match r with
  | Void => Void
  | Eps => Void
  | Cls p => if p c then Eps else Void
  | Cat r1 r2 =>
      mkAlt (mkCat (deriv c r1) r2)
            (if nullable r1 then deriv c r2 else Void)
  | Alt r1 r2 => mkAlt (deriv c r1) (deriv c r2)
  | Star r1 => mkCat (deriv c r1) (Star r1)
  end.

(** The whole string is in the language of [r]. *)
Fixpoint matches (r : re) (s : string) : bool :=
  match s with
  | "" => nullable r
  | String c t => matches (deriv c r) t
  end.

(** The language of a pattern. *)
Inductive lang : re -> string -> Prop :=
| lang_eps : lang Eps ""
| lang_cls (p : ascii -> bool) (c : ascii) :
    p c = true -> lang (Cls p) (String c "")
| lang_cat (r1 r2 : re) (s1 s2 : string) :
    lang r1 s1 -> lang r2 s2 -> lang (Cat r1 r2) (s1 ++ s2)
| lang_alt_l (r1 r2 : re) (s : string) : lang r1 s -> lang (Alt r1 r2) s
| lang_alt_r (r1 r2 : re) (s : string) : lang r2 s -> lang (Alt r1 r2) s
| lang_star_nil (r : re) : lang (Star r) ""
| lang_star_app (r : re) (s1 s2 : string) :
    lang r s1 -> lang (Star r) s2 -> lang (Star r) (s1 ++ s2).

(** *** Pattern syntax *)

Definition anyChar : re := Cls (fun _ => true).

(** [.] : anything but a line terminator. *)
Definition dot : re :=
  Cls (fun c => negb ((Js.code c =? 10) || (Js.code c =? 13))%nat).

(** A literal character under the [i] flag. *)
Definition chr_i (c : ascii) : re :=
  Cls (fun x => Ascii.eqb (Js.toLowerChar x) (Js.toLowerChar c)).

(** A literal character, case sensitive. *)
Definition chr (c : ascii) : re := Cls (fun x => Ascii.eqb x c).

Fixpoint lit_i (s : string) : re :=
  match s with
  | "" => Eps
  | String c t => Cat (chr_i c) (lit_i t)
  end.

Fixpoint lit (s : string) : re :=
  match s with
  | "" => Eps
  | String c t => Cat (chr c) (lit t)
  end.

Fixpoint alts (rs : list re) : re :=
  match rs with
  | [] => Void
  | [r] => r
  | r :: rest => Alt r (alts rest)
  end.

Definition words_i (ws : list string) : re := alts (map lit_i ws).

(** [r{0,n}] *)
Fixpoint upTo (n : nat) (r : re) : re :=
  match n with
  | O => Eps
  | S k => Alt Eps (Cat r (upTo k r))
  end.

Definition plus (r : re) : re := Cat r (Star r).

Definition oneOf (cs : string) : re :=
  Cls (fun x => existsb (Ascii.eqb x) (list_ascii_of_string cs)).

Definition noneOf (cs : string) : re :=
  Cls (fun x => negb (existsb (Ascii.eqb x) (list_ascii_of_string cs))).

Definition space : re := Cls Js.isWhiteSpace.

(** *** Running a pattern *)

(** [/^r$/.test(s)] *)
Definition test_anchored (r : re) (s : string) : bool := matches r s.

(** [/r/.test(s)] : some substring is in the language of [r]. *)
Definition test_search (r : re) (s : string) : bool :=
  matches (Cat (Star anyChar) (Cat r (Star anyChar))) s.

(** [\b] between a previous and a next code unit ([None] at either end of
    the input). *)
Definition boundary (prev next : option ascii) : bool :=
  let w o := match o with Some c => Js.isWordChar c | None => false end in
  xorb (w prev) (w next).

Definition headOf (s : string) : option ascii :=
  match s with "" => None | String c _ => Some c end.

(** A match of [r] that starts here and ends at a word boundary. *)
Fixpoint scanTo (r : re) (prev : option ascii) (s : string) : bool :=
  if nullable r && boundary prev (headOf s) then true
  else match s with
       | "" => false
       | String c t => scanTo (deriv c r) (Some c) t
       end.

Fixpoint searchFrom (r : re) (prev : option ascii) (s : string) : bool :=
  if boundary prev (headOf s) && scanTo r prev s then true
  else match s with
       | "" => false
       | String c t => searchFrom r (Some c) t
       end.

(** [/\b(r)\b/.test(s)] *)
Definition test_word (r : re) (s : string) : bool := searchFrom r None s.

End Re.

(* ================================================================= *)
(** ** Types (types.ts) *)

Inductive TaskTier : Type :=
| HEARTBEAT | SIMPLE | MODERATE | COMPLEX | FRONTIER.

Definition TIER_ORDER (t : TaskTier) : nat :=
  match t with
  | HEARTBEAT => 0
  | SIMPLE => 1
  | MODERATE => 2
  | COMPLEX => 3
  | FRONTIER => 4
  end.

Definition tier_eqb (a b : TaskTier) : bool :=
  (TIER_ORDER a =? TIER_ORDER b)%nat.

Inductive ProviderType : Type :=
| anthropic | openai | google | deepseek | openrouter.

Definition providerName (p : ProviderType) : string :=
  match p with
  | anthropic => "anthropic"
  | openai => "openai"
  | google => "google"
  | deepseek => "deepseek"
  | openrouter => "openrouter"
  end.

Record ModelEntry : Type := {
  id : string;
  provider : ProviderType;
  inputCostPer1M : Q;
  outputCostPer1M : Q;
  maxContext : Z;
  toolCapable : bool;
  multimodal : bool;
  enabled : bool
}.

Record TierModelConfig : Type := {
  primary : string;
  fallback : string
}.

Record ClassificationConfig : Type := {
  conservativeMode : bool;
  minConfidence : Q;
  toolAwareRouting : bool
}.

Record EscalationConfig : Type := {
  esc_enabled : bool;
  maxRetries : Z;
  retryDelayMs : Z;
  onlyRetryBeforeStreaming : bool;
  onlyRetryWithoutToolCalls : bool;
  alwaysFallbackToOriginal : bool
}.

Record Overrides : Type := {
  globalForceModel : option string
}.

Record License : Type := {
  lic_enabled : bool;
  graceUntil : option string
}.

(** The fields of [ClawRouteConfig] the pipeline reads.  [models] and
    [apiKeys] are JavaScript objects indexed by tier and by provider; a
    missing property is [None]. *)
Record ClawRouteConfig : Type := {
  cfg_enabled : bool;
  dryRun : bool;
  classification : ClassificationConfig;
  escalation : EscalationConfig;
  models : TaskTier -> option TierModelConfig;
  overrides : Overrides;
  apiKeys : ProviderType -> option string;
  license : License
}.

Inductive ContentPart : Type :=
| PartText (text : string)
| PartImageUrl (url : string).

Inductive Content : Type :=
| ContentString (s : string)
| ContentNull
| ContentParts (parts : list ContentPart).

Inductive Role : Type := RoleSystem | RoleUser | RoleAssistant | RoleTool.

Record ToolCall : Type := {
  tc_name : string;
  tc_arguments : string
}.

Record ChatMessage : Type := {
  role : Role;
  content : Content;
  msg_tool_calls : option (list ToolCall)
}.

Record ToolDefinition : Type := {
  fn_name : string
}.

Inductive ToolChoice : Type :=
| ChoiceAbsent
| ChoiceString (s : string)
| ChoiceObject.

Record ChatCompletionRequest : Type := {
  model : string;
  messages : list ChatMessage;
  tools : option (list ToolDefinition);
  tool_choice : ToolChoice;
  stream : bool
}.

Record Usage : Type := {
  prompt_tokens : Z;
  completion_tokens : Z
}.

Record Choice : Type := {
  message : option ChatMessage
}.

(** A parsed response body.  [error_truthy] says that the body has an
    [error] property with a truthy value; [choices] may be missing and may
    hold null entries. *)
Record ChatCompletionResponse : Type := {
  error_truthy : bool;
  choices : option (list (option Choice));
  usage : option Usage
}.

(** The body of what an upstream provider sends back. *)
Inductive UpstreamBody : Type :=
| BodyNull                         (* [response.body] is null *)
| BodyText (text : string)         (* reading it gives the text *)
| BodyBroken (message : string).   (* reading it throws *)

(** What an upstream provider sends back. *)
Record Upstream : Type := {
  up_status : Z;
  up_headers : list (string * string);
  up_body : UpstreamBody
}.

Inductive FetchOutcome : Type :=
| FetchThrows (message : string)
| FetchReturns (u : Upstream).

(** What the platform supplies. *)
Record Platform : Type := {
  (** [new Date()] as a time value *)
  now : Z;
  (** [new Date(s)] as a time value, [None] for an invalid date *)
  dateValue : string -> option Z;
  (** [safeJsonParse(s) === null] for a tool call's argument string *)
  jsonIsNull : string -> bool;
  (** [safeJsonParse<ChatCompletionResponse>(text)] *)
  jsonBody : string -> option ChatCompletionResponse;
  (** [fetch]: the outcome of the n-th call of an execution (n calls were
      made before it), to the endpoint of a provider, with the bare model
      name in the request body *)
  fetch : nat -> ProviderType -> string -> FetchOutcome;
  (** [Date.now() - startTime] when the result is built *)
  elapsedMs : Z;
  (** the message of the TypeError of [new Response(body, init)] for a
      body with a null body status *)
  constructError : string
}.

(* ================================================================= *)
(** ** Utilities (utils.ts) *)

Module Utils.

Local Open Scope string_scope.
Local Open Scope Z_scope.

(** [Math.ceil(text.length / 4)], 0 for the empty string. *)
Definition estimateTokens (text : string) : Z :=
  if Js.isEmpty text then 0 else (Js.length text + 3) / 4.

Definition toolCallTokens (tc : ToolCall) : Z :=
  estimateTokens (tc_name tc) + estimateTokens (tc_arguments tc).

Definition messageTokens (m : ChatMessage) : Z :=
  4
  + match content m with
    | ContentString s => estimateTokens s
    | _ => 0
    end
  + match msg_tool_calls m with
    | Some tcs => fold_left (fun acc tc => acc + toolCallTokens tc) tcs 0
    | None => 0
    end.

Definition estimateMessagesTokens (msgs : list ChatMessage) : Z :=
  fold_left (fun total m => total + messageTokens m) msgs 0.

(** The loop of [getLastUserMessage] runs from the last index down; on the
    list it is the first hit of the reversed list. *)
Fixpoint firstUserString (msgs : list ChatMessage) : string :=
  match msgs with
  | [] => ""
  | m :: rest =>
      match role m, content m with
      | RoleUser, ContentString s => s
      | _, _ => firstUserString rest
      end
  end.

Definition getLastUserMessage (msgs : list ChatMessage) : string :=
  firstUserString (rev msgs).

(** [messages.find((m) => m.role === 'system')], then its content when it
    is a string. *)
Definition getSystemPrompt (msgs : list ChatMessage) : string :=
  match find (fun m => match role m with RoleSystem => true | _ => false end)
             msgs with
  | Some systemMsg =>
      match content systemMsg with
      | ContentString s => s
      | _ => ""
      end
  | None => ""
  end.

Definition truncateForLog (str : string) (maxLength : Z) : string :=
  if Js.isEmpty str || (Js.length str <=? maxLength) then str
  else
    let halfLen := (maxLength - 3) / 2 in
    Js.substring 0 halfLen str ++ "..."
    ++ Js.substringFrom (Js.length str - halfLen) str.

(** [{ provider, modelName }] *)
Definition parseModelId (modelId : string) : string * string :=
  if Js.includes "/" modelId then
    match Js.split "/" modelId with
    | provider :: rest => (provider, Js.join "/" rest)
    | [] => ("", "")
    end
  else ("", modelId).

(** [modelName || modelId] *)
Definition shortModelName (modelId : string) : string :=
  let modelName := snd (parseModelId modelId) in
  if Js.truthy modelName then modelName else modelId.

(** The text of a user message with string content. *)
Definition userText (m : ChatMessage) : option string :=
  match role m, content m with
  | RoleUser, ContentString s => Some s
  | _, _ => None
  end.

End Utils.

(* ================================================================= *)
(** ** Model catalog (models.ts) *)

Module Models.

Local Open Scope string_scope.

Definition mkModel (i : string) (p : ProviderType) (ic oc : Q) (ctx : Z)
    (tool multi : bool) : ModelEntry :=
  {| id := i; provider := p; inputCostPer1M := ic; outputCostPer1M := oc;
     maxContext := ctx; toolCapable := tool; multimodal := multi;
     enabled := true |}.

Definition DEFAULT_MODELS : list ModelEntry :=
  [ mkModel "google/gemini-2.5-flash-lite" google (10#100) (40#100) 1000000 false false;
    mkModel "deepseek/deepseek-chat" deepseek (28#100) (112#100) 64000 true false;
    mkModel "google/gemini-2.5-flash" google (30#100) (250#100) 1000000 true true;
    mkModel "openai/gpt-5-mini" openai (25#100) (200#100) 128000 true true;
    mkModel "anthropic/claude-sonnet-4-6" anthropic (300#100) (1500#100) 200000 true true;
    mkModel "google/gemini-2.5-pro" google (125#100) (1000#100) 1000000 true true;
    mkModel "openai/gpt-5.2" openai (175#100) (1400#100) 128000 true true;
    mkModel "openai/o3" openai (200#100) (800#100) 200000 true true;
    mkModel "anthropic/claude-opus-4-6" anthropic (1500#100) (7500#100) 200000 true true ]%Q.

(** The registry is a Map filled from [DEFAULT_MODELS] in order; nothing
    in the pipeline registers further models, so iteration order is the
    order of the list. *)
Definition modelRegistry : list ModelEntry := DEFAULT_MODELS.

Definition registryGet (modelId : string) : option ModelEntry :=
  find (fun e => String.eqb (id e) modelId) modelRegistry.

(** [id.split('/')[1]] inside a template string: a missing piece prints as
    "undefined". *)
Definition secondPiece (s : string) : string :=
  nth 1 (Js.split "/" s) "undefined".

Definition suffixMatch (modelId : string) (e : ModelEntry) : bool :=
  Js.endsWith ("/" ++ modelId) (id e)
  || Js.endsWith ("/" ++ secondPiece (id e)) modelId.

Definition fuzzyMatch (modelId : string) (e : ModelEntry) : bool :=
  let normalizedId := Js.toLowerCase modelId in
  let normalizedEntryId := Js.toLowerCase (id e) in
  Js.includes normalizedId normalizedEntryId
  || Js.includes normalizedEntryId normalizedId.

Definition getModelEntry (modelId : string) : option ModelEntry :=
  match registryGet modelId with
  | Some exact => Some exact
  | None =>
      match find (suffixMatch modelId) modelRegistry with
      | Some e => Some e
      | None => find (fuzzyMatch modelId) modelRegistry
      end
  end.

Definition knownPrefix (p : string) : option ProviderType :=
  if String.eqb p "anthropic" then Some anthropic
  else if String.eqb p "openai" then Some openai
  else if String.eqb p "google" then Some google
  else if String.eqb p "deepseek" then Some deepseek
  else if String.eqb p "openrouter" then Some openrouter
  else None.

(** [modelId.split('/')[0]?.toLowerCase()] *)
Definition prefixOf (modelId : string) : string :=
  Js.toLowerCase (hd "" (Js.split "/" modelId)).

Definition nameHeuristic (modelId : string) : ProviderType :=
  let lowerModelId := Js.toLowerCase modelId in
  if Js.includes "claude" lowerModelId then anthropic
  else if Js.includes "gpt" lowerModelId || Js.includes "o3" lowerModelId
          || Js.includes "o1" lowerModelId then openai
  else if Js.includes "gemini" lowerModelId then google
  else if Js.includes "deepseek" lowerModelId then deepseek
  else openai.

Definition fromRegistryOrName (modelId : string) : ProviderType :=
  match getModelEntry modelId with
  | Some entry => provider entry
  | None => nameHeuristic modelId
  end.

Definition getProviderForModel (modelId : string) : ProviderType :=
  if Js.includes "/" modelId then
    match knownPrefix (prefixOf modelId) with
    | Some p => p
    | None => fromRegistryOrName modelId
    end
  else fromRegistryOrName modelId.

(** Costs.  A [number] of the source is a double; here a token count is
    an integer and a cost a rational, computed without rounding.  What is
    stated of costs below is what the rounding of each operation
    preserves: signs, the order of costs, and the equality of two runs of
    one and the same computation.  Nothing is stated of sums of costs
    that were rounded separately, and NaN and the infinities are outside
    the model. *)
Definition perMillion (tokens : Z) : Q :=
  (inject_Z tokens / inject_Z 1000000)%Q.

Definition calculateCost (modelId : string) (inputTokens outputTokens : Z) : Q :=
  match getModelEntry modelId with
  | None =>
      let defaultInputCost := (175#100)%Q in
      let defaultOutputCost := (1400#100)%Q in
      (perMillion inputTokens * defaultInputCost
       + perMillion outputTokens * defaultOutputCost)%Q
  | Some entry =>
      let inputCost := (perMillion inputTokens * inputCostPer1M entry)%Q in
      let outputCost := (perMillion outputTokens * outputCostPer1M entry)%Q in
      (inputCost + outputCost)%Q
  end.

(** [entry?.toolCapable ?? true] *)
Definition isToolCapable (modelId : string) : bool :=
  match getModelEntry modelId with
  | Some entry => toolCapable entry
  | None => true
  end.

End Models.

(* ================================================================= *)
(** ** Configuration access (config.ts) *)

Module Config.

Definition hasApiKey (config : ClawRouteConfig) (p : ProviderType) : bool :=
  match apiKeys config p with
  | Some key => (0 <? String.length key)%nat
  | None => false
  end.

(** [config.apiKeys[provider] ?? ''] *)
Definition getApiKey (config : ClawRouteConfig) (p : ProviderType) : string :=
  match apiKeys config p with
  | Some key => key
  | None => EmptyString
  end.

(** [Object.values(apiKeys).some((key) => key && key.length > 0)] *)
Definition hasAnyApiKey (keys : ProviderType -> option string) : bool :=
  existsb (fun p => match keys p with
                    | Some key => Js.truthy key && (0 <? String.length key)%nat
                    | None => false
                    end)
          [anthropic; openai; google; deepseek; openrouter].

(** The [apiKeys] of [getRedactedConfig]: a key that is set reads
    [REDACTED], any other reads as the empty string. *)
Definition redactedKeys (config : ClawRouteConfig) (p : ProviderType)
    : option string :=
  match apiKeys config p with
  | Some key => if Js.truthy key then Some "[REDACTED]"%string
                else Some EmptyString
  | None => Some EmptyString
  end.

(** [getRedactedConfig], on the fields of the model. *)
Definition getRedactedConfig (config : ClawRouteConfig) : ClawRouteConfig :=
  {| cfg_enabled := cfg_enabled config;
     dryRun := dryRun config;
     classification := classification config;
     escalation := escalation config;
     models := models config;
     overrides := overrides config;
     apiKeys := redactedKeys config;
     license := license config |}.

End Config.

(* ================================================================= *)
(** ** Classifier (classifier.ts) *)

Definition Qltb (a b : Q) : bool := negb (Qle_bool b a).

Inductive ClassReason : Type :=
| ReasonDefault                          (* 'default classification' *)
| ReasonModelName                        (* 'model name indicates heartbeat' *)
| ReasonHeartbeat                        (* 'heartbeat pattern detected' *)
| ReasonFrontier (sigs : list string)    (* `frontier: ${signals}` *)
| ReasonComplex (sigs : list string)     (* `complex: ${signals}` *)
| ReasonSimple                           (* 'simple acknowledgment or question' *)
| ReasonGeneral                          (* 'general conversation' *)
| ReasonToolSchemas (old : TaskTier)     (* `escalated from ${oldTier}: tool schemas present` *)
| ReasonLowConfidence (old : TaskTier) (c : Q)
| ReasonVeryLowConfidence (c : Q).

Record ClassificationResult : Type := {
  tier : TaskTier;
  confidence : Q;
  reason : ClassReason;
  signals : list string;
  toolsDetected : bool;
  safeToRetry : bool
}.

Module Classifier.

Import Re.
Local Open Scope string_scope.

(** [\s*[?!.]*] and [\s*[!.]*], the tails of the word patterns. *)
Definition tailQ : re := Cat (Star space) (Star (oneOf "?!.")).
Definition tailE : re := Cat (Star space) (Star (oneOf "!.")).

Definition HEARTBEAT_PATTERNS : list re :=
  [ Cat (words_i ["ping"; "status"; "alive"; "check"; "heartbeat"; "hey";
                  "hi"; "hello"; "test"; "yo"]) tailQ;
    Cat (lit_i "are you ")
        (Cat (words_i ["there"; "up"; "alive"; "ok"; "ready"]) tailQ);
    Cat (words_i ["can you hear me"; "you there"; "testing"]) tailQ ].

(** The members of the last pattern's character class, as the source file
    spells it, that are code units below 256. *)
Definition ackClass : re :=
  Cls (fun c =>
    let n := Js.code c in
    ((n =? 240) || (n =? 226) || (n =? 164) || (n =? 239) || (n =? 184))%nat).

Definition ACKNOWLEDGMENT_PATTERNS : list re :=
  [ Cat (words_i ["thanks"; "thank you"; "thx"; "ty"]) tailE;
    Cat (words_i ["ok"; "okay"; "k"; "kk"; "alright"; "sure"; "yes"; "no";
                  "yep"; "nope"; "yeah"; "nah"]) tailE;
    Cat (words_i ["got it"; "sounds good"; "cool"; "great"; "nice";
                  "perfect"; "awesome"; "agreed"; "right"]) tailE;
    Cat (words_i ["lol"; "haha"; "hehe"; "lmao"; "rofl"]) tailE;
    plus ackClass ].

(** The group between the two [\b] of FRONTIER_KEYWORDS. *)
Definition FRONTIER_KEYWORDS : re :=
  alts [ lit_i "implement"; lit_i "architect"; lit_i "design";
         lit_i "refactor"; lit_i "debug"; lit_i "optimize"; lit_i "prove";
         lit_i "derive";
         Cat (lit_i "analyze")
             (Cat (upTo 20 dot)
                  (words_i ["code"; "system"; "architecture"; "algorithm"])) ].

(** The group between the two [\b] of COMPLEX_KEYWORDS. *)
Definition COMPLEX_KEYWORDS : re :=
  alts [ lit_i "explain"; lit_i "compare"; lit_i "analyze"; lit_i "research";
         lit_i "summarize"; lit_i "evaluate"; lit_i "assess"; lit_i "review";
         Cat (lit_i "write")
             (Cat (upTo 10 dot)
                  (words_i ["essay"; "report"; "article"; "doc";
                            "documentation"])) ].

(** Three backquotes, anything, three backquotes. *)
Definition CODE_BLOCK_PATTERN : re :=
  Cat (lit "```") (Cat (Star anyChar) (lit "```")).

(** [^?]{0,100} then a question mark, anchored at both ends. *)
Definition SIMPLE_QUESTION_PATTERN : re :=
  Cat (upTo 100 (noneOf "?")) (chr "?").

Definition notQuestionMark (c : ascii) : bool := negb (Ascii.eqb c "?").

Definition anyPattern (ps : list re) (s : string) : bool :=
  existsb (fun p => test_anchored p s) ps.

Record Check : Type := {
  chk_match : bool;
  chk_confidence : Q;
  chk_signals : list string
}.

Definition hit (c : Q) (sigs : list string) : Check :=
  {| chk_match := true; chk_confidence := c; chk_signals := sigs |}.

Definition miss : Check :=
  {| chk_match := false; chk_confidence := 0%Q; chk_signals := [] |}.

(** [request.tools && request.tools.length > 0] *)
Definition hasToolsOf (request : ChatCompletionRequest) : bool :=
  match tools request with
  | Some (_ :: _) => true
  | _ => false
  end.

Definition isHeartbeat (lastMessage : string) (messageCount : nat)
    (hasTools : bool) : Check :=
  if anyPattern HEARTBEAT_PATTERNS (Js.trim lastMessage) then hit (95#100)%Q []
  else if (Js.length lastMessage <? 30)%Z
          && (messageCount <=? 2)%nat && negb hasTools
       then hit (8#10)%Q []
       else miss.

Definition isSimple (lastMessage : string) (messageCount : nat)
    (hasTools : bool) : Check :=
  let trimmed := Js.trim lastMessage in
  if anyPattern ACKNOWLEDGMENT_PATTERNS trimmed then hit (9#10)%Q []
  else if (Js.length trimmed <? 80)%Z && negb hasTools then
         if test_anchored SIMPLE_QUESTION_PATTERN trimmed
            && (messageCount <=? 2)%nat
         then hit (8#10)%Q []
         else miss
       else miss.

Definition hasToolChoiceOf (request : ChatCompletionRequest) : bool :=
  match tool_choice request with
  | ChoiceAbsent => false
  | ChoiceString s => negb (String.eqb s "none")
  | ChoiceObject => true
  end.

Definition isImagePart (c : ContentPart) : bool :=
  match c with PartImageUrl _ => true | PartText _ => false end.

Definition hasImagesOf (request : ChatCompletionRequest) : bool :=
  existsb (fun m => match content m with
                    | ContentParts parts => existsb isImagePart parts
                    | _ => false
                    end) (messages request).

Definition isFrontier (request : ChatCompletionRequest) (lastMessage : string)
    (estimatedTokens : Z) : Check :=
  if hasToolsOf request && hasToolChoiceOf request
  then hit (9#10)%Q ["tools_with_tool_choice"]
  else if test_search CODE_BLOCK_PATTERN lastMessage
  then hit (85#100)%Q ["code_blocks"]
  else if (if (1000 <? Js.length lastMessage)%Z
           then test_word FRONTIER_KEYWORDS lastMessage else false)
  then hit (8#10)%Q ["long_with_frontier_keywords"]
  else if (8000 <? estimatedTokens)%Z
  then hit (75#100)%Q ["massive_context"]
  else if hasImagesOf request
  then hit (8#10)%Q ["multimodal_images"]
  else miss.

Definition isComplex (request : ChatCompletionRequest) (lastMessage : string)
    (messageCount : nat) (estimatedTokens : Z) : Check :=
  if hasToolsOf request
  then hit (85#100)%Q ["tools_present"]
  else if (if (500 <=? Js.length lastMessage)%Z
              && (Js.length lastMessage <=? 1000)%Z
           then test_word COMPLEX_KEYWORDS lastMessage else false)
  then hit (8#10)%Q ["analytical_keywords"]
  else if (8 <? messageCount)%nat
  then hit (75#100)%Q ["deep_conversation"]
  else if (4000 <=? estimatedTokens)%Z && (estimatedTokens <=? 8000)%Z
  then hit (7#10)%Q ["medium_context"]
  else miss.

(** The mutable locals of [classifyRequest]. *)
Record St : Type := {
  st_tier : TaskTier;
  st_confidence : Q;
  st_reason : ClassReason;
  st_signals : list string
}.

Definition initial : St :=
  {| st_tier := MODERATE; st_confidence := (85#100)%Q;
     st_reason := ReasonDefault; st_signals := [] |}.

Definition modelNameHint (request : ChatCompletionRequest) (st : St) : St :=
  let modelLower := Js.toLowerCase (model request) in
  if Js.includes "heartbeat" modelLower || Js.includes "cron" modelLower
     || Js.includes "health" modelLower
  then {| st_tier := HEARTBEAT; st_confidence := (85#100)%Q;
          st_reason := ReasonModelName;
          st_signals := st_signals st ++ ["model_name_hint"] |}
  else st.

Definition heartbeatRule (lastMessage : string) (messageCount : nat)
    (hasTools : bool) (st : St) : St :=
  if tier_eqb (st_tier st) MODERATE then
    let heartbeatCheck := isHeartbeat lastMessage messageCount hasTools in
    if chk_match heartbeatCheck
    then {| st_tier := HEARTBEAT;
            st_confidence := chk_confidence heartbeatCheck;
            st_reason := ReasonHeartbeat;
            st_signals := st_signals st ++ ["heartbeat_pattern"] |}
    else st
  else st.

Definition frontierRule (request : ChatCompletionRequest)
    (lastMessage : string) (estimatedTokens : Z) (st : St) : St :=
  if tier_eqb (st_tier st) MODERATE || tier_eqb (st_tier st) HEARTBEAT then
    let frontierCheck := isFrontier request lastMessage estimatedTokens in
    if chk_match frontierCheck
    then {| st_tier := FRONTIER;
            st_confidence := chk_confidence frontierCheck;
            st_reason := ReasonFrontier (chk_signals frontierCheck);
            st_signals := st_signals st ++ chk_signals frontierCheck |}
    else st
  else st.

Definition complexRule (request : ChatCompletionRequest)
    (lastMessage : string) (messageCount : nat) (estimatedTokens : Z)
    (st : St) : St :=
  if tier_eqb (st_tier st) MODERATE then
    let complexCheck :=
      isComplex request lastMessage messageCount estimatedTokens in
    if chk_match complexCheck
    then {| st_tier := COMPLEX;
            st_confidence := chk_confidence complexCheck;
            st_reason := ReasonComplex (chk_signals complexCheck);
            st_signals := st_signals st ++ chk_signals complexCheck |}
    else st
  else st.

Definition simpleRule (lastMessage : string) (messageCount : nat)
    (hasTools : bool) (st : St) : St :=
  if tier_eqb (st_tier st) MODERATE then
    let simpleCheck := isSimple lastMessage messageCount hasTools in
    if chk_match simpleCheck
    then {| st_tier := SIMPLE;
            st_confidence := chk_confidence simpleCheck;
            st_reason := ReasonSimple;
            st_signals := st_signals st ++ ["simple_pattern"] |}
    else st
  else st.

Definition moderateRule (st : St) : St :=
  if tier_eqb (st_tier st) MODERATE
     && (List.length (st_signals st) =? 0)%nat
  then {| st_tier := st_tier st; st_confidence := st_confidence st;
          st_reason := ReasonGeneral;
          st_signals := st_signals st ++ ["default_moderate"] |}
  else st.

Definition toolAwareRule (config : ClawRouteConfig) (hasTools : bool)
    (st : St) : St :=
  if toolAwareRouting (classification config) && hasTools then
    if (TIER_ORDER (st_tier st) <? TIER_ORDER COMPLEX)%nat
    then {| st_tier := COMPLEX;
            st_confidence := Qmin (st_confidence st) (8#10)%Q;
            st_reason := ReasonToolSchemas (st_tier st);
            st_signals := st_signals st ++ ["tool_aware_escalation"] |}
    else st
  else st.

(** [Object.entries(TIER_ORDER).find(([, order]) => order === n)?.[0]
    ?? TaskTier.FRONTIER] *)
Definition tierOfOrder (n : nat) : TaskTier :=
  match n with
  | 0 => HEARTBEAT
  | 1 => SIMPLE
  | 2 => MODERATE
  | 3 => COMPLEX
  | _ => FRONTIER
  end.

Definition lowConfidenceStep (config : ClawRouteConfig) (st : St) : St :=
  if Qltb (st_confidence st) (minConfidence (classification config)) then
    let currentOrder := TIER_ORDER (st_tier st) in
    let nextOrder := Nat.min (currentOrder + 1) (TIER_ORDER FRONTIER) in
    let nextTier := tierOfOrder nextOrder in
    if negb (tier_eqb nextTier (st_tier st))
    then {| st_tier := nextTier; st_confidence := st_confidence st;
            st_reason := ReasonLowConfidence (st_tier st) (st_confidence st);
            st_signals := st_signals st ++ ["low_confidence_escalation"] |}
    else st
  else st.

Definition veryLowConfidenceStep (st : St) : St :=
  if Qltb (st_confidence st) (5#10)%Q && negb (tier_eqb (st_tier st) FRONTIER)
  then {| st_tier := FRONTIER; st_confidence := st_confidence st;
          st_reason := ReasonVeryLowConfidence (st_confidence st);
          st_signals := st_signals st ++ ["very_low_confidence_escalation"] |}
  else st.

Definition conservativeRule (config : ClawRouteConfig) (st : St) : St :=
  if conservativeMode (classification config)
  then veryLowConfidenceStep (lowConfidenceStep config st)
  else st.

(** The rule groups, in the order of the source. *)
Definition rules (request : ChatCompletionRequest) : St :=
  let msgs := messages request in
  let lastMessage := Utils.getLastUserMessage msgs in
  let messageCount := List.length msgs in
  let estimatedTokens := Utils.estimateMessagesTokens msgs in
  let hasTools := hasToolsOf request in
  moderateRule
    (simpleRule lastMessage messageCount hasTools
       (complexRule request lastMessage messageCount estimatedTokens
          (frontierRule request lastMessage estimatedTokens
             (heartbeatRule lastMessage messageCount hasTools
                (modelNameHint request initial))))).

Definition classifyRequest (request : ChatCompletionRequest)
    (config : ClawRouteConfig) : ClassificationResult :=
  let hasTools := hasToolsOf request in
  let st := conservativeRule config
              (toolAwareRule config hasTools (rules request)) in
  let safe0 := tier_eqb (st_tier st) HEARTBEAT
               || tier_eqb (st_tier st) SIMPLE in
  let safeToRetry := if hasTools then false else safe0 in
  {| tier := st_tier st;
     confidence := st_confidence st;
     reason := st_reason st;
     signals := st_signals st;
     toolsDetected := hasTools;
     safeToRetry := safeToRetry |}.

End Classifier.

(* ================================================================= *)
(** ** Router (router.ts) *)

Inductive RouteReason : Type :=
| RoutePassthrough                       (* 'passthrough' *)
| RouteDisabled                          (* 'ClawRoute disabled' *)
| RouteGlobalOverride (m : string)       (* `global override: ${routedModel}` *)
| RouteFreeComplex (t : TaskTier)        (* Free plan - complex routing requires Pro *)
| RouteFreeTools (t : TaskTier)          (* Free plan - tool-aware routing requires Pro *)
| RoutePrimary (t : TaskTier) (pro : bool)
| RouteFallback (t : TaskTier)
| RouteNoKeys (t : TaskTier)
| RouteNoConfig (t : TaskTier)
| RouteDryRun (wouldHaveRouted : string).

Record RoutingDecision : Type := {
  originalModel : string;
  routedModel : string;
  rd_tier : TaskTier;
  rd_reason : RouteReason;
  rd_confidence : Q;
  isDryRun : bool;
  isOverride : bool;
  isPassthrough : bool;
  estimatedSavingsUsd : Q;
  rd_safeToRetry : bool
}.

Module Router.

Import Models Config.
Local Open Scope string_scope.

Definition isProEnabled (P : Platform) (config : ClawRouteConfig) : bool :=
  if lic_enabled (license config) then true
  else match graceUntil (license config) with
       | Some g =>
           if Js.truthy g then
             match dateValue P g with
             | Some graceEnd => (now P <? graceEnd)%Z
             | None => false
             end
           else false
       | None => false
       end.

Definition shouldFreeModerateUseOriginal (P : Platform) (t : TaskTier)
    (toolsDetected : bool) (config : ClawRouteConfig) : bool :=
  if isProEnabled P config then false
  else if negb (tier_eqb t MODERATE) then false
  else toolsDetected.

Definition shouldFreeTierUseOriginal (P : Platform) (t : TaskTier)
    (config : ClawRouteConfig) : bool :=
  if isProEnabled P config then false
  else tier_eqb t COMPLEX || tier_eqb t FRONTIER.

(** [if (config.overrides.globalForceModel)] *)
Definition forcedModel (config : ClawRouteConfig) : option string :=
  match globalForceModel (overrides config) with
  | Some m => if Js.truthy m then Some m else None
  | None => None
  end.

(** Step 4 of [routeRequest]: routed model, reason, pass-through flag. *)
Definition tierRouting (P : Platform) (originalModel : string)
    (cls : ClassificationResult) (config : ClawRouteConfig)
    : string * RouteReason * bool :=
  let t := tier cls in
  let proEnabled := isProEnabled P config in
  if shouldFreeTierUseOriginal P t config
  then (originalModel, RouteFreeComplex t, true)
  else if shouldFreeModerateUseOriginal P t (toolsDetected cls) config
  then (originalModel, RouteFreeTools t, true)
  else match models config t with
       | Some tierConfig =>
           if hasApiKey config (getProviderForModel (primary tierConfig))
           then (primary tierConfig, RoutePrimary t proEnabled, false)
           else if hasApiKey config
                     (getProviderForModel (fallback tierConfig))
           then (fallback tierConfig, RouteFallback t, false)
           else (originalModel, RouteNoKeys t, true)
       | None => (originalModel, RouteNoConfig t, true)
       end.

Definition routeRequest (P : Platform) (request : ChatCompletionRequest)
    (cls : ClassificationResult) (config : ClawRouteConfig)
    : RoutingDecision :=
  let originalModel := model request in
  let estimatedTokens := Utils.estimateMessagesTokens (messages request) in
  let estimatedOutputTokens := Z.min estimatedTokens 4000 in
  if negb (cfg_enabled config) then
    {| originalModel := originalModel;
       routedModel := originalModel;
       rd_tier := tier cls;
       rd_reason := RouteDisabled;
       rd_confidence := confidence cls;
       isDryRun := false;
       isOverride := false;
       isPassthrough := true;
       estimatedSavingsUsd := 0%Q;
       rd_safeToRetry := safeToRetry cls |}
  else
    let '(routed1, reason1, override1, passthrough1) :=
      match forcedModel config with
      | Some m => (m, RouteGlobalOverride m, true, false)
      | None =>
          let '(m, r, p) := tierRouting P originalModel cls config in
          (m, r, false, p)
      end in
    let '(routed2, reason2) :=
      if dryRun config then (originalModel, RouteDryRun routed1)
      else (routed1, reason1) in
    let originalCost :=
      calculateCost originalModel estimatedTokens estimatedOutputTokens in
    let routedCost :=
      calculateCost routed2 estimatedTokens estimatedOutputTokens in
    {| originalModel := originalModel;
       routedModel := routed2;
       rd_tier := tier cls;
       rd_reason := reason2;
       rd_confidence := confidence cls;
       isDryRun := dryRun config;
       isOverride := override1;
       isPassthrough := passthrough1;
       estimatedSavingsUsd := Qmax 0 (originalCost - routedCost)%Q;
       rd_safeToRetry := safeToRetry cls |}.

Definition tierOrder : list TaskTier :=
  [HEARTBEAT; SIMPLE; MODERATE; COMPLEX; FRONTIER].

Fixpoint indexOf (t : TaskTier) (l : list TaskTier) : option nat :=
  match l with
  | [] => None
  | x :: rest =>
      if tier_eqb x t then Some 0
      else option_map S (indexOf t rest)
  end.

(** The body of the [for] loop over the higher tiers. *)
Fixpoint firstAvailable (config : ClawRouteConfig) (ts : list TaskTier)
    : option (string * TaskTier) :=
  match ts with
  | [] => None
  | nextTier :: rest =>
      match models config nextTier with
      | None => firstAvailable config rest
      | Some tierConfig =>
          if hasApiKey config (getProviderForModel (primary tierConfig))
          then Some (primary tierConfig, nextTier)
          else if hasApiKey config
                    (getProviderForModel (fallback tierConfig))
          then Some (fallback tierConfig, nextTier)
          else firstAvailable config rest
      end
  end.

Definition getEscalatedModel (currentTier : TaskTier)
    (config : ClawRouteConfig) : option (string * TaskTier) :=
  match indexOf currentTier tierOrder with
  | None => None
  | Some currentIndex =>
      if (List.length tierOrder - 1 <=? currentIndex)%nat then None
      else firstAvailable config (skipn (currentIndex + 1) tierOrder)
  end.

Definition canUseModel (modelId : string) (config : ClawRouteConfig) : bool :=
  hasApiKey config (getProviderForModel modelId).

(** The model a tier can offer: its primary when that provider has a key,
    else its fallback when that provider has one. *)
Definition keyed (config : ClawRouteConfig) (modelId : string) : bool :=
  hasApiKey config (getProviderForModel modelId).

Definition tierChoice (config : ClawRouteConfig) (t : TaskTier)
    : option string :=
  match models config t with
  | Some tierConfig =>
      if keyed config (primary tierConfig) then Some (primary tierConfig)
      else if keyed config (fallback tierConfig)
      then Some (fallback tierConfig)
      else None
  | None => None
  end.

(** [Object.values(TaskTier)] *)
Definition allTiers : list TaskTier :=
  [HEARTBEAT; SIMPLE; MODERATE; COMPLEX; FRONTIER].

(** [if (!models.includes(m)) models.push(m)] *)
Definition pushNew (m : string) (ms : list string) : list string :=
  if existsb (String.eqb m) ms then ms else (ms ++ [m])%list.

(** One turn of the loop of [getAvailableModels]. *)
Definition addTierModels (config : ClawRouteConfig) (ms : list string)
    (t : TaskTier) : list string :=
  match models config t with
  | None => ms
  | Some tierConfig =>
      let ms1 :=
        if hasApiKey config (getProviderForModel (primary tierConfig))
        then pushNew (primary tierConfig) ms else ms in
      if hasApiKey config (getProviderForModel (fallback tierConfig))
      then pushNew (fallback tierConfig) ms1 else ms1
  end.

Definition getAvailableModels (config : ClawRouteConfig) : list string :=
  fold_left (addTierModels config) allTiers [].

(** [config.models[tier]?.primary ?? 'unknown'] *)
Definition getModelMap (config : ClawRouteConfig) (t : TaskTier) : string :=
  match models config t with
  | Some tierConfig => primary tierConfig
  | None => "unknown"
  end.

(** The tier names the model as its primary or its fallback, and the
    provider of the model has a key. *)
Definition offers (config : ClawRouteConfig) (t : TaskTier) (m : string)
    : Prop :=
  exists tierConfig,
    models config t = Some tierConfig
    /\ (m = primary tierConfig \/ m = fallback tierConfig)
    /\ canUseModel m config = true.

End Router.

(* ================================================================= *)
(** ** Validator (validator.ts) *)

Inductive ValidationReason : Type :=
| http_error (status : Z)
| invalid_json_body
| api_error_response
| no_choices
| no_first_choice
| no_message
| unknown_tool_name (name : string)
| invalid_tool_call_json
| suspiciously_short_response
| reason_ok.

Record ValidationResult : Type := {
  valid : bool;
  v_reason : ValidationReason;
  hadToolCalls : bool
}.

Inductive Body : Type :=
| NoBody                         (* null *)
| Unread (text : string)         (* not yet read *)
| Unreadable (message : string)  (* not yet read; reading it will throw *)
| ErrorJson (message : string)   (* the body built by createErrorResponse *)
| Consumed.                      (* already read by text() *)

Record Response : Type := {
  status : Z;
  headers : list (string * string);
  body : Body
}.

Definition ok (r : Response) : bool :=
  ((200 <=? status r) && (status r <=? 299))%Z.

(* ================================================================= *)
(** ** Header lists and response construction (the platform's Fetch API)

    Strings hold code units below 256, so every string is a byte
    string.  A header list is kept as the pairs it holds; the order of
    the pairs and the letter case of the names are not told apart by the
    Headers interface. *)

Module Http.

Local Open Scope string_scope.

(** HTTP whitespace: tab, line feed, carriage return, space. *)
Definition isHttpWhitespace (c : ascii) : bool :=
  let n := Js.code c in
  ((n =? 9) || (n =? 10) || (n =? 13) || (n =? 32))%nat.

Fixpoint stripStart (s : string) : string :=
  match s with
  | "" => ""
  | String c t => if isHttpWhitespace c then stripStart t else s
  end.

Fixpoint stripEnd (s : string) : string :=
  match s with
  | "" => ""
  | String c t =>
      match stripEnd t with
      | "" => if isHttpWhitespace c then "" else String c ""
      | r => String c r
      end
  end.

(** NUL, line feed and carriage return may not occur in a header
    value. *)
Definition forbidden (c : ascii) : bool :=
  let n := Js.code c in ((n =? 0) || (n =? 10) || (n =? 13))%nat.

(** A value given to [set] or to a headers initialiser is normalized,
    its leading and trailing whitespace removed, and then validated:
    [None] is the TypeError for a value that is not a header value. *)
Definition headerValue (value : string) : option string :=
  let v := stripEnd (stripStart value) in
  if Js.every (fun c => negb (forbidden c)) v then Some v else None.

Definition lowerByte (c : ascii) : ascii :=
  let n := Js.code c in
  if ((65 <=? n) && (n <=? 90))%nat then ascii_of_nat (n + 32) else c.

Fixpoint byteLower (s : string) : string :=
  match s with
  | "" => ""
  | String c t => String (lowerByte c) (byteLower t)
  end.

(** Header names match byte-case-insensitively. *)
Definition sameName (a b : string) : bool :=
  String.eqb (byteLower a) (byteLower b).

Definition named (name : string) (h : string * string) : bool :=
  sameName (fst h) name.

(** To set a header in a list: the first header of that name gets the
    value and the others of that name are removed; without one, the
    header is appended. *)
Fixpoint setIn (name value : string) (hs : list (string * string))
    : list (string * string) :=
  match hs with
  | [] => [(name, value)]
  | h :: rest =>
      if named name h
      then (fst h, value) :: filter (fun x => negb (named name x)) rest
      else h :: setIn name value rest
  end.

(** The null body statuses. *)
Definition nullBodyStatus (s : Z) : bool :=
  ((s =? 101) || (s =? 103) || (s =? 204) || (s =? 205) || (s =? 304))%Z.

(** [new Response(body, { status, ... })] accepts its initialiser: it
    throws a RangeError for a status outside 200..599 and a TypeError
    for a body that is not null together with a null body status. *)
Definition initOk (withBody : bool) (s : Z) : bool :=
  ((200 <=? s) && (s <=? 599))%Z && negb (withBody && nullBodyStatus s).

Definition hasBody (r : Response) : bool :=
  match body r with NoBody => false | _ => true end.

(** The body of [r] can be given to a new response: the constructor
    throws a TypeError for a stream that was read already. *)
Definition bodyUsable (r : Response) : bool :=
  match body r with Consumed => false | _ => true end.

End Http.

Module Validator.

Local Open Scope string_scope.

Definition invalid (r : ValidationReason) (tc : bool) : ValidationResult :=
  {| valid := false; v_reason := r; hadToolCalls := tc |}.

Definition nonEmpty {A} (o : option (list A)) : bool :=
  match o with
  | Some (_ :: _) => true
  | _ => false
  end.

(** The loop over the tool calls: the first failure, if any. *)
Fixpoint checkToolCalls (P : Platform) (toolNames : list string)
    (toolCalls : list ToolCall) : option ValidationReason :=
  match toolCalls with
  | [] => None
  | toolCall :: rest =>
      if negb (existsb (String.eqb (tc_name toolCall)) toolNames)
      then Some (unknown_tool_name (tc_name toolCall))
      else
        let argsJson := tc_arguments toolCall in
        if Js.truthy argsJson && negb (Js.isEmpty (Js.trim argsJson))
           && jsonIsNull P argsJson && negb (String.eqb argsJson "{}")
        then Some invalid_tool_call_json
        else checkToolCalls P toolNames rest
  end.

Definition contentString (m : ChatMessage) : string :=
  match content m with
  | ContentString s => s
  | _ => ""
  end.

Definition validateMessage (P : Platform) (msg : ChatMessage)
    (request : ChatCompletionRequest) (t : TaskTier) : ValidationResult :=
  let toolCalls := msg_tool_calls msg in
  let hadToolCalls := nonEmpty toolCalls in
  let toolFailure :=
    match toolCalls, tools request with
    | Some tcs, Some ((_ :: _) as defs) =>
        if hadToolCalls
        then checkToolCalls P (map fn_name defs) tcs
        else None
    | _, _ => None
    end in
  match toolFailure with
  | Some r => invalid r true
  | None =>
      let content := contentString msg in
      if negb (tier_eqb t HEARTBEAT) && negb hadToolCalls
         && (Js.length content <? 15)%Z
         && negb (Js.isEmpty (Js.trim content))
      then invalid suspiciously_short_response false
      else {| valid := true; v_reason := reason_ok;
              hadToolCalls := hadToolCalls |}
  end.

Definition validateResponse (P : Platform) (response : Response)
    (responseBody : option ChatCompletionResponse)
    (request : ChatCompletionRequest) (t : TaskTier) : ValidationResult :=
  if negb (ok response) then invalid (http_error (status response)) false
  else match responseBody with
  | None => invalid invalid_json_body false
  | Some b =>
      if error_truthy b then invalid api_error_response false
      else match choices b with
      | None => invalid no_choices false
      | Some [] => invalid no_choices false
      | Some (None :: _) => invalid no_first_choice false
      | Some (Some firstChoice :: _) =>
          match message firstChoice with
          | None => invalid no_message false
          | Some msg => validateMessage P msg request t
          end
      end
  end.

Definition validateStreamingChunk (P : Platform) (chunk : string) : bool :=
  if negb (Js.startsWith "data:" chunk) then true
  else
    let data := Js.trim (Js.drop 5 chunk) in
    if String.eqb data "[DONE]" then true
    else negb (jsonIsNull P data).

(** [responseBody?.choices?.[0]?.message?.tool_calls], mapped to name and
    arguments; the empty array when any link is missing. *)
Definition extractToolCalls (responseBody : option ChatCompletionResponse)
    : list (string * string) :=
  match responseBody with
  | Some b =>
      match choices b with
      | Some (Some c :: _) =>
          match message c with
          | Some m =>
              match msg_tool_calls m with
              | Some tcs => map (fun tc => (tc_name tc, tc_arguments tc)) tcs
              | None => []
              end
          | None => []
          end
      | _ => []
      end
  | None => []
  end.

(** [(r)?] *)
Definition opt (r : Re.re) : Re.re := Re.Alt Re.Eps r.

Definition confusionPatterns : list Re.re :=
  [ Re.Cat (Re.lit_i "i")
      (Re.Cat (Re.words_i ["'m"; " am"])
         (Re.Cat (Re.lit_i " ")
            (Re.words_i ["not sure"; "confused"; "uncertain"])));
    Re.Cat (Re.lit_i "i ")
      (Re.Cat (Re.words_i ["don't"; "do not"])
         (Re.Cat (Re.lit_i " ") (Re.words_i ["understand"; "know what"])));
    Re.Cat (Re.lit_i "could you ")
      (Re.Cat (opt (Re.lit_i "please "))
         (Re.words_i ["clarify"; "explain"; "rephrase"]));
    Re.Cat (Re.lit_i "what ")
      (Re.Cat (opt (Re.words_i ["exactly "; "specifically "]))
         (Re.lit_i "do you mean"));
    Re.Cat (Re.lit_i "i")
      (Re.Cat (Re.words_i ["'m"; " am"])
         (Re.Cat (Re.lit_i " ")
            (Re.Cat (opt (Re.lit_i "just ")) (Re.lit_i "an ai"))));
    Re.Cat (Re.lit_i "as an ai") (opt (Re.lit_i " language model")) ].

Definition isConfusedResponse (content : string) : bool :=
  if Js.isEmpty content || (500 <? Js.length content)%Z then false
  else existsb (fun pattern => Re.test_search pattern content)
               confusionPatterns.

(** The arguments of a tool call pass the check: they are blank, or they
    parse to something other than null, or they are the two braces. *)
Definition argumentsAccepted (P : Platform) (argsJson : string) : Prop :=
  Js.trim argsJson = EmptyString
  \/ jsonIsNull P argsJson = false
  \/ argsJson = "{}"%string.

End Validator.

(* ================================================================= *)
(** ** Executor (executor.ts) *)

Record ExecutionResult : Type := {
  er_response : Response;
  er_routingDecision : RoutingDecision;
  actualModel : string;
  er_escalated : bool;
  er_escalationChain : list string;
  inputTokens : Z;
  outputTokens : Z;
  originalCostUsd : Q;
  actualCostUsd : Q;
  savingsUsd : Q;
  responseTimeMs : Z;
  er_hadToolCalls : bool
}.

(** One upstream call: the model id it was made for and what came back. *)
Record Dispatch : Type := {
  to : string;
  answer : FetchOutcome
}.

(** What [executeRequest] did: its upstream calls, in order, and the result
    it resolved with ([None] when it threw). *)
Record Execution : Type := {
  dispatches : list Dispatch;
  outcome : option ExecutionResult
}.

Module Executor.

Import Models Config Router Validator.
Local Open Scope string_scope.

Definition canEscalate (P : Platform) (currentTier : TaskTier)
    (config : ClawRouteConfig) : bool :=
  if isProEnabled P config then true
  else tier_eqb currentTier HEARTBEAT.

Definition extractModelName (modelId : string) : string :=
  if Js.includes "/" modelId
  then Js.join "/" (tl (Js.split "/" modelId))
  else modelId.

Inductive Thrown : Type :=
| NoApiKey (p : ProviderType)        (* thrown before any fetch *)
| FetchFailed (message : string)
| ReadFailed (message : string)      (* [response.text()] rejected *)
| ConstructFailed (message : string). (* [new Response] threw *)

(** [error instanceof Error ? error.message : 'Request failed'] *)
Definition messageOf (e : Thrown) : string :=
  match e with
  | NoApiKey p => "No API key configured for provider: " ++ providerName p
  | FetchFailed m => m
  | ReadFailed m => m
  | ConstructFailed m => m
  end.

Definition createErrorResponse (message : string) : Response :=
  {| status := 500;
     headers := [("Content-Type", "application/json")];
     body := ErrorJson message |}.

Definition received (u : Upstream) : Response :=
  {| status := up_status u; headers := up_headers u;
     body := match up_body u with
             | BodyNull => NoBody
             | BodyText text => Unread text
             | BodyBroken message => Unreadable message
             end |}.

(** [await response.text()]: the text, empty for a null body, or the
    message of the error the read throws. *)
Definition readText (u : Upstream) : string + string :=
  match up_body u with
  | BodyNull => inl ""
  | BodyText text => inl text
  | BodyBroken message => inr message
  end.

(** The response once [text()] was called on it: a body that was there
    is used up. *)
Definition afterRead (r : Response) : Response :=
  {| status := status r; headers := headers r;
     body := match body r with NoBody => NoBody | _ => Consumed end |}.

(** [makeProviderRequest], with the log of the upstream calls made so
    far: without a key it throws before calling [fetch]. *)
Definition makeProviderRequest (P : Platform) (modelId : string)
    (config : ClawRouteConfig) (log : list Dispatch)
    : list Dispatch * (Thrown + Upstream) :=
  let provider := getProviderForModel modelId in
  let apiKey := getApiKey config provider in
  if negb (Js.truthy apiKey) then (log, inl (NoApiKey provider))
  else
    let result :=
      fetch P (List.length log) provider (extractModelName modelId) in
    let log' := (log ++ [{| to := modelId; answer := result |}])%list in
    match result with
    | FetchThrows m => (log', inl (FetchFailed m))
    | FetchReturns u => (log', inr u)
    end.

(** The locals of [executeRequest] that the retry loops update. *)
Record St : Type := {
  currentModel : string;
  currentTier : TaskTier;
  escalationChain : list string;
  escalated : bool;
  retryCount : Z;
  response : option Response;
  responseBody : option ChatCompletionResponse;
  st_hadToolCalls : bool;
  log : list Dispatch
}.

Definition setResponse (r : Response) (l : list Dispatch) (st : St) : St :=
  {| currentModel := currentModel st; currentTier := currentTier st;
     escalationChain := escalationChain st; escalated := escalated st;
     retryCount := retryCount st; response := Some r;
     responseBody := responseBody st;
     st_hadToolCalls := st_hadToolCalls st; log := l |}.

Definition setLog (l : list Dispatch) (st : St) : St :=
  {| currentModel := currentModel st; currentTier := currentTier st;
     escalationChain := escalationChain st; escalated := escalated st;
     retryCount := retryCount st; response := response st;
     responseBody := responseBody st;
     st_hadToolCalls := st_hadToolCalls st; log := l |}.

Definition setValidated (rb : option ChatCompletionResponse) (tc : bool)
    (st : St) : St :=
  {| currentModel := currentModel st; currentTier := currentTier st;
     escalationChain := escalationChain st; escalated := escalated st;
     retryCount := retryCount st; response := response st;
     responseBody := rb; st_hadToolCalls := tc; log := log st |}.

(** [currentModel = m; escalationChain.push(m)] *)
Definition switchTo (m : string) (st : St) : St :=
  {| currentModel := m; currentTier := currentTier st;
     escalationChain := escalationChain st ++ [m];
     escalated := escalated st; retryCount := retryCount st;
     response := response st; responseBody := responseBody st;
     st_hadToolCalls := st_hadToolCalls st; log := log st |}.

(** The five assignments before each [continue]. *)
Definition escalateTo (e : string * TaskTier) (st : St) : St :=
  {| currentModel := fst e; currentTier := snd e;
     escalationChain := escalationChain st ++ [fst e];
     escalated := true; retryCount := retryCount st + 1;
     response := response st; responseBody := responseBody st;
     st_hadToolCalls := st_hadToolCalls st; log := log st |}.

Inductive Step : Type :=
| Continue (st : St)
| Break (st : St).

Section Loops.

Variable P : Platform.
Variable request : ChatCompletionRequest.
Variable routingDecision : RoutingDecision.
Variable config : ClawRouteConfig.

Definition effectiveMaxRetries : Z :=
  if esc_enabled (escalation config) then maxRetries (escalation config)
  else 0%Z.

(** [config.escalation.enabled && retryCount < maxRetries] *)
Definition retriesRemain (st : St) : bool :=
  esc_enabled (escalation config)
  && (retryCount st <? effectiveMaxRetries)%Z.

(** Escalate when the guard holds and a higher tier is available. *)
Definition tryEscalate (guard : bool) (st : St) : option St :=
  if guard then
    match getEscalatedModel (currentTier st) config with
    | Some escalation => Some (escalateTo escalation st)
    | None => None
    end
  else None.

(** The [catch] block of either loop. *)
Definition onThrow (allFailed : string) (e : Thrown) (st : St) : Step :=
  match tryEscalate (retriesRemain st && rd_safeToRetry routingDecision) st
  with
  | Some st' => Continue st'
  | None =>
      if alwaysFallbackToOriginal (escalation config) then
        let st1 := switchTo (originalModel routingDecision) st in
        match makeProviderRequest P (currentModel st1) config (log st1) with
        | (l, inr u) => Break (setResponse (received u) l st1)
        | (l, inl _) => Break (setResponse (createErrorResponse allFailed) l st1)
        end
      else Break (setResponse (createErrorResponse (messageOf e))
                              (log st) st)
  end.

(** The branch for a response that is not ok, after the escalation guard
    of the calling loop. *)
Definition onHttpError (allFailed : string) (guard : bool) (st : St) : Step :=
  match tryEscalate guard st with
  | Some st' => Continue st'
  | None =>
      if alwaysFallbackToOriginal (escalation config)
         && negb (String.eqb (currentModel st)
                             (originalModel routingDecision))
      then
        let st1 := switchTo (originalModel routingDecision) st in
        match makeProviderRequest P (currentModel st1) config (log st1) with
        | (l, inr u) => Break (setResponse (received u) l st1)
        | (l, inl e) => onThrow allFailed e (setLog l st1)
        end
      else Break st
  end.

(** [response = new Response(bodyText, { status, statusText, headers });
    break], inside the [try]: for a null body status the constructor
    throws and the [catch] block takes over. *)
Definition recreate (bodyText : string) (r : Response) (l : list Dispatch)
    (st1 : St) : Step :=
  if Http.initOk true (status r)
  then Break (setResponse {| status := status r; headers := headers r;
                             body := Unread bodyText |} l st1)
  else onThrow "All models failed" (ConstructFailed (constructError P)) st1.

(** One pass through the body of the non-streaming [while].  The body
    that was parsed is a typed one: a value on which [validateResponse]
    itself would throw is not among the bodies of the model. *)
Definition nonStreamingPass (st : St) : Step :=
  match makeProviderRequest P (currentModel st) config (log st) with
  | (l, inl e) => onThrow "All models failed" e (setLog l st)
  | (l, inr u) =>
      let r := received u in
      if ok r then
        match readText u with
        | inr message =>
            onThrow "All models failed" (ReadFailed message)
              (setResponse (afterRead r) l st)
        | inl bodyText =>
            let parsed := jsonBody P bodyText in
            let validation :=
              validateResponse P r parsed request (currentTier st) in
            let st1 := setValidated parsed (hadToolCalls validation)
                         (setResponse (afterRead r) l st) in
            if negb (valid validation) then
              if hadToolCalls validation
                 || negb (rd_safeToRetry routingDecision)
                 || negb (onlyRetryWithoutToolCalls (escalation config))
              then Break st1
              else match tryEscalate (retriesRemain st1) st1 with
                   | Some st' => Continue st'
                   | None => recreate bodyText r l st1
                   end
            else recreate bodyText r l st1
        end
      else
        onHttpError "All models failed"
          (retriesRemain st && rd_safeToRetry routingDecision)
          (setResponse r l st)
  end.

(** One pass through the body of the streaming [while]. *)
Definition streamingPass (st : St) : Step :=
  match makeProviderRequest P (currentModel st) config (log st) with
  | (l, inl e) => onThrow "All models failed to respond" e (setLog l st)
  | (l, inr u) =>
      let r := received u in
      if ok r then Break (setResponse r l st)
      else
        onHttpError "All models failed to respond"
          (retriesRemain st && rd_safeToRetry routingDecision
           && canEscalate P (currentTier st) config)
          (setResponse r l st)
  end.

(** [while (retryCount <= maxRetries) { ... }]: every [continue] spends
    one unit of fuel; [None] is fuel exhausted. *)
Fixpoint loop (pass : St -> Step) (fuel : nat) (st : St) : option St :=
  if (effectiveMaxRetries <? retryCount st)%Z then Some st
  else match pass st with
       | Break st' => Some st'
       | Continue st' =>
           match fuel with
           | O => None
           | S f => loop pass f st'
           end
       end.

(** A [continue] needs [retryCount < maxRetries], so this much fuel is
    enough. *)
Definition fuelFor (st : St) : nat :=
  Z.to_nat (effectiveMaxRetries - retryCount st).

Definition buildExecutionResult (resp : Response) (actual : string)
    (esc : bool) (chain : list string) (inTok outTok : Z) (tc : bool)
    : ExecutionResult :=
  let originalCostUsd :=
    calculateCost (originalModel routingDecision) inTok outTok in
  let actualCostUsd := calculateCost actual inTok outTok in
  {| er_response := resp;
     er_routingDecision := routingDecision;
     actualModel := actual;
     er_escalated := esc;
     er_escalationChain := chain;
     inputTokens := inTok;
     outputTokens := outTok;
     originalCostUsd := originalCostUsd;
     actualCostUsd := actualCostUsd;
     savingsUsd := Qmax 0 (originalCostUsd - actualCostUsd)%Q;
     responseTimeMs := elapsedMs P;
     er_hadToolCalls := tc |}.

Definition tierName (t : TaskTier) : string :=
  match t with
  | HEARTBEAT => "heartbeat"
  | SIMPLE => "simple"
  | MODERATE => "moderate"
  | COMPLEX => "complex"
  | FRONTIER => "frontier"
  end.

Definition boolName (b : bool) : string := if b then "true" else "false".

(** [headers.set(name, value)]: the value is normalized and validated,
    then set in the list; [None] is the TypeError for a value that is not
    a header value. *)
Definition setHeader (name value : string) (hs : list (string * string))
    : option (list (string * string)) :=
  match Http.headerValue value with
  | Some v => Some (Http.setIn name v hs)
  | None => None
  end.

(** The three [set] calls on a copy of the headers of the response. *)
Definition routeHeaders (st : St) (hs : list (string * string))
    : option (list (string * string)) :=
  match setHeader "X-ClawRoute-Model" (currentModel st) hs with
  | Some hs1 =>
      match setHeader "X-ClawRoute-Tier" (tierName (currentTier st)) hs1
      with
      | Some hs2 =>
          setHeader "X-ClawRoute-Escalated" (boolName (escalated st)) hs2
      | None => None
      end
  | None => None
  end.

Definition initialSt : St :=
  {| currentModel := routedModel routingDecision;
     currentTier := rd_tier routingDecision;
     escalationChain := [routedModel routingDecision];
     escalated := false;
     retryCount := 0%Z;
     response := None;
     responseBody := None;
     st_hadToolCalls := false;
     log := [] |}.

(** [responseBody?.choices?.[0]?.message?.tool_calls] is truthy. *)
Definition bodyHasToolCallsField (rb : option ChatCompletionResponse) : bool :=
  match rb with
  | Some b =>
      match choices b with
      | Some (Some c :: _) =>
          match message c with
          | Some m => match msg_tool_calls m with Some _ => true | None => false end
          | None => false
          end
      | _ => false
      end
  | None => false
  end.

(** After the non-streaming loop.  [None] is a throw: [response] was
    never assigned and reading its headers throws; or a [set] refuses its
    value; or [new Response(response.body, ...)] throws, as it does for a
    body that [text()] has read already, which is the body of a response
    the loop was left with before it was recreated. *)
Definition finishNonStreaming (st : St) : option ExecutionResult :=
  match response st with
  | None => None
  | Some resp =>
      let estimate := Utils.estimateMessagesTokens (messages request) in
      let '(inTok, outTok) :=
        match responseBody st with
        | Some {| usage := Some u |} =>
            (prompt_tokens u, completion_tokens u)
        | _ => (estimate, 0%Z)
        end in
      let tc := if bodyHasToolCallsField (responseBody st) then true
                else st_hadToolCalls st in
      match routeHeaders st (headers resp) with
      | None => None
      | Some hs =>
          if Http.bodyUsable resp
             && Http.initOk (Http.hasBody resp) (status resp) then
            let finalResponse :=
              {| status := status resp; headers := hs;
                 body := body resp |} in
            Some (buildExecutionResult finalResponse (currentModel st)
                    (escalated st) (escalationChain st) inTok outTok tc)
          else None
      end
  end.

Definition SSE_HEADERS : list (string * string) :=
  [("Content-Type", "text/event-stream"); ("Cache-Control", "no-cache");
   ("Connection", "keep-alive"); ("X-Accel-Buffering", "no")].

(** The headers of the streamed response: the initialiser normalizes and
    validates each value; only that of the model can be refused. *)
Definition streamHeaders (st : St) : option (list (string * string)) :=
  match Http.headerValue (currentModel st) with
  | Some v =>
      Some (SSE_HEADERS
            ++ [("X-ClawRoute-Model", v);
                ("X-ClawRoute-Tier", tierName (currentTier st));
                ("X-ClawRoute-Escalated", boolName (escalated st))])%list
  | None => None
  end.

(** After the streaming loop.  A response that is ok and has a body is
    piped into a new one; any other is handed on as it is.  The result is
    built before the pump has delivered anything, so the token counts are
    the estimates and [hadToolCalls] is still false.  [None] is a throw:
    [response] was never assigned, or the new response cannot be
    built. *)
Definition finishStreaming (st : St) : option ExecutionResult :=
  match response st with
  | None => None
  | Some resp =>
      let estimate := Utils.estimateMessagesTokens (messages request) in
      let result out :=
        buildExecutionResult out (currentModel st) (escalated st)
          (escalationChain st) estimate 0%Z (st_hadToolCalls st) in
      if ok resp && Http.hasBody resp then
        match streamHeaders st with
        | None => None
        | Some hs =>
            if Http.initOk true (status resp)
            then Some (result {| status := status resp; headers := hs;
                                 body := body resp |})
            else None
        end
      else Some (result resp)
  end.

(** The locals when the loop is left; [None] is fuel exhausted. *)
Definition finalState : option St :=
  if stream request
  then loop streamingPass (fuelFor initialSt) initialSt
  else loop nonStreamingPass (fuelFor initialSt) initialSt.

Definition executeRequest : Execution :=
  if stream request then
    match loop streamingPass (fuelFor initialSt) initialSt with
    | Some st => {| dispatches := log st; outcome := finishStreaming st |}
    | None => {| dispatches := []; outcome := None |}
    end
  else
    match loop nonStreamingPass (fuelFor initialSt) initialSt with
    | Some st => {| dispatches := log st; outcome := finishNonStreaming st |}
    | None => {| dispatches := []; outcome := None |}
    end.

End Loops.

(** What a pass leaves behind, whichever way it ends. *)
Definition after (s : Step) : St :=
  match s with Continue st => st | Break st => st end.

Definition continues (s : Step) : bool :=
  match s with Continue _ => true | Break _ => false end.

(** What the retry loops need of their body: a [continue] happens only
    while retries remain and counts one retry; a [break] leaves a
    response. *)
Definition goodPass (config : ClawRouteConfig) (pass : St -> Step) : Prop :=
  forall st,
    (continues (pass st) = true ->
       (retryCount st < effectiveMaxRetries config)%Z
       /\ retryCount (after (pass st)) = (retryCount st + 1)%Z)
    /\ (continues (pass st) = false -> response (after (pass st)) <> None).

(** The message of the first choice of a body. *)
Definition firstMessage (b : ChatCompletionResponse) : option ChatMessage :=
  match choices b with
  | Some (Some c :: _) => message c
  | _ => None
  end.

(** The first choice's message has a non-empty [tool_calls] array. *)
Definition hasToolCalls (b : ChatCompletionResponse) : bool :=
  match firstMessage b with
  | Some m => nonEmpty (msg_tool_calls m)
  | None => false
  end.

(** [executePassthrough]: the upstream calls it made and the response it
    resolves with; it never throws. *)
Definition executePassthrough (P : Platform) (request : ChatCompletionRequest)
    (config : ClawRouteConfig) : list Dispatch * Response :=
  let provider := getProviderForModel (model request) in
  let apiKey := getApiKey config provider in
  if negb (Js.truthy apiKey)
  then ([], createErrorResponse
              ("No API key for provider: " ++ providerName provider))
  else
    match makeProviderRequest P (model request) config [] with
    | (l, inr u) => (l, received u)
    | (l, inl e) => (l, createErrorResponse (messageOf e))
    end.

(** The locals of [executeRequest] agree with each other: the chain opens
    with the routed model and closes with the current one, every upstream
    call went to a model of the chain that has a key, and a chain that is
    not marked escalated holds only the routed and the original model. *)
Definition coherent (config : ClawRouteConfig)
    (routingDecision : RoutingDecision) (st : St) : Prop :=
  (exists rest, escalationChain st = routedModel routingDecision :: rest)
  /\ (exists pre, escalationChain st = (pre ++ [currentModel st])%list)
  /\ Forall (fun d => In (to d) (escalationChain st)
                     /\ keyed config (to d) = true)
            (log st)
  /\ (escalated st = false ->
      Forall (fun m => m = routedModel routingDecision
                       \/ m = originalModel routingDecision)
             (escalationChain st)).

End Executor.

(* ================================================================= *)
(** ** Stream pump (streaming.ts)

    The pump reads chunks from the upstream body, writes each one to the
    client as it comes, and looks through the text for usage and tool
    calls.  A chunk is the text the decoder gives for it; the upstream body
    is its chunks and the way the reading ends. *)

Record ChunkUsage : Type := {
  cu_prompt_tokens : option Z;
  cu_completion_tokens : option Z
}.

(** A parsed frame: the length of [choices?.[0]?.delta?.tool_calls] when it
    is there, and [usage]. *)
Record StreamChunk : Type := {
  sc_tool_calls : option nat;
  sc_usage : option ChunkUsage
}.

Record StreamResult : Type := {
  sr_inputTokens : Z;
  sr_outputTokens : Z;
  sr_hadToolCalls : bool;
  sr_error : option string
}.

Inductive Ending : Type :=
| Done
| Failed (message : string).

Module Streaming.

Local Open Scope string_scope.

Section Pump.

(** [safeJsonParse<StreamChunk>(data)], [None] for a falsy result. *)
Variable parse : string -> option StreamChunk.

(** [if (n) ...] for a number *)
Definition truthyNumber (o : option Z) : option Z :=
  match o with
  | Some n => if (n =? 0)%Z then None else Some n
  | None => None
  end.

Definition processSSELine (line : string) (result : StreamResult)
    : StreamResult :=
  let trimmed := Js.trim line in
  if negb (Js.startsWith "data:" trimmed) then result
  else
    let data := Js.trim (Js.drop 5 trimmed) in
    if String.eqb data "[DONE]" then result
    else
      match parse data with
      | None => result
      | Some parsed =>
          let tc :=
            match sc_tool_calls parsed with
            | Some n => if (0 <? n)%nat then true else sr_hadToolCalls result
            | None => sr_hadToolCalls result
            end in
          match sc_usage parsed with
          | None =>
              {| sr_inputTokens := sr_inputTokens result;
                 sr_outputTokens := sr_outputTokens result;
                 sr_hadToolCalls := tc;
                 sr_error := sr_error result |}
          | Some us =>
              {| sr_inputTokens :=
                   match truthyNumber (cu_prompt_tokens us) with
                   | Some n => n
                   | None => sr_inputTokens result
                   end;
                 sr_outputTokens :=
                   match truthyNumber (cu_completion_tokens us) with
                   | Some n => n
                   | None => sr_outputTokens result
                   end;
                 sr_hadToolCalls := tc;
                 sr_error := sr_error result |}
          end
      end.

(** [for (const line of lines) processSSELine(line, result)] *)
Definition processLines (lines : list string) (result : StreamResult)
    : StreamResult :=
  fold_left (fun r line => processSSELine line r) lines result.

Definition processSSEBuffer (buffer : string) (result : StreamResult)
    : StreamResult :=
  processLines (Js.split Js.lf buffer) result.

(** The locals of [pipeStream]: what was written to the client, the
    incomplete line, the number of chunks, the result so far. *)
Record Pump : Type := {
  written : list string;
  buffer : string;
  chunkCount : Z;
  result : StreamResult
}.

Definition emptyResult : StreamResult :=
  {| sr_inputTokens := 0; sr_outputTokens := 0; sr_hadToolCalls := false;
     sr_error := None |}.

Definition start : Pump :=
  {| written := []; buffer := ""; chunkCount := 0; result := emptyResult |}.

(** One turn of the loop for a chunk that was read. *)
Definition onChunk (value : string) (p : Pump) : Pump :=
  let text := buffer p ++ value in
  let lines := Js.split Js.lf text in
  {| written := (written p ++ [value])%list;
     buffer := last lines "";
     chunkCount := chunkCount p + 1;
     result := processLines (removelast lines) (result p) |}.

Definition setError (m : string) (r : StreamResult) : StreamResult :=
  {| sr_inputTokens := sr_inputTokens r; sr_outputTokens := sr_outputTokens r;
     sr_hadToolCalls := sr_hadToolCalls r; sr_error := Some m |}.

(** The closing frame, followed by two line feeds. *)
Definition doneFrame : string :=
  "data: [DONE]" ++ String Js.lf (String Js.lf "").

(** How the loop is left: the reader is done, or a read or a write threw;
    [doneWritten] says whether the closing frame could still be written. *)
Definition onEnding (e : Ending) (doneWritten : bool) (p : Pump) : Pump :=
  match e with
  | Done =>
      {| written := written p; buffer := buffer p;
         chunkCount := chunkCount p;
         result := if Js.truthy (Js.trim (buffer p))
                   then processSSEBuffer (buffer p) (result p)
                   else result p |}
  | Failed m =>
      {| written := if doneWritten then (written p ++ [doneFrame])%list
                    else written p;
         buffer := buffer p; chunkCount := chunkCount p;
         result := setError m (result p) |}
  end.

(** [Math.ceil(chunkCount * 1.5)] when no usage was seen. *)
Definition estimateOutput (p : Pump) : StreamResult :=
  let r := result p in
  if (sr_outputTokens r =? 0)%Z && (0 <? chunkCount p)%Z
  then {| sr_inputTokens := sr_inputTokens r;
          sr_outputTokens := (3 * chunkCount p + 1) / 2;
          sr_hadToolCalls := sr_hadToolCalls r;
          sr_error := sr_error r |}
  else r.

(** [pipeStream]: what reached the client and the result.  The body is
    [None] when the upstream response has none. *)
Definition pipeStream (body : option (list string * Ending))
    (doneWritten : bool) : list string * StreamResult :=
  match body with
  | None => ([], setError "No response body" emptyResult)
  | Some (chunks, e) =>
      let p := onEnding e doneWritten
                 (fold_left (fun p value => onChunk value p) chunks start) in
      (written p, estimateOutput p)
  end.

End Pump.

End Streaming.

(* ================================================================= *)
(** ** Sample data

    The configuration of the test suites, a Free-plan variant of it, and
    small platforms and requests to run the model on. *)

Module Examples.

Import Executor.
Local Open Scope string_scope.

Definition testModels (t : TaskTier) : option TierModelConfig :=
  Some match t with
       | HEARTBEAT => {| primary := "google/gemini-2.5-flash-lite";
                         fallback := "deepseek/deepseek-chat" |}
       | SIMPLE => {| primary := "deepseek/deepseek-chat";
                      fallback := "google/gemini-2.5-flash" |}
       | MODERATE => {| primary := "google/gemini-2.5-flash";
                        fallback := "openai/gpt-4o-mini" |}
       | COMPLEX => {| primary := "anthropic/claude-sonnet-4-5";
                       fallback := "openai/gpt-4o" |}
       | FRONTIER => {| primary := "anthropic/claude-sonnet-4-5";
                        fallback := "openai/gpt-4o" |}
       end.

Definition testKeys (p : ProviderType) : option string :=
  Some match p with
       | openrouter => ""
       | _ => "test-key"
       end.

Definition mkConfig (dry : bool) (force : option string) (pro : bool)
    : ClawRouteConfig :=
  {| cfg_enabled := true;
     dryRun := dry;
     classification := {| conservativeMode := true;
                          minConfidence := (7#10)%Q;
                          toolAwareRouting := true |};
     escalation := {| esc_enabled := true; maxRetries := 2;
                      retryDelayMs := 10;
                      onlyRetryBeforeStreaming := true;
                      onlyRetryWithoutToolCalls := true;
                      alwaysFallbackToOriginal := true |};
     models := testModels;
     overrides := {| globalForceModel := force |};
     apiKeys := testKeys;
     license := {| lic_enabled := pro; graceUntil := None |} |}.

(** The configuration of the test suites: Pro licence, four keys. *)
Definition proConfig : ClawRouteConfig := mkConfig false None true.

(** The same on the Free plan. *)
Definition freeConfig : ClawRouteConfig := mkConfig false None false.

Definition userMessage (s : string) : ChatMessage :=
  {| role := RoleUser; content := ContentString s; msg_tool_calls := None |}.

Definition ask (s : string) : ChatCompletionRequest :=
  {| model := "anthropic/claude-sonnet-4-5";
     messages := [userMessage s];
     tools := None;
     tool_choice := ChoiceAbsent;
     stream := false |}.

Definition askModel (m s : string) : ChatCompletionRequest :=
  {| model := m;
     messages := [userMessage s];
     tools := None;
     tool_choice := ChoiceAbsent;
     stream := false |}.

Definition askWithTool (s : string) : ChatCompletionRequest :=
  {| model := "anthropic/claude-sonnet-4-5";
     messages := [userMessage s];
     tools := Some [ {| fn_name := "test_action" |} ];
     tool_choice := ChoiceAbsent;
     stream := false |}.

Definition classified (t : TaskTier) (toolsSeen safe : bool)
    : ClassificationResult :=
  {| tier := t; confidence := (9#10)%Q; reason := ReasonDefault;
     signals := ["test"]; toolsDetected := toolsSeen; safeToRetry := safe |}.

Definition assistantSays (c : Content) (tcs : option (list ToolCall))
    : ChatCompletionResponse :=
  {| error_truthy := false;
     choices := Some [Some {| message :=
       Some {| role := RoleAssistant; content := c;
               msg_tool_calls := tcs |} |}];
     usage := Some {| prompt_tokens := 10; completion_tokens := 20 |} |}.

Definition aToolCall : ToolCall :=
  {| tc_name := "test_action"; tc_arguments := "{}" |}.

(** A body that carries both an [error] property and a tool call. *)
Definition errorWithToolCall : ChatCompletionResponse :=
  {| error_truthy := true;
     choices := Some [Some {| message :=
       Some {| role := RoleAssistant; content := ContentNull;
               msg_tool_calls := Some [aToolCall] |} |}];
     usage := None |}.

(** A toy parser: four body texts are understood. *)
Definition toyJson (text : string) : option ChatCompletionResponse :=
  if String.eqb text "answer"
  then Some (assistantSays (ContentString "A sufficiently long answer.") None)
  else if String.eqb text "tool call"
  then Some (assistantSays ContentNull (Some [aToolCall]))
  else if String.eqb text "call of an undeclared tool"
  then Some (assistantSays ContentNull
               (Some [ {| tc_name := "other_action";
                          tc_arguments := "{}" |} ]))
  else if String.eqb text "error and tool call"
  then Some errorWithToolCall
  else None.

Definition replies (status : Z) (text : string) : FetchOutcome :=
  FetchReturns {| up_status := status; up_headers := [];
                  up_body := BodyText text |}.

Definition platform (f : nat -> ProviderType -> string -> FetchOutcome)
    : Platform :=
  {| now := 0; dateValue := fun _ => None; jsonIsNull := fun _ => false;
     jsonBody := toyJson; fetch := f; elapsedMs := 5;
     constructError := "Invalid response status code" |}.

(** Every call is answered 204, without a body. *)
Definition noContent : Platform :=
  platform (fun _ _ _ =>
    FetchReturns {| up_status := 204; up_headers := [];
                    up_body := BodyNull |}).

(** Every call is answered 200 with the same text. *)
Definition always (text : string) : Platform :=
  platform (fun _ _ _ => replies 200 text).

(** The first call gets one answer, the later ones another. *)
Definition firstThen (first rest : FetchOutcome) : Platform :=
  platform (fun n _ _ => match n with O => first | S _ => rest end).

(** A heartbeat request, classified and routed on the test
    configuration. *)
Definition pingDecision (P : Platform) : RoutingDecision :=
  Router.routeRequest P (ask "ping")
    (Classifier.classifyRequest (ask "ping") proConfig) proConfig.

(** The test configuration with both safety settings off. *)
Definition plainConfig : ClawRouteConfig :=
  {| cfg_enabled := true;
     dryRun := false;
     classification := {| conservativeMode := false;
                          minConfidence := (7#10)%Q;
                          toolAwareRouting := false |};
     escalation := escalation proConfig;
     models := testModels;
     overrides := overrides proConfig;
     apiKeys := testKeys;
     license := license proConfig |}.

Definition askStreamed (s : string) : ChatCompletionRequest :=
  {| model := "anthropic/claude-sonnet-4-5";
     messages := [userMessage s];
     tools := None;
     tool_choice := ChoiceAbsent;
     stream := true |}.

Definition assistantMessage (s : string) : ChatMessage :=
  {| role := RoleAssistant; content := ContentString s;
     msg_tool_calls := None |}.

(** A toy parser of stream frames: two payloads are understood. *)
Definition toyChunk (data : string) : option StreamChunk :=
  if String.eqb data "tool"
  then Some {| sc_tool_calls := Some 1%nat; sc_usage := None |}
  else if String.eqb data "usage"
  then Some {| sc_tool_calls := None;
               sc_usage := Some {| cu_prompt_tokens := Some 10%Z;
                                   cu_completion_tokens := Some 20%Z |} |}
  else None.

(** The text of a data frame with its line feed, cut in two chunks. *)
Definition twoChunks : list string :=
  ["data: to"; "ol" ++ String Js.lf ""].

(** An ok upstream answer with the given body text. *)
Definition okResponse (text : string) : Response :=
  received {| up_status := 200; up_headers := [];
              up_body := BodyText text |}.

End Examples.

(* ================================================================= *)
(** * Properties *)

Unset Implicit Arguments.

Lemma tier_eqb_eq (a b : TaskTier) : tier_eqb a b = true <-> a = b.
Proof. destruct a, b; cbv; split; congruence. Qed.

Lemma tier_eqb_refl (a : TaskTier) : tier_eqb a a = true.
Proof. now apply tier_eqb_eq. Qed.

Lemma tier_eqb_neq (a b : TaskTier) : tier_eqb a b = false <-> a <> b.
Proof. destruct a, b; cbv; split; congruence. Qed.

(* ----------------------------------------------------------------- *)
(** ** Classifier: the retry flag *)

Section SafeToRetry.

Import Classifier.

Lemma hasToolsOf_false (request : ChatCompletionRequest) :
  hasToolsOf request = false <->
  tools request = None \/ tools request = Some [].
Proof.
  unfold hasToolsOf. destruct (tools request) as [[|d ds]|]; split;
    intros H; auto; try discriminate; destruct H; discriminate.
Qed.

(** C2. [classifyRequest] answers safeToRetry = true exactly when the tier
    it answers is Heartbeat or Simple and the request's tools are absent or
    empty; a request with at least one tool gets safeToRetry = false. *)
Theorem classify_safeToRetry (request : ChatCompletionRequest)
    (config : ClawRouteConfig) :
  let result := classifyRequest request config in
  (safeToRetry result = true <->
     (tier result = HEARTBEAT \/ tier result = SIMPLE)
     /\ (tools request = None \/ tools request = Some []))
  /\ (forall d ds, tools request = Some (d :: ds) ->
        safeToRetry result = false).
Proof.
  cbv zeta. unfold classifyRequest; cbn [safeToRetry tier]. split.
  - rewrite <- hasToolsOf_false.
    destruct (hasToolsOf request).
    + split; [discriminate | intros [_ H]; discriminate].
    + rewrite orb_true_iff, !tier_eqb_eq. tauto.
  - intros d ds Ht. unfold hasToolsOf at 1. now rewrite Ht.
Qed.

End SafeToRetry.

(** A request that declares a tool is never safe to retry. *)
Lemma classify_safeToRetry_witness :
  safeToRetry (Classifier.classifyRequest (Examples.askWithTool "ping")
                 Examples.proConfig) = false.
Proof.
  apply (proj2 (classify_safeToRetry (Examples.askWithTool "ping")
                  Examples.proConfig)
           {| fn_name := "test_action" |} []).
  reflexivity.
Defined.

(* ----------------------------------------------------------------- *)
(** ** Router *)

Section Routing.

Import Models Config Router.

Variable P : Platform.

Lemma forcedModel_some (config : ClawRouteConfig) (m : string) :
  globalForceModel (overrides config) = Some m -> m <> EmptyString ->
  forcedModel config = Some m.
Proof.
  unfold forcedModel. intros -> Hm. destruct m; [congruence | reflexivity].
Qed.

(** C5. With the proxy enabled and a non-empty global force model, the
    decision is flagged as an override whatever the classification; the
    routed model is the forced model when dry-run is off, and the original
    model, with the decision flagged dry-run, when dry-run is on. *)
Theorem global_override_precedence (request : ChatCompletionRequest)
    (cls : ClassificationResult) (config : ClawRouteConfig) (m : string) :
  cfg_enabled config = true ->
  globalForceModel (overrides config) = Some m ->
  m <> EmptyString ->
  let d := routeRequest P request cls config in
  isOverride d = true
  /\ (dryRun config = false -> routedModel d = m /\ isDryRun d = false)
  /\ (dryRun config = true ->
        routedModel d = originalModel d
        /\ originalModel d = model request
        /\ isDryRun d = true).
Proof.
  intros He Hg Hm. cbv zeta. unfold routeRequest.
  rewrite He, (forcedModel_some config m Hg Hm). cbn [negb].
  destruct (dryRun config); cbn; repeat split; congruence.
Qed.

End Routing.

Lemma global_override_precedence_witness :
  let d := Router.routeRequest (Examples.always "answer")
             (Examples.ask "ping")
             (Examples.classified FRONTIER false false)
             (Examples.mkConfig false (Some "openai/gpt-4o"%string) true) in
  isOverride d = true /\ routedModel d = "openai/gpt-4o"%string.
Proof.
  cbv zeta.
  destruct (global_override_precedence (Examples.always "answer")
              (Examples.ask "ping")
              (Examples.classified FRONTIER false false)
              (Examples.mkConfig false (Some "openai/gpt-4o"%string) true)
              "openai/gpt-4o"%string)
    as (Ho & Hoff & _); [reflexivity | reflexivity | discriminate |].
  split; [exact Ho | exact (proj1 (Hoff eq_refl))].
Defined.

Section Escalation.

Import Models Config Router.
Local Open Scope nat_scope.

Variable config : ClawRouteConfig.

(** One step of the loop over the higher tiers, in terms of what the tier
    has to offer. *)
Lemma firstAvailable_cons (t : TaskTier) (ts : list TaskTier) :
  firstAvailable config (t :: ts) =
  match tierChoice config t with
  | Some m => Some (m, t)
  | None => firstAvailable config ts
  end.
Proof.
  cbn [firstAvailable]. unfold tierChoice, keyed.
  destruct (models config t) as [tc|]; [|reflexivity].
  destruct (hasApiKey config (getProviderForModel (primary tc)));
    [reflexivity|].
  now destruct (hasApiKey config (getProviderForModel (fallback tc))).
Qed.

Lemma firstAvailable_none (ts : list TaskTier) :
  firstAvailable config ts = None ->
  forall t', In t' ts -> tierChoice config t' = None.
Proof.
  induction ts as [|t ts IH]; intros Hf t' Hin; [destruct Hin|].
  rewrite firstAvailable_cons in Hf.
  destruct (tierChoice config t) eqn:Hc; [discriminate|].
  destruct Hin as [<-|Hin]; [exact Hc | now apply IH].
Qed.

(** In a list sorted by tier order the loop returns the first tier with
    something to offer. *)
Lemma firstAvailable_some (ts : list TaskTier) (m : string) (t' : TaskTier) :
  StronglySorted (fun a b => TIER_ORDER a < TIER_ORDER b) ts ->
  firstAvailable config ts = Some (m, t') ->
  In t' ts /\ tierChoice config t' = Some m
  /\ forall t'', In t'' ts -> TIER_ORDER t'' < TIER_ORDER t' ->
                 tierChoice config t'' = None.
Proof.
  induction ts as [|t ts IH]; intros Hs Hf; [discriminate|].
  inversion Hs as [|? ? Hs' Hall]; subst.
  rewrite Forall_forall in Hall.
  rewrite firstAvailable_cons in Hf.
  destruct (tierChoice config t) as [m0|] eqn:Hc.
  - injection Hf as -> ->. split; [now left|]. split; [exact Hc|].
    intros t'' [<-|Hin] Hlt; [lia|]. specialize (Hall _ Hin). lia.
  - destruct (IH Hs' Hf) as (Hin & Hm & Hbefore).
    split; [now right|]. split; [exact Hm|].
    intros t'' [<-|Hin''] Hlt; [exact Hc | now apply Hbefore].
Qed.

(** The tiers the loop visits are the strictly higher ones, in order. *)
Lemma higher_tiers (t : TaskTier) :
  let ts := skipn (TIER_ORDER t + 1) tierOrder in
  StronglySorted (fun a b => TIER_ORDER a < TIER_ORDER b) ts
  /\ forall t', In t' ts <-> TIER_ORDER t < TIER_ORDER t'.
Proof.
  destruct t; cbn; (split;
    [ repeat (constructor; [|repeat constructor; cbn; lia]); constructor
    | intros t'; destruct t'; cbn; split; intros H;
      solve [ lia | intuition discriminate | intuition ] ]).
Qed.

Lemma indexOf_tier (t : TaskTier) : indexOf t tierOrder = Some (TIER_ORDER t).
Proof. now destruct t. Qed.

(** C6. [getEscalatedModel] answers null or a model and a tier: the tier is
    strictly higher than the current one, it is the first such tier that
    has a keyed primary or, failing that, a keyed fallback, and the model
    is that primary or fallback.  It answers null only when no higher tier
    has one. *)
Theorem escalation_first_higher (t : TaskTier) :
  match getEscalatedModel t config with
  | Some (m, t') =>
      TIER_ORDER t < TIER_ORDER t'
      /\ tierChoice config t' = Some m
      /\ (forall t'', TIER_ORDER t < TIER_ORDER t'' ->
                      TIER_ORDER t'' < TIER_ORDER t' ->
                      tierChoice config t'' = None)
  | None =>
      forall t', TIER_ORDER t < TIER_ORDER t' -> tierChoice config t' = None
  end.
Proof.
  unfold getEscalatedModel. rewrite indexOf_tier.
  destruct (higher_tiers t) as [Hs Hin]. cbv zeta in Hs, Hin.
  destruct (List.length tierOrder - 1 <=? TIER_ORDER t) eqn:Hmax.
  - apply Nat.leb_le in Hmax. cbn in Hmax.
    intros t' Hlt. destruct t, t'; cbn in *; lia.
  - destruct (firstAvailable config (skipn (TIER_ORDER t + 1) tierOrder))
      as [[m t']|] eqn:Hf.
    + destruct (firstAvailable_some _ _ _ Hs Hf) as (Hin' & Hm & Hbefore).
      split; [now apply Hin|]. split; [exact Hm|].
      intros t'' Hgt Hlt. apply Hbefore; [now apply Hin | exact Hlt].
    + intros t' Hlt. apply (firstAvailable_none _ Hf). now apply Hin.
Qed.

End Escalation.

Section PlanGating.

Import Models Config Router Executor.

Variable P : Platform.

Lemma isProEnabled_false (config : ClawRouteConfig) :
  isProEnabled P config = false <->
  lic_enabled (license config) = false
  /\ match graceUntil (license config) with
     | None => True
     | Some g =>
         g = EmptyString
         \/ match dateValue P g with
            | None => True
            | Some graceEnd => (graceEnd <= now P)%Z
            end
     end.
Proof.
  unfold isProEnabled.
  destruct (lic_enabled (license config)); [intuition discriminate|].
  destruct (graceUntil (license config)) as [g|]; [|tauto].
  destruct g as [|c g]; cbn [Js.truthy Js.isEmpty negb]; [tauto|].
  destruct (dateValue P (String c g)) as [graceEnd|].
  - rewrite Z.ltb_ge. split.
    + intros H. split; [reflexivity | now right].
    + intros [_ [H|H]]; [discriminate | exact H].
  - split; [intros _; split; [reflexivity | now right] | reflexivity].
Qed.

(** C3, as the code has it.  With the proxy enabled, no global force model,
    dry-run off and the plan gate not in the way (Pro enabled, or the tier
    is Heartbeat or Simple, or it is Moderate with no tools detected),
    [routeRequest] picks the tier's primary when its provider has a key,
    else the fallback when its provider has one, else passes through with
    the original model. *)
Theorem tier_routing_by_keys (request : ChatCompletionRequest)
    (cls : ClassificationResult) (config : ClawRouteConfig)
    (tierConfig : TierModelConfig) :
  cfg_enabled config = true ->
  forcedModel config = None ->
  dryRun config = false ->
  models config (tier cls) = Some tierConfig ->
  (isProEnabled P config = true
   \/ tier cls = HEARTBEAT \/ tier cls = SIMPLE
   \/ (tier cls = MODERATE /\ toolsDetected cls = false)) ->
  let d := routeRequest P request cls config in
  (keyed config (primary tierConfig) = true ->
     routedModel d = primary tierConfig /\ isPassthrough d = false)
  /\ (keyed config (primary tierConfig) = false ->
      keyed config (fallback tierConfig) = true ->
      routedModel d = fallback tierConfig /\ isPassthrough d = false)
  /\ (keyed config (primary tierConfig) = false ->
      keyed config (fallback tierConfig) = false ->
      routedModel d = model request /\ originalModel d = model request
      /\ isPassthrough d = true).
Proof.
  intros He Hf Hd Hm Hgate. cbv zeta. unfold routeRequest, tierRouting.
  rewrite He, Hf, Hd. cbn [negb].
  assert (Hfree : shouldFreeTierUseOriginal P (tier cls) config = false).
  { unfold shouldFreeTierUseOriginal.
    destruct (isProEnabled P config); [reflexivity|].
    destruct Hgate as [H|[H|[H|[H _]]]]; [discriminate| | |];
      now rewrite H. }
  assert (Hmod : shouldFreeModerateUseOriginal P (tier cls)
                   (toolsDetected cls) config = false).
  { unfold shouldFreeModerateUseOriginal.
    destruct (isProEnabled P config); [reflexivity|].
    destruct Hgate as [H|[H|[H|[H Ht]]]]; [discriminate| | |];
      rewrite H; [reflexivity | reflexivity | exact Ht]. }
  rewrite Hfree, Hmod, Hm. unfold keyed.
  destruct (hasApiKey config (getProviderForModel (primary tierConfig)));
    [cbn; intuition discriminate|].
  destruct (hasApiKey config (getProviderForModel (fallback tierConfig)));
    cbn; intuition discriminate.
Qed.

(** C4, as the code has it.  On the Free plan (licence not enabled and no
    unexpired grace period) and with no global force model, [routeRequest]
    passes through with the original model for a Complex or Frontier
    classification and for a Moderate one with tools detected, whatever
    keys there are; and [canEscalate], the plan guard of the streaming
    loop's HTTP-error branch, holds for the Heartbeat tier only. *)
Theorem free_plan_gating (config : ClawRouteConfig) :
  isProEnabled P config = false ->
  (forall request cls,
     forcedModel config = None ->
     tier cls = COMPLEX \/ tier cls = FRONTIER
     \/ (tier cls = MODERATE /\ toolsDetected cls = true) ->
     let d := routeRequest P request cls config in
     routedModel d = model request /\ originalModel d = model request
     /\ isPassthrough d = true)
  /\ (forall t, canEscalate P t config = true <-> t = HEARTBEAT).
Proof.
  intros Hfree. split.
  - intros request cls Hf Hgate. cbv zeta. unfold routeRequest, tierRouting.
    destruct (cfg_enabled config); cbn [negb]; [|now cbn].
    rewrite Hf. unfold shouldFreeTierUseOriginal,
      shouldFreeModerateUseOriginal. rewrite Hfree.
    destruct Hgate as [H|[H|[H Ht]]]; rewrite H; cbn; try rewrite Ht;
      destruct (dryRun config); cbn; auto.
  - intros t. unfold canEscalate. rewrite Hfree. apply tier_eqb_eq.
Qed.


End PlanGating.

(* ----------------------------------------------------------------- *)
(** ** Executor: the retry loops end *)

Section LoopsEnd.

Import Models Config Router Validator Executor.
Local Open Scope Z_scope.

Variable P : Platform.
Variable request : ChatCompletionRequest.
Variable routingDecision : RoutingDecision.
Variable config : ClawRouteConfig.

Abbreviation maxR := (effectiveMaxRetries config).

Lemma retriesRemain_lt (st : St) :
  retriesRemain config st = true -> retryCount st < maxR.
Proof.
  unfold retriesRemain. intros H. apply andb_true_iff in H.
  now apply Z.ltb_lt.
Qed.

Lemma tryEscalate_some (guard : bool) (st st' : St) :
  tryEscalate config guard st = Some st' ->
  guard = true /\ retryCount st' = retryCount st + 1
  /\ log st' = log st /\ response st' = response st.
Proof.
  unfold tryEscalate. destruct guard; [|discriminate].
  destruct (getEscalatedModel (currentTier st) config); [|discriminate].
  intros [= <-]. now cbn.
Qed.

Lemma onThrow_continue (msg : string) (e : Thrown) (st : St) :
  continues (onThrow P routingDecision config msg e st) = true ->
  retryCount st < maxR
  /\ retryCount (after (onThrow P routingDecision config msg e st))
     = retryCount st + 1.
Proof.
  unfold onThrow.
  destruct (tryEscalate config _ st) as [st'|] eqn:Ht.
  - intros _. apply tryEscalate_some in Ht. destruct Ht as (Hg & Hr & _).
    apply andb_true_iff in Hg. split; [now apply retriesRemain_lt|exact Hr].
  - destruct (alwaysFallbackToOriginal (escalation config));
      [|discriminate].
    destruct (makeProviderRequest P _ config _) as [l [e'|u]]; discriminate.
Qed.

Lemma onThrow_response (msg : string) (e : Thrown) (st : St) :
  continues (onThrow P routingDecision config msg e st) = false ->
  response (after (onThrow P routingDecision config msg e st)) <> None.
Proof.
  unfold onThrow.
  destruct (tryEscalate config _ st) as [st'|]; [discriminate|].
  destruct (alwaysFallbackToOriginal (escalation config));
    [destruct (makeProviderRequest P _ config _) as [l [e'|u]]|];
    cbn; discriminate.
Qed.

Lemma onHttpError_continue (msg : string) (guard : bool) (st : St) :
  (guard = true -> retriesRemain config st = true) ->
  continues (onHttpError P routingDecision config msg guard st) = true ->
  retryCount st < maxR
  /\ retryCount (after (onHttpError P routingDecision config msg guard st))
     = retryCount st + 1.
Proof.
  intros Hguard. unfold onHttpError.
  destruct (tryEscalate config guard st) as [st'|] eqn:Ht.
  - intros _. apply tryEscalate_some in Ht. destruct Ht as (Hg & Hr & _).
    split; [apply retriesRemain_lt; auto | exact Hr].
  - destruct (_ && _); [|discriminate].
    destruct (makeProviderRequest P _ config _) as [l [e'|u]];
      [|discriminate].
    intros H. apply onThrow_continue in H. exact H.
Qed.

Lemma onHttpError_response (msg : string) (guard : bool) (st : St) :
  response st <> None ->
  continues (onHttpError P routingDecision config msg guard st) = false ->
  response (after (onHttpError P routingDecision config msg guard st))
  <> None.
Proof.
  intros Hr. unfold onHttpError.
  destruct (tryEscalate config guard st) as [st'|]; [discriminate|].
  destruct (_ && _); [|intros _; exact Hr].
  destruct (makeProviderRequest P _ config _) as [l [e'|u]];
    [apply onThrow_response | cbn; discriminate].
Qed.

Lemma recreate_good (bodyText : string) (r : Response)
    (l : list Dispatch) (rb : option ChatCompletionResponse) (tc : bool)
    (st : St) :
  let st1 := setValidated rb tc (setResponse (afterRead r) l st) in
  (continues (recreate P routingDecision config bodyText r l st1) = true ->
     retryCount st < maxR
     /\ retryCount (after (recreate P routingDecision config bodyText r l
                             st1))
        = retryCount st + 1)
  /\ (continues (recreate P routingDecision config bodyText r l st1)
      = false ->
      response (after (recreate P routingDecision config bodyText r l st1))
      <> None).
Proof.
  cbv zeta. unfold recreate.
  destruct (Http.initOk true (status r)); [split; cbn; discriminate|].
  split; [apply (onThrow_continue _ _
                   (setValidated rb tc (setResponse (afterRead r) l st)))
         | apply onThrow_response].
Qed.

Lemma nonStreamingPass_good :
  goodPass config (nonStreamingPass P request routingDecision config).
Proof.
  intros st. unfold nonStreamingPass.
  destruct (makeProviderRequest P _ config _) as [l [e|u]].
  - split; [apply (onThrow_continue _ _ (setLog l st))
           | apply onThrow_response].
  - destruct (ok (received u)).
    + destruct (readText u) as [bodyText|message].
      * destruct (valid _); cbn [negb]; [apply recreate_good|].
        destruct (_ || _); [split; cbn; discriminate|].
        destruct (tryEscalate config _ _) as [st'|] eqn:Ht;
          [|apply recreate_good].
        apply tryEscalate_some in Ht. destruct Ht as (Hg & Hr & _).
        split; [|discriminate]. intros _.
        apply retriesRemain_lt in Hg. cbn in Hg, Hr. now split.
      * split; [apply (onThrow_continue _ _
                         (setResponse (afterRead (received u)) l st))
               | apply onThrow_response].
    + split.
      * apply (onHttpError_continue _ _ (setResponse (received u) l st)).
        intros H. now apply andb_true_iff in H.
      * apply onHttpError_response. cbn. discriminate.
Qed.

Lemma streamingPass_good :
  goodPass config (streamingPass P routingDecision config).
Proof.
  intros st. unfold streamingPass.
  destruct (makeProviderRequest P _ config _) as [l [e|u]].
  - split; [apply (onThrow_continue _ _ (setLog l st))
           | apply onThrow_response].
  - destruct (ok (received u)); [split; cbn; discriminate|].
    split.
    + apply (onHttpError_continue _ _ (setResponse (received u) l st)).
      intros H. apply andb_true_iff in H. destruct H as [H _].
      now apply andb_true_iff in H.
    + apply onHttpError_response. cbn. discriminate.
Qed.

(** With the fuel [executeRequest] gives it, a loop ends; when it was
    entered at all, it ends with a response in hand. *)
Lemma loop_ends (pass : St -> Step) :
  goodPass config pass ->
  forall fuel st,
    (Z.to_nat (maxR - retryCount st) <= fuel)%nat ->
    exists st', loop config pass fuel st = Some st'
      /\ (retryCount st <= maxR -> response st' <> None).
Proof.
  intros Hgood. induction fuel as [|fuel IH]; intros st Hfuel.
  - cbn [loop]. destruct (maxR <? retryCount st) eqn:Hc.
    + exists st. split; [reflexivity|]. apply Z.ltb_lt in Hc. lia.
    + destruct (Hgood st) as [Hcont Hbreak].
      destruct (pass st) as [st'|st'] eqn:Hp; cbn in *.
      * destruct Hcont as [Hlt _]; [reflexivity|]. lia.
      * exists st'. split; [reflexivity|]. intros _. now apply Hbreak.
  - cbn [loop]. destruct (maxR <? retryCount st) eqn:Hc.
    + exists st. split; [reflexivity|]. apply Z.ltb_lt in Hc. lia.
    + destruct (Hgood st) as [Hcont Hbreak].
      destruct (pass st) as [st'|st'] eqn:Hp; cbn in *.
      * destruct Hcont as [Hlt Hr]; [reflexivity|].
        destruct (IH st') as (st'' & Hl & Hres); [lia|].
        exists st''. split; [exact Hl|]. intros _. apply Hres. lia.
      * exists st'. split; [reflexivity|]. intros _. now apply Hbreak.
Qed.



(** A result is built from the locals the loop leaves. *)
Lemma executeRequest_result (r : ExecutionResult) :
  outcome (executeRequest P request routingDecision config) = Some r ->
  exists st out inTok outTok tc,
    finalState P request routingDecision config = Some st
    /\ dispatches (executeRequest P request routingDecision config) = log st
    /\ r = buildExecutionResult P routingDecision out (currentModel st)
             (escalated st) (escalationChain st) inTok outTok tc.
Proof.
  unfold executeRequest, finalState.
  destruct (stream request).
  - destruct (loop _ _ _ _) as [st|]; cbn [outcome dispatches];
      [|discriminate].
    unfold finishStreaming. destruct (response st) as [resp|];
      [|discriminate].
    destruct (ok resp && Http.hasBody resp).
    + destruct (streamHeaders st) as [hs|]; [|discriminate].
      destruct (Http.initOk true (status resp)); [|discriminate].
      intros [= <-]. repeat eexists.
    + intros [= <-]. repeat eexists.
  - destruct (loop _ _ _ _) as [st|]; cbn [outcome dispatches];
      [|discriminate].
    unfold finishNonStreaming. destruct (response st) as [resp|];
      [|discriminate].
    destruct (match responseBody st with
              | Some {| usage := Some u |} => _
              | _ => _ end) as [i o].
    destruct (routeHeaders st (headers resp)) as [hs|]; [|discriminate].
    destruct (_ && _); [|discriminate].
    intros [= <-]. repeat eexists.
Qed.



End LoopsEnd.



(** C3 fails as stated: on the Free plan a Complex request is passed
    through with its original model although the primary model of the tier
    has a key. *)
Lemma primary_skipped_on_free_plan :
  let config := Examples.freeConfig in
  let request := Examples.askModel "openai/o3" "ping" in
  let cls := Examples.classified COMPLEX false false in
  let d := Router.routeRequest (Examples.always "answer") request cls config in
  cfg_enabled config = true
  /\ globalForceModel (overrides config) = None
  /\ dryRun config = false
  /\ models config (tier cls)
     = Some {| primary := "anthropic/claude-sonnet-4-5";
               fallback := "openai/gpt-4o" |}
  /\ Router.keyed config "anthropic/claude-sonnet-4-5" = true
  /\ routedModel d = "openai/o3"%string
  /\ routedModel d <> "anthropic/claude-sonnet-4-5"%string
  /\ isPassthrough d = true.
Proof. vm_compute. repeat split; discriminate. Qed.

Lemma tier_routing_by_keys_witness :
  let d := Router.routeRequest (Examples.always "answer")
             (Examples.askModel "openai/o3" "ping")
             (Examples.classified COMPLEX false false) Examples.proConfig in
  routedModel d = "anthropic/claude-sonnet-4-5"%string
  /\ isPassthrough d = false.
Proof.
  cbv zeta.
  refine (proj1 (tier_routing_by_keys (Examples.always "answer")
            (Examples.askModel "openai/o3" "ping")
            (Examples.classified COMPLEX false false) Examples.proConfig
            {| primary := "anthropic/claude-sonnet-4-5";
               fallback := "openai/gpt-4o" |}
            eq_refl eq_refl eq_refl eq_refl (or_introl eq_refl)) eq_refl).
Defined.

(** C4 fails as stated, twice.  On the Free plan a global force model
    still wins over the pass-through of a Complex request; and the
    non-streaming loop, which never asks [canEscalate], escalates a Simple
    request after an HTTP 500. *)
Lemma free_plan_not_enforced :
  (let config := Examples.mkConfig false (Some "openai/gpt-4o"%string) false in
   let d := Router.routeRequest (Examples.always "answer")
              (Examples.askModel "openai/o3" "ping")
              (Examples.classified COMPLEX false false) config in
   Router.isProEnabled (Examples.always "answer") config = false
   /\ routedModel d = "openai/gpt-4o"%string
   /\ originalModel d = "openai/o3"%string
   /\ isPassthrough d = false)
  /\ (let P := Examples.firstThen (Examples.replies 500 "overloaded")
                 (Examples.replies 200 "answer") in
      let request := Examples.ask "ping" in
      let d := Router.routeRequest P request
                 (Examples.classified SIMPLE false true)
                 Examples.freeConfig in
      let e := Executor.executeRequest P request d Examples.freeConfig in
      Router.isProEnabled P Examples.freeConfig = false
      /\ rd_tier d = SIMPLE
      /\ map to (dispatches e) = ["deepseek/deepseek-chat"%string;
                                  "google/gemini-2.5-flash"%string]
      /\ option_map er_escalated (outcome e) = Some true).
Proof. vm_compute. repeat split; reflexivity. Qed.

Lemma free_plan_gating_witness :
  let d := Router.routeRequest (Examples.always "answer")
             (Examples.askModel "openai/o3" "ping")
             (Examples.classified COMPLEX false false)
             Examples.freeConfig in
  routedModel d = "openai/o3"%string /\ isPassthrough d = true.
Proof.
  cbv zeta.
  destruct (proj1 (free_plan_gating (Examples.always "answer")
                     Examples.freeConfig eq_refl)
              (Examples.askModel "openai/o3" "ping")
              (Examples.classified COMPLEX false false)
              eq_refl (or_introl eq_refl)) as (Hr & _ & Hp).
  split; [exact Hr | exact Hp].
Defined.

(* ----------------------------------------------------------------- *)
(** ** Validator: the short-response check *)

Section ShortResponse.

Import Validator.
Local Open Scope Z_scope.

Lemma trimEnd_length (s : string) :
  (String.length (Js.trimEnd s) <= String.length s)%nat.
Proof.
  induction s as [|c s IH]; cbn [Js.trimEnd]; [reflexivity|].
  destruct (Js.trimEnd s) as [|c' r].
  - destruct (Js.isWhiteSpace c); cbn; lia.
  - cbn in *. lia.
Qed.

Lemma trimStart_length (s : string) :
  (String.length (Js.trimStart s) <= String.length s)%nat.
Proof.
  induction s as [|c s IH]; cbn [Js.trimStart]; [reflexivity|].
  destruct (Js.isWhiteSpace c); cbn in *; lia.
Qed.

Lemma trim_length (s : string) : Js.length (Js.trim s) <= Js.length s.
Proof.
  unfold Js.length, Js.trim.
  pose proof (trimEnd_length (Js.trimStart s)).
  pose proof (trimStart_length s). lia.
Qed.

Lemma isEmpty_true (s : string) : Js.isEmpty s = true <-> s = EmptyString.
Proof. destruct s; cbn; split; congruence. Qed.

Variable P : Platform.

(** C7, as the code has it.  For a response that reaches the check (status
    ok, no error property, a first choice with a message), a tier other
    than Heartbeat and a message without tool calls: content of fewer than
    15 characters before trimming whose trimmed form is not empty is
    invalid, suspiciously_short_response; content whose trimmed form is
    empty, or is 15 characters or longer, or that is itself 15 characters
    or longer, is valid. *)
Theorem short_response_check (response : Response)
    (b : ChatCompletionResponse) (c : Choice) (rest : list (option Choice))
    (msg : ChatMessage) (request : ChatCompletionRequest) (t : TaskTier) :
  ok response = true ->
  error_truthy b = false ->
  choices b = Some (Some c :: rest) ->
  message c = Some msg ->
  nonEmpty (msg_tool_calls msg) = false ->
  t <> HEARTBEAT ->
  let s := contentString msg in
  let v := validateResponse P response (Some b) request t in
  (Js.length s < 15 -> Js.trim s <> EmptyString ->
     v = invalid suspiciously_short_response false)
  /\ (Js.trim s = EmptyString -> valid v = true)
  /\ (15 <= Js.length (Js.trim s) -> valid v = true)
  /\ (15 <= Js.length s -> valid v = true).
Proof.
  intros Hok He Hc Hm Htc Ht. cbv zeta.
  unfold validateResponse. rewrite Hok, He, Hc, Hm. cbn [negb].
  unfold validateMessage. rewrite Htc.
  assert (Hno : match msg_tool_calls msg, tools request with
                | Some tcs, Some (_ :: _ as defs) =>
                    if false
                    then checkToolCalls P (map fn_name defs) tcs
                    else None
                | _, _ => None
                end = None).
  { destruct (msg_tool_calls msg); [|reflexivity].
    destruct (tools request) as [[|d ds]|]; reflexivity. }
  rewrite Hno. apply tier_eqb_neq in Ht. rewrite Ht. cbn [negb andb].
  assert (Hlong : 15 <= Js.length (contentString msg) ->
                  (Js.length (contentString msg) <? 15) = false)
    by (intros H; now apply Z.ltb_ge).
  repeat split.
  - intros Hlen Hne. apply Z.ltb_lt in Hlen. rewrite Hlen.
    destruct (Js.isEmpty (Js.trim (contentString msg))) eqn:Hemp;
      [apply isEmpty_true in Hemp; contradiction | reflexivity].
  - intros ->. cbn. now rewrite andb_false_r.
  - intros Hlen. pose proof (trim_length (contentString msg)).
    rewrite Hlong by lia. reflexivity.
  - intros Hlen. rewrite Hlong by exact Hlen. reflexivity.
Qed.

End ShortResponse.

(** C7 fails as stated: two letters followed by thirteen spaces trim to a
    length of 2, and the response is accepted. *)
Lemma padded_short_response_is_valid :
  let content := "ok             "%string in
  let body := Examples.assistantSays (ContentString content) None in
  let response := {| status := 200; headers := []; body := Consumed |} in
  Js.length (Js.trim content) = 2%Z
  /\ Validator.validateResponse (Examples.always "answer") response
       (Some body) (Examples.ask "ping") MODERATE
     = {| valid := true; v_reason := reason_ok; hadToolCalls := false |}.
Proof. vm_compute. split; reflexivity. Qed.

Lemma short_response_check_witness :
  Validator.validateResponse (Examples.always "answer")
    {| status := 200; headers := []; body := Consumed |}
    (Some (Examples.assistantSays (ContentString "Hi") None))
    (Examples.ask "ping") MODERATE
  = Validator.invalid suspiciously_short_response false.
Proof.
  refine (proj1 (short_response_check (Examples.always "answer")
            {| status := 200; headers := []; body := Consumed |}
            (Examples.assistantSays (ContentString "Hi") None)
            _ [] _ (Examples.ask "ping") MODERATE
            eq_refl eq_refl eq_refl eq_refl eq_refl _) _ _).
  all: cbn; try discriminate; reflexivity.
Defined.

(* ----------------------------------------------------------------- *)
(** ** Catalog: the provider of a model id *)

Section Provider.

Import Models.
Local Open Scope string_scope.

Lemma knownPrefix_names (s : string) (p : ProviderType) :
  knownPrefix s = Some p <-> s = providerName p.
Proof.
  unfold knownPrefix. split.
  - repeat match goal with
           | |- context [String.eqb s ?x] => destruct (String.eqb_spec s x)
           end;
      intros H; try discriminate H; injection H as <-; subst; reflexivity.
  - intros ->. now destruct p.
Qed.

(** C9, as the code has it.  A model id with a slash whose lower-cased
    prefix names a known provider has that provider.  Any other id is first
    looked up in the catalog (exact, suffix, then case-insensitive
    substring match) and has the provider of the entry found; only when
    nothing is found do the name rules apply, in this order: claude is
    anthropic, gpt, o3 or o1 is openai, gemini is google, deepseek is
    deepseek, and anything else is openai. *)
Theorem provider_derivation (modelId : string) :
  (forall p, Js.includes "/" modelId = true ->
             prefixOf modelId = providerName p ->
             getProviderForModel modelId = p)
  /\ (Js.includes "/" modelId = false
      \/ (forall p, prefixOf modelId <> providerName p) ->
      (forall entry, getModelEntry modelId = Some entry ->
                     getProviderForModel modelId = provider entry)
      /\ (getModelEntry modelId = None ->
          let lower := Js.toLowerCase modelId in
          let has sub := Js.includes sub lower in
          (has "claude" = true -> getProviderForModel modelId = anthropic)
          /\ (has "claude" = false ->
              has "gpt" = true \/ has "o3" = true \/ has "o1" = true ->
              getProviderForModel modelId = openai)
          /\ (has "claude" = false -> has "gpt" = false ->
              has "o3" = false -> has "o1" = false ->
              (has "gemini" = true -> getProviderForModel modelId = google)
              /\ (has "gemini" = false -> has "deepseek" = true ->
                  getProviderForModel modelId = deepseek)
              /\ (has "gemini" = false -> has "deepseek" = false ->
                  getProviderForModel modelId = openai)))).
Proof.
  split.
  - intros p Hs Hp. apply knownPrefix_names in Hp.
    unfold getProviderForModel. now rewrite Hs, Hp.
  - intros Hother.
    assert (Hget : getProviderForModel modelId = fromRegistryOrName modelId).
    { unfold getProviderForModel. destruct Hother as [->|Hno]; [reflexivity|].
      destruct (Js.includes "/" modelId); [|reflexivity].
      destruct (knownPrefix (prefixOf modelId)) as [p|] eqn:Hk;
        [|reflexivity].
      apply knownPrefix_names in Hk. now destruct (Hno p). }
    rewrite Hget. unfold fromRegistryOrName. split.
    + now intros entry ->.
    + intros ->. cbv zeta. unfold nameHeuristic.
      split; [now intros ->|].
      split.
      * intros -> [ -> | [ -> | -> ] ]; [reflexivity| |];
          rewrite ?orb_true_r; reflexivity.
      * intros -> -> -> ->. cbn [orb].
        split; [now intros ->|].
        split; intros -> ->; reflexivity.
Qed.

End Provider.

(** C9 fails as stated: "mini" has no slash and none of the listed
    substrings, yet its provider is google, because the catalog lookup
    finds it inside "google/gemini-2.5-flash-lite". *)
Lemma provider_of_mini_is_google :
  let modelId := "mini"%string in
  Js.includes "/" modelId = false
  /\ forallb (fun sub => negb (Js.includes sub (Js.toLowerCase modelId)))
       ["claude"; "gpt"; "o1"; "o3"; "gemini"; "deepseek"]%string = true
  /\ option_map id (Models.getModelEntry modelId)
     = Some "google/gemini-2.5-flash-lite"%string
  /\ Models.getProviderForModel modelId = google
  /\ Models.getProviderForModel modelId <> openai.
Proof. vm_compute. repeat split; discriminate. Qed.

Lemma provider_derivation_witness :
  Models.getProviderForModel "OpenRouter/some-model" = openrouter
  /\ Models.getProviderForModel "my-claude-instant" = anthropic.
Proof.
  split.
  - exact (proj1 (provider_derivation "OpenRouter/some-model") openrouter
             eq_refl eq_refl).
  - refine (proj1 (proj2 (proj2 (provider_derivation "my-claude-instant")
              (or_introl eq_refl)) eq_refl) eq_refl).
Defined.

(* ----------------------------------------------------------------- *)
(** ** The matcher decides the language of a pattern *)

Section Matcher.

Import Re.
Local Open Scope string_scope.

Lemma append_empty_r (s : string) : s ++ "" = s.
Proof. induction s as [|c s IH]; cbn; congruence. Qed.

Lemma append_assoc (a b c : string) : (a ++ b) ++ c = a ++ (b ++ c).
Proof. induction a as [|x a IH]; cbn; congruence. Qed.

Lemma append_is_empty (a b : string) : a ++ b = "" -> a = "" /\ b = "".
Proof. destruct a; cbn; [auto | discriminate]. Qed.

Lemma lang_cat_inv (r1 r2 : re) (s : string) :
  lang (Cat r1 r2) s ->
  exists s1 s2, s = s1 ++ s2 /\ lang r1 s1 /\ lang r2 s2.
Proof. intros H. inversion H; subst. eauto. Qed.

Lemma nullable_lang (r : re) : nullable r = true <-> lang r "".
Proof.
  induction r as [| |p|r1 IH1 r2 IH2|r1 IH1 r2 IH2|r IH]; cbn.
  - split; [discriminate | intros H; inversion H].
  - split; [constructor | reflexivity].
  - split; [discriminate | intros H; inversion H].
  - rewrite andb_true_iff, IH1, IH2. split.
    + intros [H1 H2]. exact (lang_cat H1 H2).
    + intros H. destruct (lang_cat_inv _ _ _ H) as (s1 & s2 & Hs & H1 & H2).
      symmetry in Hs. apply append_is_empty in Hs.
      destruct Hs as [-> ->]. now split.
  - rewrite orb_true_iff, IH1, IH2. split.
    + intros [H|H]; [now apply lang_alt_l | now apply lang_alt_r].
    + intros H. inversion H; subst; auto.
  - split; [constructor | reflexivity].
Qed.

Lemma lang_void (s : string) : ~ lang Void s.
Proof. intros H. inversion H. Qed.

Lemma lang_eps_inv (s : string) : lang Eps s -> s = "".
Proof. intros H. now inversion H. Qed.

Lemma mkAlt_lang (r1 r2 : re) (s : string) :
  lang (mkAlt r1 r2) s <-> lang r1 s \/ lang r2 s.
Proof.
  assert (Halt : lang (Alt r1 r2) s <-> lang r1 s \/ lang r2 s).
  { split.
    - intros H. inversion H; subst; auto.
    - intros [H|H]; [now apply lang_alt_l | now apply lang_alt_r]. }
  destruct r1; try (destruct r2; cbn [mkAlt]; try exact Halt;
    split; [auto | intros [H|H]; [exact H | now apply lang_void in H]]).
  cbn [mkAlt]. split; [auto | intros [H|H]; [now apply lang_void in H|exact H]].
Qed.

Lemma mkCat_lang (r1 r2 : re) (s : string) :
  lang (mkCat r1 r2) s <-> lang (Cat r1 r2) s.
Proof.
  assert (Hvoid_r : forall r, lang (Cat r Void) s -> False).
  { intros r H. inversion H; subst.
    match goal with H' : lang Void _ |- _ => now apply lang_void in H' end. }
  destruct r1; cbn [mkCat].
  - split; [intros H; now apply lang_void in H|].
    intros H. inversion H; subst.
    match goal with H' : lang Void _ |- _ => now apply lang_void in H' end.
  - destruct r2;
      try (split;
           [ intros H; exact (lang_cat lang_eps H)
           | intros H; destruct (lang_cat_inv _ _ _ H) as (s1 & s2 & -> & H1 & H2);
             apply lang_eps_inv in H1; subst; exact H2 ]).
  - destruct r2; try reflexivity.
    split; [intros H; now apply lang_void in H | intros H; now apply Hvoid_r in H].
  - destruct r2; try reflexivity.
    split; [intros H; now apply lang_void in H | intros H; now apply Hvoid_r in H].
  - destruct r2; try reflexivity.
    split; [intros H; now apply lang_void in H | intros H; now apply Hvoid_r in H].
  - destruct r2; try reflexivity.
    split; [intros H; now apply lang_void in H | intros H; now apply Hvoid_r in H].
Qed.

(** A non-empty word of a concatenation starts in the first factor or, when
    that accepts the empty word, in the second. *)
Lemma lang_cat_cons (r1 r2 : re) (c : ascii) (s : string) :
  lang (Cat r1 r2) (String c s) <->
  (exists s1 s2, s = s1 ++ s2 /\ lang r1 (String c s1) /\ lang r2 s2)
  \/ (lang r1 "" /\ lang r2 (String c s)).
Proof.
  split.
  - intros H. destruct (lang_cat_inv _ _ _ H) as (s1 & s2 & Hs & H1 & H2).
    destruct s1 as [|c1 s1]; cbn in Hs.
    + subst. now right.
    + injection Hs as -> ->. left. now exists s1, s2.
  - intros [(s1 & s2 & -> & H1 & H2)|[H1 H2]].
    + exact (lang_cat H1 H2).
    + exact (lang_cat H1 H2).
Qed.

(** A non-empty word of a star starts with a non-empty word of its body. *)
Lemma lang_star_cons (r : re) (c : ascii) (s : string) :
  lang (Star r) (String c s) <->
  exists s1 s2, s = s1 ++ s2 /\ lang r (String c s1) /\ lang (Star r) s2.
Proof.
  split.
  - intros H. remember (Star r) as r' eqn:Hr.
    remember (String c s) as w eqn:Hw. revert c s Hw.
    induction H as [| | | | | |r0 s1 s2 H1 _ H2 IH2]; try discriminate.
    injection Hr as ->. intros c s Hw.
    destruct s1 as [|c1 s1]; cbn in Hw.
    + now apply IH2.
    + injection Hw as <- <-. now exists s1, s2.
  - intros (s1 & s2 & -> & H1 & H2). exact (lang_star_app H1 H2).
Qed.

Lemma deriv_lang (r : re) (c : ascii) (s : string) :
  lang (deriv c r) s <-> lang r (String c s).
Proof.
  revert s.
  induction r as [| |p|r1 IH1 r2 IH2|r1 IH1 r2 IH2|r IH]; intros s;
    cbn [deriv].
  - split; intros H; inversion H.
  - split; intros H; inversion H.
  - destruct (p c) eqn:Hp.
    + split.
      * intros H. apply lang_eps_inv in H. subst. now constructor.
      * intros H. inversion H; subst. constructor.
    + split; [intros H; inversion H|].
      intros H. inversion H; subst. congruence.
  - rewrite mkAlt_lang, mkCat_lang, lang_cat_cons. split.
    + intros [H|H].
      * destruct (lang_cat_inv _ _ _ H) as (s1 & s2 & -> & H1 & H2).
        left. exists s1, s2. now rewrite <- IH1.
      * destruct (nullable r1) eqn:Hn; [|now apply lang_void in H].
        right. now rewrite <- nullable_lang, <- IH2.
    + intros [(s1 & s2 & -> & H1 & H2)|[H1 H2]].
      * left. apply IH1 in H1. exact (lang_cat H1 H2).
      * right. apply nullable_lang in H1. rewrite H1. now apply IH2.
  - rewrite mkAlt_lang, IH1, IH2. split.
    + intros [H|H]; [now apply lang_alt_l | now apply lang_alt_r].
    + intros H. inversion H; subst; auto.
  - rewrite mkCat_lang, lang_star_cons. split.
    + intros H. destruct (lang_cat_inv _ _ _ H) as (s1 & s2 & -> & H1 & H2).
      exists s1, s2. now rewrite <- IH.
    + intros (s1 & s2 & -> & H1 & H2). apply IH in H1.
      exact (lang_cat H1 H2).
Qed.

Theorem matches_lang (r : re) (s : string) :
  matches r s = true <-> lang r s.
Proof.
  revert r. induction s as [|c s IH]; intros r; cbn [matches].
  - apply nullable_lang.
  - rewrite IH. apply deriv_lang.
Qed.

End Matcher.

(* ----------------------------------------------------------------- *)
(** ** Classifier: the short-question rule *)

Section SimpleQuestion.

Import Re Classifier.
Local Open Scope string_scope.

Lemma every_ext (p q : ascii -> bool) (s : string) :
  (forall c, p c = q c) -> Js.every p s = Js.every q s.
Proof.
  intros H. induction s as [|c s IH]; cbn; [reflexivity|].
  now rewrite H, IH.
Qed.

Lemma lang_cls_inv (p : ascii -> bool) (s : string) :
  lang (Cls p) s -> exists c, s = String c "" /\ p c = true.
Proof. intros H. inversion H; subst. eauto. Qed.

(** [p{0,n}] for a character class: at most [n] code units, all in the
    class. *)
Lemma upTo_cls_lang (n : nat) (p : ascii -> bool) (s : string) :
  lang (upTo n (Cls p)) s <->
  (String.length s <= n)%nat /\ Js.every p s = true.
Proof.
  revert s. induction n as [|n IH]; intros s; cbn [upTo].
  - split.
    + intros H. apply lang_eps_inv in H. subst. cbn. auto.
    + intros [Hl _]. destruct s; [constructor | cbn in Hl; lia].
  - split.
    + intros H. inversion H as [| | |? ? ? H1|? ? ? H1| |]; subst.
      * apply lang_eps_inv in H1. subst. cbn. split; [lia | reflexivity].
      * destruct (lang_cat_inv _ _ _ H1) as (s1 & s2 & -> & Hc & Hrest).
        apply lang_cls_inv in Hc. destruct Hc as (c & -> & Hp).
        apply IH in Hrest. destruct Hrest as [Hl He].
        cbn. rewrite Hp, He. split; [lia | reflexivity].
    + intros [Hl He]. destruct s as [|c s].
      * apply lang_alt_l. constructor.
      * cbn in Hl, He. apply andb_true_iff in He. destruct He as [Hp He].
        apply lang_alt_r.
        change (String c s) with (String c "" ++ s).
        apply lang_cat; [now constructor|].
        apply IH. split; [lia | exact He].
Qed.

(** What SIMPLE_QUESTION_PATTERN accepts: up to 100 code units that are not
    question marks, then one question mark. *)
Lemma simple_question_pattern (s : string) :
  test_anchored SIMPLE_QUESTION_PATTERN s = true <->
  exists pre, s = pre ++ "?" /\ (String.length pre <= 100)%nat
              /\ Js.every notQuestionMark pre = true.
Proof.
  unfold test_anchored, SIMPLE_QUESTION_PATTERN. rewrite matches_lang.
  assert (Hcls : forall pre, Js.every notQuestionMark pre
                 = Js.every (fun x => negb (existsb (Ascii.eqb x)
                     (list_ascii_of_string "?"))) pre).
  { intros pre. apply every_ext. intros c. unfold notQuestionMark. cbn.
    now rewrite orb_false_r. }
  split.
  - intros H. destruct (lang_cat_inv _ _ _ H) as (s1 & s2 & -> & H1 & H2).
    apply upTo_cls_lang in H1. destruct H1 as [Hl He].
    apply lang_cls_inv in H2. destruct H2 as (c & -> & Hc).
    apply Ascii.eqb_eq in Hc. subst c.
    exists s1. rewrite Hcls. auto.
  - intros (pre & -> & Hl & He). apply lang_cat.
    + apply upTo_cls_lang. rewrite <- Hcls. auto.
    + constructor. apply Ascii.eqb_refl.
Qed.

Lemma Qltb_false (a b : Q) : (b <= a)%Q -> Qltb a b = false.
Proof.
  intros H. unfold Qltb. apply negb_false_iff. now apply Qle_bool_iff.
Qed.

(** C8, as the code has it.  Take a request whose last user message,
    trimmed, is shorter than 80 characters and consists of characters
    other than the question mark followed by one question mark (the
    pattern [^?]{0,100}\? anchored at both ends), with at most 2 messages
    and no tools, that no earlier rule captures (model-name hint,
    heartbeat, frontier, complex, acknowledgment).  The classifier assigns
    Simple with confidence 0.8, provided conservative mode does not raise
    it afterwards (it is off, or minConfidence is at most 0.8). *)
Theorem short_question_is_simple (request : ChatCompletionRequest)
    (config : ClawRouteConfig) (pre : string) :
  let msgs := messages request in
  let lastMessage := Utils.getLastUserMessage msgs in
  let trimmed := Js.trim lastMessage in
  let messageCount := List.length msgs in
  let estimatedTokens := Utils.estimateMessagesTokens msgs in
  trimmed = pre ++ "?" ->
  Js.every notQuestionMark pre = true ->
  (Js.length trimmed < 80)%Z ->
  (messageCount <= 2)%nat ->
  hasToolsOf request = false ->
  modelNameHint request initial = initial ->
  chk_match (isHeartbeat lastMessage messageCount false) = false ->
  chk_match (isFrontier request lastMessage estimatedTokens) = false ->
  chk_match (isComplex request lastMessage messageCount estimatedTokens)
  = false ->
  anyPattern ACKNOWLEDGMENT_PATTERNS trimmed = false ->
  conservativeMode (classification config) = false
  \/ (minConfidence (classification config) <= 8#10)%Q ->
  tier (classifyRequest request config) = SIMPLE
  /\ confidence (classifyRequest request config) = (8#10)%Q.
Proof.
  cbv zeta. intros Htrim Hpre Hlen Hcount Htools Hhint Hhb Hfr Hcx Hack Hcons.
  assert (Hsimple : isSimple (Utils.getLastUserMessage (messages request))
                      (List.length (messages request)) false
                    = hit (8#10)%Q []).
  { unfold isSimple. rewrite Hack.
    apply Z.ltb_lt in Hlen. rewrite Hlen. cbn [negb andb].
    assert (Hq : test_anchored SIMPLE_QUESTION_PATTERN
                   (Js.trim (Utils.getLastUserMessage (messages request)))
                 = true).
    { apply simple_question_pattern. exists pre.
      split; [exact Htrim|]. split; [|exact Hpre].
      apply Z.ltb_lt in Hlen. unfold Js.length in Hlen.
      rewrite Htrim in Hlen.
      assert (Happ : forall a b, String.length (a ++ b)
                     = (String.length a + String.length b)%nat).
      { intros a b. induction a as [|x a IH]; cbn; congruence. }
      rewrite Happ in Hlen. cbn in Hlen. lia. }
    rewrite Hq. apply Nat.leb_le in Hcount. now rewrite Hcount. }
  assert (Hrules : rules request
                   = {| st_tier := SIMPLE; st_confidence := (8#10)%Q;
                        st_reason := ReasonSimple;
                        st_signals := ["simple_pattern"] |}).
  { unfold rules. rewrite Hhint, Htools.
    unfold heartbeatRule. cbn [st_tier initial tier_eqb TIER_ORDER Nat.eqb].
    rewrite Hhb.
    unfold frontierRule. cbn [st_tier initial tier_eqb TIER_ORDER Nat.eqb orb].
    rewrite Hfr.
    unfold complexRule. cbn [st_tier initial tier_eqb TIER_ORDER Nat.eqb].
    rewrite Hcx.
    unfold simpleRule. cbn [st_tier initial tier_eqb TIER_ORDER Nat.eqb].
    rewrite Hsimple. reflexivity. }
  unfold classifyRequest. rewrite Hrules, Htools.
  unfold toolAwareRule. rewrite andb_false_r.
  unfold conservativeRule.
  destruct (conservativeMode (classification config)) eqn:Hmode.
  - destruct Hcons as [Hoff|Hmin]; [discriminate|].
    unfold lowConfidenceStep. cbn [st_confidence].
    rewrite (Qltb_false _ _ Hmin).
    unfold veryLowConfidenceStep. cbn. split; reflexivity.
  - split; reflexivity.
Qed.

End SimpleQuestion.

(** C8 fails as stated: a short question with a second question mark
    inside is captured by no earlier rule and still is not Simple. *)
Lemma two_question_marks_stay_moderate :
  let request :=
    Examples.ask "Is this right? Or is that other thing right?" in
  let msgs := messages request in
  let lastMessage := Utils.getLastUserMessage msgs in
  let trimmed := Js.trim lastMessage in
  let tokens := Utils.estimateMessagesTokens msgs in
  (Js.length trimmed <? 80)%Z = true
  /\ Js.endsWith "?" trimmed = true
  /\ List.length msgs = 1%nat
  /\ tools request = None
  /\ Classifier.modelNameHint request Classifier.initial = Classifier.initial
  /\ Classifier.chk_match (Classifier.isHeartbeat lastMessage 1 false) = false
  /\ Classifier.chk_match (Classifier.isFrontier request lastMessage tokens)
     = false
  /\ Classifier.chk_match
       (Classifier.isComplex request lastMessage 1 tokens) = false
  /\ Classifier.anyPattern Classifier.ACKNOWLEDGMENT_PATTERNS trimmed = false
  /\ tier (Classifier.classifyRequest request Examples.proConfig) = MODERATE
  /\ confidence (Classifier.classifyRequest request Examples.proConfig)
     = (85#100)%Q.
Proof. vm_compute. repeat split; reflexivity. Qed.

Lemma short_question_is_simple_witness :
  let request :=
    Examples.ask "Is this the right way to go, or is that other thing right?" in
  tier (Classifier.classifyRequest request Examples.proConfig) = SIMPLE
  /\ confidence (Classifier.classifyRequest request Examples.proConfig)
     = (8#10)%Q.
Proof.
  cbv zeta.
  refine (short_question_is_simple
            (Examples.ask
               "Is this the right way to go, or is that other thing right?")
            Examples.proConfig
            "Is this the right way to go, or is that other thing right"
            _ _ _ _ _ _ _ _ _ _ _).
  all: try (vm_compute; reflexivity).
  - cbn. lia.
  - right. vm_compute. discriminate.
Defined.

(* ----------------------------------------------------------------- *)
(** ** Executor: a tool-call response that fails validation *)

(** C1, at an input where the code does not do what the claim says.  The
    request declares one tool and is not streamed; the upstream answers
    200 with a body whose first choice calls another tool.  The validator
    reports unknown_tool_name with hadToolCalls = true, the loop is left
    with the response whose body was read, and building the final
    response from that body throws: there is one upstream call and no
    result, so the response is not returned. *)
Theorem rejected_tool_call_is_not_returned :
  let P := Examples.always "call of an undeclared tool" in
  let request := Examples.askWithTool "do the action" in
  let config := Examples.proConfig in
  let d := Router.routeRequest P request
             (Classifier.classifyRequest request config) config in
  let e := Executor.executeRequest P request d config in
  stream request = false
  /\ option_map Executor.hasToolCalls
       (jsonBody P "call of an undeclared tool") = Some true
  /\ option_map
       (fun b => Validator.validateResponse P
                   (Examples.okResponse "call of an undeclared tool")
                   (Some b) request (rd_tier d))
       (jsonBody P "call of an undeclared tool")
     = Some {| valid := false;
               v_reason := unknown_tool_name "other_action";
               hadToolCalls := true |}
  /\ map answer (dispatches e)
     = [Examples.replies 200 "call of an undeclared tool"]
  /\ option_map (fun st => option_map body (Executor.response st))
       (Executor.finalState P request d config)
     = Some (Some Consumed)
  /\ outcome e = None.
Proof. vm_compute. repeat split; reflexivity. Qed.

(** The same request answered with a call of the declared tool: the
    response passes validation, is recreated from the text that was read
    and is returned with that text as its body. *)
Lemma accepted_tool_call_is_returned :
  let P := Examples.always "tool call" in
  let request := Examples.askWithTool "do the action" in
  let config := Examples.proConfig in
  let d := Router.routeRequest P request
             (Classifier.classifyRequest request config) config in
  let e := Executor.executeRequest P request d config in
  List.length (dispatches e) = 1%nat
  /\ option_map (fun r => (body (er_response r), er_hadToolCalls r))
       (outcome e)
     = Some (Unread "tool call", true).
Proof. vm_compute. split; reflexivity. Qed.

(** An answer 204 has no body: its text is empty and does not parse, and
    once the retries are spent the response cannot be recreated from the
    text, so that the [catch] block calls the original model. *)
Lemma no_content_is_asked_again :
  let P := Examples.noContent in
  let e := Executor.executeRequest P (Examples.ask "ping")
             (Examples.pingDecision P) Examples.proConfig in
  map to (dispatches e)
  = ["google/gemini-2.5-flash-lite"%string;
     "deepseek/deepseek-chat"%string;
     "google/gemini-2.5-flash"%string;
     "anthropic/claude-sonnet-4-5"%string]
  /\ option_map (fun r => (status (er_response r), body (er_response r)))
       (outcome e)
     = Some (204%Z, NoBody).
Proof. vm_compute. split; reflexivity. Qed.

(** A body that carries an error property besides its tool calls is an
    api_error_response without tool calls to the validator, and a request
    that is safe to retry is escalated. *)
Lemma error_body_with_tool_calls_is_retried :
  let P := Examples.firstThen
             (Examples.replies 200 "error and tool call")
             (Examples.replies 200 "answer") in
  let request := Examples.ask "ping" in
  let e := Executor.executeRequest P request (Examples.pingDecision P)
             Examples.proConfig in
  stream request = false
  /\ jsonBody P "error and tool call" = Some Examples.errorWithToolCall
  /\ Executor.hasToolCalls Examples.errorWithToolCall = true
  /\ map to (dispatches e)
     = ["google/gemini-2.5-flash-lite"%string;
        "deepseek/deepseek-chat"%string]
  /\ option_map (fun r => body (er_response r)) (outcome e)
     = Some (Unread "answer").
Proof. vm_compute. repeat split; reflexivity. Qed.

Lemma escalation_first_higher_witness :
  match Router.getEscalatedModel HEARTBEAT Examples.proConfig with
  | Some (m, t') =>
      (TIER_ORDER HEARTBEAT < TIER_ORDER t')%nat
      /\ Router.tierChoice Examples.proConfig t' = Some m
  | None => False
  end.
Proof.
  pose proof (escalation_first_higher Examples.proConfig HEARTBEAT) as H.
  destruct (Router.getEscalatedModel HEARTBEAT Examples.proConfig)
    as [[m t']|] eqn:E.
  - split; [exact (proj1 H) | exact (proj1 (proj2 H))].
  - vm_compute in E. discriminate E.
Defined.

(* ----------------------------------------------------------------- *)
(** ** Utilities *)

Section UtilsFacts.

Import Utils.
Local Open Scope Z_scope.

Lemma length_nonneg (s : string) : 0 <= Js.length s.
Proof. unfold Js.length. lia. Qed.

Lemma length_empty (s : string) : Js.length s = 0 <-> s = EmptyString.
Proof.
  unfold Js.length. destruct s; cbn [String.length]; split;
    intros H; try reflexivity; try discriminate; lia.
Qed.

(** [estimateTokens] is the ceiling of a quarter of the length: the least
    number of four-character tokens that cover the text. *)
Theorem estimateTokens_ceiling (text : string) :
  Js.length text <= 4 * estimateTokens text
  /\ 4 * estimateTokens text < Js.length text + 4.
Proof.
  unfold estimateTokens. destruct text as [|c t]; [cbn; lia|].
  cbn [Js.isEmpty].
  pose proof (Z.div_mod (Js.length (String c t) + 3) 4 ltac:(lia)) as Hd.
  pose proof (Z.mod_pos_bound (Js.length (String c t) + 3) 4 ltac:(lia)).
  lia.
Qed.

Lemma estimateTokens_nonneg (text : string) : 0 <= estimateTokens text.
Proof.
  pose proof (estimateTokens_ceiling text). pose proof (length_nonneg text).
  lia.
Qed.

Lemma fold_sum_shift {A} (f : A -> Z) (l : list A) (a : Z) :
  fold_left (fun acc x => acc + f x) l a
  = a + fold_left (fun acc x => acc + f x) l 0.
Proof.
  revert a. induction l as [|x l IH]; intros a; cbn [fold_left]; [lia|].
  rewrite (IH (a + f x)), (IH (0 + f x)). lia.
Qed.

Lemma fold_sum_nonneg {A} (f : A -> Z) (l : list A) :
  (forall x, 0 <= f x) -> 0 <= fold_left (fun acc x => acc + f x) l 0.
Proof.
  intros Hf. induction l as [|x l IH]; cbn [fold_left]; [lia|].
  rewrite fold_sum_shift. specialize (Hf x). lia.
Qed.

Lemma toolCallTokens_nonneg (tc : ToolCall) : 0 <= toolCallTokens tc.
Proof.
  unfold toolCallTokens.
  pose proof (estimateTokens_nonneg (tc_name tc)).
  pose proof (estimateTokens_nonneg (tc_arguments tc)). lia.
Qed.

Lemma messageTokens_envelope (m : ChatMessage) : 4 <= messageTokens m.
Proof.
  unfold messageTokens.
  assert (0 <= match content m with
               | ContentString s => estimateTokens s
               | _ => 0
               end)
    by (destruct (content m); try lia; apply estimateTokens_nonneg).
  assert (0 <= match msg_tool_calls m with
               | Some tcs =>
                   fold_left (fun acc tc => acc + toolCallTokens tc) tcs 0
               | None => 0
               end)
    by (destruct (msg_tool_calls m); try lia;
        apply fold_sum_nonneg, toolCallTokens_nonneg).
  lia.
Qed.

Lemma estimateMessagesTokens_cons (m : ChatMessage) (l : list ChatMessage) :
  estimateMessagesTokens (m :: l)
  = messageTokens m + estimateMessagesTokens l.
Proof.
  unfold estimateMessagesTokens. cbn [fold_left].
  now rewrite fold_sum_shift.
Qed.

(** X1.  The estimate of a conversation is the sum of the estimates of its
    parts, and counts at least the four-token envelope of every message. *)
Theorem estimateMessagesTokens_additive (a b : list ChatMessage) :
  estimateMessagesTokens (a ++ b)
  = estimateMessagesTokens a + estimateMessagesTokens b
  /\ 4 * Z.of_nat (List.length a) <= estimateMessagesTokens a.
Proof.
  split.
  - induction a as [|m a IH]; [reflexivity|].
    cbn [app]. rewrite !estimateMessagesTokens_cons, IH. lia.
  - induction a as [|m a IH]; [cbn; lia|].
    rewrite estimateMessagesTokens_cons. cbn [List.length].
    pose proof (messageTokens_envelope m). lia.
Qed.

Lemma firstUserString_skip (l1 l2 : list ChatMessage) :
  (forall m, In m l1 -> userText m = None) ->
  firstUserString (l1 ++ l2) = firstUserString l2.
Proof.
  induction l1 as [|m l1 IH]; intros H; [reflexivity|].
  cbn [app firstUserString].
  assert (Hm : userText m = None) by (apply H; now left).
  unfold userText in Hm.
  destruct (role m), (content m); try discriminate;
    apply IH; intros m' Hin; apply H; now right.
Qed.

(** X2.  [getLastUserMessage] returns the text of the last user message that
    has string content, whatever follows it, and the empty string when there
    is none. *)
Theorem getLastUserMessage_last (pre post : list ChatMessage)
    (m : ChatMessage) (s : string) :
  userText m = Some s ->
  (forall m', In m' post -> userText m' = None) ->
  getLastUserMessage (pre ++ m :: post) = s
  /\ getLastUserMessage post = EmptyString.
Proof.
  intros Hm Hpost. unfold getLastUserMessage.
  assert (Hrev : forall m', In m' (rev post) -> userText m' = None)
    by (intros m' Hin; apply Hpost; now apply in_rev).
  split.
  - rewrite rev_app_distr. cbn [rev]. rewrite <- !app_assoc.
    rewrite (firstUserString_skip _ _ Hrev). cbn [app firstUserString].
    unfold userText in Hm.
    destruct (role m), (content m); try discriminate.
    now injection Hm.
  - rewrite <- (app_nil_r (rev post)).
    now rewrite (firstUserString_skip _ _ Hrev).
Qed.

End UtilsFacts.

Section StringFacts.

Local Open Scope string_scope.

Lemma length_app (a b : string) :
  String.length (a ++ b) = (String.length a + String.length b)%nat.
Proof. induction a as [|x a IH]; cbn; congruence. Qed.

Lemma length_take (n : nat) (s : string) :
  String.length (Js.take n s) = Nat.min n (String.length s).
Proof.
  revert s. induction n as [|n IH]; intros s; [reflexivity|].
  destruct s as [|c t]; cbn; [reflexivity|]. now rewrite IH.
Qed.

Lemma length_drop (n : nat) (s : string) :
  String.length (Js.drop n s) = (String.length s - n)%nat.
Proof.
  revert s. induction n as [|n IH]; intros s; cbn [Js.drop]; [lia|].
  destruct s as [|c t]; cbn; [reflexivity|]. now rewrite IH.
Qed.

Lemma take_drop (n : nat) (s : string) : Js.take n s ++ Js.drop n s = s.
Proof.
  revert s. induction n as [|n IH]; intros s; [reflexivity|].
  destruct s as [|c t]; cbn; [reflexivity|]. now rewrite IH.
Qed.

Lemma split_not_nil (c : ascii) (s : string) : Js.split c s <> [].
Proof.
  induction s as [|x t IH]; cbn [Js.split]; [discriminate|].
  destruct (Ascii.eqb x c); [discriminate|].
  destruct (Js.split c t); [contradiction | discriminate].
Qed.

(** Splitting at a character and joining with it gives the string back. *)
Lemma join_split (c : ascii) (s : string) :
  Js.join (String c "") (Js.split c s) = s.
Proof.
  induction s as [|x t IH]; [reflexivity|]. cbn [Js.split].
  pose proof (split_not_nil c t) as Hne.
  destruct (Ascii.eqb_spec x c) as [->|Hx].
  - destruct (Js.split c t) as [|p ps]; [contradiction|].
    change (Js.join (String c "") ("" :: p :: ps))
      with ("" ++ String c "" ++ Js.join (String c "") (p :: ps)).
    now rewrite IH.
  - destruct (Js.split c t) as [|p ps]; [contradiction|].
    destruct ps as [|q ps].
    + cbn [Js.join] in *. now rewrite IH.
    + change (Js.join (String c "") (String x p :: q :: ps))
        with (String x (p ++ String c "" ++ Js.join (String c "") (q :: ps))).
      change (Js.join (String c "") (p :: q :: ps))
        with (p ++ String c "" ++ Js.join (String c "") (q :: ps)) in IH.
      now rewrite IH.
Qed.

(** The string has a character equal to [c]. *)
Lemma includes_char (c : ascii) (s : string) :
  Js.includes (String c "") s
  = negb (Js.every (fun x => negb (Ascii.eqb x c)) s).
Proof.
  induction s as [|x t IH]; [reflexivity|].
  cbn [Js.includes Js.every prefix].
  destruct (Ascii.ascii_dec c x) as [->|Hne].
  - rewrite Ascii.eqb_refl. now destruct t.
  - assert (Ascii.eqb x c = false) as ->
      by (apply Ascii.eqb_neq; congruence).
    cbn [negb andb]. exact IH.
Qed.

(** The first piece of a split has no separator in it. *)
Lemma split_head_clean (c : ascii) (s : string) :
  Js.includes (String c "") (hd "" (Js.split c s)) = false.
Proof.
  rewrite includes_char. apply negb_false_iff.
  induction s as [|x t IH]; [reflexivity|]. cbn [Js.split].
  destruct (Ascii.eqb x c) eqn:Hx; [reflexivity|].
  destruct (Js.split c t) as [|p ps]; cbn [hd Js.every] in *;
    rewrite Hx; cbn; [reflexivity | exact IH].
Qed.

End StringFacts.

Section UtilsStrings.

Import Utils.
Local Open Scope Z_scope.

(** X3.  [truncateForLog] leaves a string that fits untouched; for a limit
    of at least 3 the result never exceeds the limit; for a smaller limit a
    longer, non-empty string is cut down to the three dots alone. *)
Theorem truncateForLog_bound (str : string) (maxLength : Z) :
  (Js.length str <= maxLength -> truncateForLog str maxLength = str)
  /\ (3 <= maxLength ->
      Js.length (truncateForLog str maxLength) <= maxLength)
  /\ (maxLength < 3 -> maxLength < Js.length str -> str <> EmptyString ->
      truncateForLog str maxLength = "..."%string).
Proof.
  unfold truncateForLog.
  destruct (Z.leb_spec (Js.length str) maxLength) as [Hfit|Hlong].
  - rewrite orb_true_r.
    repeat split; intros; try reflexivity; try lia; exfalso; lia.
  - rewrite orb_false_r.
    destruct str as [|c t]; cbn [Js.isEmpty].
    + repeat split; intros; try reflexivity; cbn in *; try lia;
        congruence.
    + set (s := String c t) in *.
      split; [lia|]. split.
      * intros Hmax.
        pose proof (Z.div_mod (maxLength - 3) 2 ltac:(lia)) as Hd.
        pose proof (Z.mod_pos_bound (maxLength - 3) 2 ltac:(lia)) as Hm.
        set (h := (maxLength - 3) / 2) in *.
        pose proof (length_nonneg s) as Hn.
        assert (H0 : Js.clampIndex 0 s = 0%nat)
          by (unfold Js.clampIndex; lia).
        assert (H1 : Js.clampIndex h s = Z.to_nat h)
          by (unfold Js.clampIndex; lia).
        assert (H2 : Js.clampIndex (Js.length s - h) s
                     = (String.length s - Z.to_nat h)%nat)
          by (unfold Js.clampIndex, Js.length in *; lia).
        assert (H3 : Js.clampIndex (Js.length s) s = String.length s)
          by (unfold Js.clampIndex, Js.length in *; lia).
        unfold Js.substringFrom, Js.substring. rewrite H0, H1, H2, H3.
        unfold Js.length at 1.
        rewrite !length_app, !length_take, !length_drop.
        change (String.length "...") with 3%nat.
        unfold Js.length in *.
        assert (Hh : (Z.to_nat h <= String.length s)%nat) by lia.
        rewrite (Nat.max_r 0), (Nat.min_l 0) by lia.
        rewrite (Nat.max_r (String.length s - Z.to_nat h)),
                (Nat.min_l (String.length s - Z.to_nat h)) by lia.
        rewrite !Nat.sub_0_r.
        rewrite (Nat.min_l (Z.to_nat h)) by lia.
        rewrite (Nat.min_l (String.length s
                            - (String.length s - Z.to_nat h))) by lia.
        lia.
      * intros Hmax _ _.
        pose proof (Z.div_mod (maxLength - 3) 2 ltac:(lia)) as Hd.
        pose proof (Z.mod_pos_bound (maxLength - 3) 2 ltac:(lia)) as Hm.
        set (h := (maxLength - 3) / 2) in *.
        assert (Hh : h < 0) by lia.
        unfold Js.substringFrom, Js.substring, Js.clampIndex.
        pose proof (length_nonneg s) as Hn.
        replace (Z.to_nat (Z.min (Z.max 0 0) (Js.length s))) with 0%nat by lia.
        replace (Z.to_nat (Z.min (Z.max h 0) (Js.length s))) with 0%nat by lia.
        replace (Z.to_nat (Z.min (Z.max (Js.length s - h) 0) (Js.length s)))
          with (String.length s) by (unfold Js.length in *; lia).
        replace (Z.to_nat (Z.min (Z.max (Js.length s) 0) (Js.length s)))
          with (String.length s) by (unfold Js.length in *; lia).
        rewrite !Nat.max_id, !Nat.min_id, !Nat.sub_diag. reflexivity.
Qed.

(** X4.  For an id with a slash, [parseModelId] cuts at the first slash and
    the two parts put the id together again; the model name is what
    [extractModelName] sends upstream. *)
Theorem parseModelId_roundtrip (modelId : string) :
  Js.includes "/" modelId = true ->
  let (provider, modelName) := parseModelId modelId in
  (provider ++ "/" ++ modelName)%string = modelId
  /\ Js.includes "/" provider = false
  /\ modelName = Executor.extractModelName modelId.
Proof.
  intros Hs. unfold parseModelId, Executor.extractModelName. rewrite Hs.
  pose proof (join_split "/" modelId) as Hj.
  pose proof (split_head_clean "/" modelId) as Hc.
  destruct (Js.split "/" modelId) as [|p rest] eqn:Hsp;
    [now apply split_not_nil in Hsp|].
  cbn [hd tl] in *. split; [|split; [exact Hc | reflexivity]].
  destruct rest as [|q rest]; [|exact Hj].
  (* one piece only: there was no slash *)
  cbn [Js.join] in Hj. subst p. rewrite Hc in Hs. discriminate.
Qed.

End UtilsStrings.

(* ----------------------------------------------------------------- *)
(** ** Catalog: lookup and cost *)

Section Catalog.

Import Models.
Local Open Scope string_scope.

(** X5.  The catalog answers for its own entries: looked up by its id or by
    its bare model name, an entry is found again, and the provider derived
    from either spelling is the provider of the entry. *)
Theorem catalog_lookup (e : ModelEntry) :
  In e DEFAULT_MODELS ->
  let bare := Executor.extractModelName (id e) in
  getModelEntry (id e) = Some e
  /\ getModelEntry bare = Some e
  /\ getProviderForModel (id e) = provider e
  /\ getProviderForModel bare = provider e.
Proof.
  intros Hin. cbv zeta.
  repeat (destruct Hin as [<-|Hin];
          [vm_compute; repeat split; reflexivity|]).
  destruct Hin.
Qed.

Lemma getModelEntry_in (modelId : string) (e : ModelEntry) :
  getModelEntry modelId = Some e -> In e DEFAULT_MODELS.
Proof.
  unfold getModelEntry, registryGet, modelRegistry.
  destruct (find (fun e0 => String.eqb (id e0) modelId) DEFAULT_MODELS)
    eqn:H1; [intros [= <-]; now apply find_some in H1|].
  destruct (find (suffixMatch modelId) DEFAULT_MODELS) eqn:H2;
    [intros [= <-]; now apply find_some in H2|].
  intros H3. now apply find_some in H3.
Qed.

(** X6.  Every answer of [getModelEntry] is an entry of the catalog, and an
    id that is, letter case aside, a piece of the id of some entry always
    gets an answer; so does the empty id. *)
Theorem getModelEntry_fuzzy (modelId : string) :
  (forall e, getModelEntry modelId = Some e -> In e DEFAULT_MODELS)
  /\ (forall e, In e DEFAULT_MODELS ->
        Js.includes (Js.toLowerCase modelId) (Js.toLowerCase (id e)) = true ->
        getModelEntry modelId <> None)
  /\ getModelEntry "" <> None.
Proof.
  split; [exact (getModelEntry_in modelId)|].
  split; [|vm_compute; discriminate].
  intros e Hin Hsub. unfold getModelEntry, modelRegistry.
  destruct (registryGet modelId); [discriminate|].
  destruct (find (suffixMatch modelId) DEFAULT_MODELS); [discriminate|].
  intros Hnone.
  apply (find_none _ _ Hnone) in Hin. unfold fuzzyMatch in Hin.
  rewrite Hsub in Hin. discriminate.
Qed.

Local Open Scope Q_scope.

Lemma catalog_prices (e : ModelEntry) :
  In e DEFAULT_MODELS -> 0 <= inputCostPer1M e /\ 0 <= outputCostPer1M e.
Proof.
  intros Hin.
  repeat (destruct Hin as [<-|Hin]; [split; discriminate|]).
  destruct Hin.
Qed.

Lemma perMillion_nonneg (n : Z) : (0 <= n)%Z -> 0 <= perMillion n.
Proof.
  intros H. unfold perMillion, Qdiv. apply Qmult_le_0_compat.
  - change 0 with (inject_Z 0). now rewrite <- Zle_Qle.
  - discriminate.
Qed.

Lemma Qplus_nonneg (a b : Q) : 0 <= a -> 0 <= b -> 0 <= a + b.
Proof.
  intros Ha Hb. apply (Qle_trans _ (0 + 0)); [discriminate|].
  now apply Qplus_le_compat.
Qed.

Lemma perMillion_le (a b : Z) :
  (a <= b)%Z -> perMillion a <= perMillion b.
Proof.
  intros H. unfold perMillion, Qdiv. apply Qmult_le_compat_r.
  - now rewrite <- Zle_Qle.
  - discriminate.
Qed.

Lemma cost_le (a b c d p q : Q) :
  a <= b -> c <= d -> 0 <= p -> 0 <= q -> a * p + c * q <= b * p + d * q.
Proof.
  intros Hab Hcd Hp Hq.
  apply Qplus_le_compat; now apply Qmult_le_compat_r.
Qed.

(** X7.  A cost is never negative for token counts that are not, and it
    does not fall when the token counts grow; a model the catalog does
    not know is charged as openai/gpt-5.2. *)
Theorem calculateCost_monotone (modelId : string) (i1 o1 i2 o2 : Z) :
  ((0 <= i1)%Z -> (0 <= o1)%Z -> 0 <= calculateCost modelId i1 o1)
  /\ ((i1 <= i2)%Z -> (o1 <= o2)%Z ->
      calculateCost modelId i1 o1 <= calculateCost modelId i2 o2)
  /\ (getModelEntry modelId = None ->
      calculateCost modelId i1 o1 = calculateCost "openai/gpt-5.2" i1 o1).
Proof.
  unfold calculateCost at 1 2 3 4.
  destruct (getModelEntry modelId) as [e|] eqn:He.
  - apply getModelEntry_in in He. apply catalog_prices in He.
    destruct He as [Hi Ho]. split; [|split; [|discriminate]].
    + intros H1 H2. cbv zeta.
      apply Qplus_nonneg; apply Qmult_le_0_compat;
        auto using perMillion_nonneg.
    + intros H1 H2. cbv zeta.
      apply cost_le; auto using perMillion_le.
  - split; [|split; [|reflexivity]].
    + intros H1 H2. cbv zeta.
      apply Qplus_nonneg; apply Qmult_le_0_compat;
        auto using perMillion_nonneg; discriminate.
    + intros H1 H2. cbv zeta.
      apply cost_le; auto using perMillion_le; discriminate.
Qed.

End Catalog.

(* ----------------------------------------------------------------- *)
(** ** Router: what a decision guarantees *)

Section Decisions.

Import Models Config Router.

Variable P : Platform.
Variable request : ChatCompletionRequest.
Variable cls : ClassificationResult.
Variable config : ClawRouteConfig.

Lemma savings_same_model (c : Q) : (Qmax 0 (c - c) == 0)%Q.
Proof. apply Q.max_l. setoid_replace (c - c)%Q with 0%Q by ring. apply Qle_refl. Qed.

Lemma tierRouting_cases :
  let '(m, r, p) := tierRouting P (model request) cls config in
  (p = true /\ m = model request)
  \/ (p = false /\ keyed config m = true
      /\ exists tierConfig,
           models config (tier cls) = Some tierConfig
           /\ (m = primary tierConfig \/ m = fallback tierConfig)).
Proof.
  unfold tierRouting.
  destruct (shouldFreeTierUseOriginal P (tier cls) config); [now left|].
  destruct (shouldFreeModerateUseOriginal P (tier cls) (toolsDetected cls)
              config); [now left|].
  destruct (models config (tier cls)) as [tc|]; [|now left].
  destruct (hasApiKey config (getProviderForModel (primary tc))) eqn:Hp.
  - right. split; [reflexivity|]. split; [exact Hp|]. exists tc. auto.
  - destruct (hasApiKey config (getProviderForModel (fallback tc))) eqn:Hf.
    + right. split; [reflexivity|]. split; [exact Hf|]. exists tc. auto.
    + now left.
Qed.

(** Whatever the configuration, a decision names the model the client
    asked for as its original model; a pass-through or dry-run decision
    keeps that model and estimates no savings. *)
Theorem passthrough_keeps_model :
  let d := routeRequest P request cls config in
  originalModel d = model request
  /\ (isPassthrough d = true \/ isDryRun d = true ->
      routedModel d = model request
      /\ (estimatedSavingsUsd d == 0)%Q).
Proof.
  cbv zeta. unfold routeRequest.
  destruct (cfg_enabled config); cbn [negb];
    [|cbn; split; [reflexivity | intros _; split; reflexivity]].
  pose proof tierRouting_cases as Hc.
  destruct (forcedModel config) as [m|].
  - destruct (dryRun config); cbn.
    + split; [reflexivity|]. intros _.
      split; [reflexivity | apply savings_same_model].
    + split; [reflexivity|]. intros [H|H]; discriminate.
  - destruct (tierRouting P (model request) cls config) as [[m r] p].
    destruct (dryRun config); cbn.
    + split; [reflexivity|]. intros _.
      split; [reflexivity | apply savings_same_model].
    + split; [reflexivity|]. intros [H|H]; [|discriminate].
      destruct Hc as [[_ ->]|[Hp _]]; [|congruence].
      split; [reflexivity | apply savings_same_model].
Qed.

(** X10.  A decision that is neither an override nor a pass-through nor a
    dry-run names the primary or the fallback model of the tier, and the
    provider of that model has a key. *)
Theorem routed_model_is_usable :
  let d := routeRequest P request cls config in
  isOverride d = false -> isPassthrough d = false -> isDryRun d = false ->
  canUseModel (routedModel d) config = true
  /\ exists tierConfig,
       models config (tier cls) = Some tierConfig
       /\ (routedModel d = primary tierConfig
           \/ routedModel d = fallback tierConfig).
Proof.
  cbv zeta. unfold routeRequest.
  destruct (cfg_enabled config); cbn [negb]; [|cbn; discriminate].
  pose proof tierRouting_cases as Hc.
  destruct (forcedModel config) as [m|].
  - destruct (dryRun config); cbn; discriminate.
  - destruct (tierRouting P (model request) cls config) as [[m r] p].
    destruct (dryRun config); cbn; [discriminate|].
    intros _ Hp _. destruct Hc as [[Hp' _]|[_ Hk]]; [congruence|].
    exact Hk.
Qed.

End Decisions.

Section Available.

Import Models Config Router.

Variable config : ClawRouteConfig.

Lemma pushNew_in (m x : string) (ms : list string) :
  In x (pushNew m ms) <-> In x ms \/ x = m.
Proof.
  unfold pushNew. destruct (existsb (String.eqb m) ms) eqn:He.
  - apply existsb_exists in He. destruct He as (y & Hy & Heq).
    apply String.eqb_eq in Heq. subst y. split; [auto|].
    intros [H| ->]; assumption.
  - rewrite in_app_iff. cbn. intuition.
Qed.

Lemma pushNew_nodup (m : string) (ms : list string) :
  NoDup ms -> NoDup (pushNew m ms).
Proof.
  intros Hn. unfold pushNew.
  destruct (existsb (String.eqb m) ms) eqn:He; [exact Hn|].
  apply NoDup_app; [exact Hn | repeat constructor; intros [] |].
  intros x Hin [Hx|[]]. subst x.
  assert (existsb (String.eqb m) ms = true); [|congruence].
  apply existsb_exists. exists m. split; [exact Hin | apply String.eqb_refl].
Qed.

Lemma addTierModels_spec (ms : list string) (t : TaskTier) :
  (NoDup ms -> NoDup (addTierModels config ms t))
  /\ forall x, In x (addTierModels config ms t) <-> In x ms \/ offers config t x.
Proof.
  unfold addTierModels, offers, canUseModel.
  destruct (models config t) as [tc|].
  2:{ split; [auto|]. intros x. split; [auto|].
      intros [H|(tc & H & _)]; [exact H | discriminate]. }
  destruct (hasApiKey config (getProviderForModel (primary tc))) eqn:Hp;
    destruct (hasApiKey config (getProviderForModel (fallback tc))) eqn:Hf;
    (split; [auto using pushNew_nodup|]); intros x;
    rewrite ?pushNew_in; split.
  all: try (intros [[H|H]|H]; [auto | right | right]; subst;
            exists tc; auto).
  all: try (intros [H|H]; [auto | right]; subst; exists tc; auto).
  all: try (intros [H|(tc' & [= <-] & [->| ->] & Hk)]; auto; congruence).
  all: try (intros H; auto).
Qed.

Lemma fold_addTierModels (ts : list TaskTier) (ms : list string) :
  (NoDup ms -> NoDup (fold_left (addTierModels config) ts ms))
  /\ forall x, In x (fold_left (addTierModels config) ts ms)
               <-> In x ms \/ exists t, In t ts /\ offers config t x.
Proof.
  revert ms. induction ts as [|t ts IH]; intros ms; cbn [fold_left].
  - split; [auto|]. intros x. split; [auto|].
    intros [H|(t & [] & _)]. exact H.
  - destruct (IH (addTierModels config ms t)) as [IHn IHi].
    destruct (addTierModels_spec ms t) as [Hn Hi].
    split; [auto|]. intros x. rewrite IHi, Hi. split.
    + intros [[H|H]|(t' & Hin & Ho)]; [auto| |].
      * right. exists t. split; [now left | exact H].
      * right. exists t'. split; [now right | exact Ho].
    + intros [H|(t' & [<-|Hin] & Ho)]; [auto|auto|].
      right. exists t'. auto.
Qed.

(** X11.  [getAvailableModels] lists, without repetition, exactly the models
    that some tier names as its primary or its fallback and whose provider
    has a key. *)
Theorem getAvailableModels_exact :
  NoDup (getAvailableModels config)
  /\ forall m, In m (getAvailableModels config) <-> exists t, offers config t m.
Proof.
  unfold getAvailableModels.
  destruct (fold_addTierModels allTiers []) as [Hn Hi].
  split; [apply Hn; constructor|].
  intros m. rewrite Hi. split.
  - intros [[]|(t & _ & Ho)]. now exists t.
  - intros (t & Ho). right. exists t. split; [|exact Ho].
    destruct t; cbn; auto 6.
Qed.

End Available.

(* ----------------------------------------------------------------- *)
(** ** Validator: what a verdict tells *)

Section Verdicts.

Import Validator.
Local Open Scope Z_scope.

Variable P : Platform.
Variable request : ChatCompletionRequest.

Lemma checkToolCalls_none (names : list string) (tcs : list ToolCall) :
  checkToolCalls P names tcs = None ->
  forall tc, In tc tcs ->
    In (tc_name tc) names /\ argumentsAccepted P (tc_arguments tc).
Proof.
  induction tcs as [|tc0 tcs IH]; intros Hc tc Hin; [destruct Hin|].
  cbn [checkToolCalls] in Hc.
  destruct (existsb (String.eqb (tc_name tc0)) names) eqn:Hn;
    cbn [negb] in Hc; [|discriminate].
  destruct (Js.truthy (tc_arguments tc0)
            && negb (Js.isEmpty (Js.trim (tc_arguments tc0)))
            && jsonIsNull P (tc_arguments tc0)
            && negb (String.eqb (tc_arguments tc0) "{}")) eqn:Ha;
    [discriminate|].
  destruct Hin as [<-|Hin]; [|now apply IH].
  split.
  - apply existsb_exists in Hn. destruct Hn as (x & Hx & Heq).
    apply String.eqb_eq in Heq. now subst x.
  - unfold argumentsAccepted.
    destruct (Js.isEmpty (Js.trim (tc_arguments tc0))) eqn:He;
      [left; now apply isEmpty_true|].
    destruct (jsonIsNull P (tc_arguments tc0)) eqn:Hj; [|now right; left].
    destruct (String.eqb_spec (tc_arguments tc0) "{}") as [Heq|Hne];
      [now right; right|].
    exfalso. destruct (tc_arguments tc0); cbn in *; congruence.
Qed.

Lemma checkToolCalls_some (names : list string) (tcs : list ToolCall)
    (r : ValidationReason) :
  checkToolCalls P names tcs = Some r -> tcs <> [].
Proof. destruct tcs; [discriminate | discriminate]. Qed.

(** X12.  A response that is found valid has an ok status and a body without
    an error property whose first choice has a message. When the request
    declares tools, every tool the message calls is one of them and its
    arguments are blank, parse as JSON, or are the two braces; when the tier
    is not Heartbeat and the message calls no tool, the content is blank or
    at least 15 characters long. *)
Theorem valid_response_sound (response : Response)
    (responseBody : option ChatCompletionResponse) (t : TaskTier) :
  valid (validateResponse P response responseBody request t) = true ->
  ok response = true
  /\ exists b msg,
       responseBody = Some b
       /\ error_truthy b = false
       /\ Executor.firstMessage b = Some msg
       /\ (forall d ds tcs tc,
             tools request = Some (d :: ds) ->
             msg_tool_calls msg = Some tcs -> In tc tcs ->
             In (tc_name tc) (map fn_name (d :: ds))
             /\ argumentsAccepted P (tc_arguments tc))
       /\ (t <> HEARTBEAT -> nonEmpty (msg_tool_calls msg) = false ->
           Js.trim (contentString msg) = EmptyString
           \/ 15 <= Js.length (contentString msg)).
Proof.
  unfold validateResponse.
  destruct (ok response); cbn [negb]; [|discriminate].
  destruct responseBody as [b|]; [|discriminate].
  destruct (error_truthy b) eqn:He; [discriminate|].
  destruct (choices b) as [[|[c|] rest]|] eqn:Hch; try discriminate.
  destruct (message c) as [msg|] eqn:Hm; [|discriminate].
  unfold validateMessage. intros Hv.
  split; [reflexivity|]. exists b, msg.
  split; [reflexivity|]. split; [exact He|].
  split; [unfold Executor.firstMessage; now rewrite Hch|].
  split.
  - intros d ds tcs tc Ht Htc Hin. rewrite Ht, Htc in Hv.
    destruct tcs as [|tc0 tcs]; [destruct Hin|]. cbn [nonEmpty] in Hv.
    destruct (checkToolCalls P (map fn_name (d :: ds)) (tc0 :: tcs))
      eqn:Hc; [discriminate|].
    exact (checkToolCalls_none _ _ Hc tc Hin).
  - intros Ht Hno. rewrite Hno in Hv.
    assert (Hnone : match msg_tool_calls msg, tools request with
                    | Some tcs, Some ((_ :: _) as defs) =>
                        if false
                        then checkToolCalls P (map fn_name defs) tcs
                        else None
                    | _, _ => None
                    end = None).
    { destruct (msg_tool_calls msg); [|reflexivity].
      destruct (tools request) as [[|d ds]|]; reflexivity. }
    rewrite Hnone in Hv. apply tier_eqb_neq in Ht. rewrite Ht in Hv.
    cbn [negb andb] in Hv.
    destruct (Z.ltb_spec (Js.length (contentString msg)) 15) as [Hl|Hl];
      [|now right].
    destruct (Js.isEmpty (Js.trim (contentString msg))) eqn:Hemp;
      [left; now apply isEmpty_true | discriminate].
Qed.

(** X13.  The verdict hangs together: it is valid exactly when its reason is
    ok, and it reports tool calls only for an ok response whose body has
    them, in which case [extractToolCalls] finds them. *)
Theorem verdict_consistent (response : Response)
    (responseBody : option ChatCompletionResponse) (t : TaskTier) :
  let v := validateResponse P response responseBody request t in
  (valid v = true <-> v_reason v = reason_ok)
  /\ (hadToolCalls v = true ->
      ok response = true
      /\ extractToolCalls responseBody <> []
      /\ exists b, responseBody = Some b /\ Executor.hasToolCalls b = true).
Proof.
  cbv zeta. unfold validateResponse.
  destruct (ok response); cbn [negb];
    [|split; [split|]; cbn; discriminate].
  destruct responseBody as [b|]; [|split; [split|]; cbn; discriminate].
  destruct (error_truthy b); [split; [split|]; cbn; discriminate|].
  unfold extractToolCalls.
  destruct (choices b) as [[|[c|] rest]|] eqn:Hch;
    try (split; [split|]; cbn; discriminate).
  destruct (message c) as [msg|] eqn:Hm;
    [|split; [split|]; cbn; discriminate].
  assert (Hhas : forall tc tcs, msg_tool_calls msg = Some (tc :: tcs) ->
            exists b0, Some b = Some b0 /\ Executor.hasToolCalls b0 = true).
  { intros tc tcs Htcs. exists b. split; [reflexivity|].
    unfold Executor.hasToolCalls, Executor.firstMessage.
    now rewrite Hch, Hm, Htcs. }
  unfold validateMessage.
  match goal with
  | |- context [match ?x with Some r => invalid r true | None => _ end] =>
      destruct x as [reason|] eqn:Hfail
  end.
  - split; [split; cbn; [discriminate|]|].
    + intros Hr. exfalso.
      destruct (msg_tool_calls msg) as [tcs|]; [|discriminate].
      destruct (tools request) as [[|d ds]|]; try discriminate.
      destruct (nonEmpty (Some tcs)); [|discriminate].
      cbn in Hr. subst reason.
      clear - Hfail. induction tcs as [|tc tcs IH]; [discriminate|].
      cbn [checkToolCalls] in Hfail.
      destruct (negb _); [discriminate|].
      destruct (_ && _); [discriminate | now apply IH].
    + intros _. split; [reflexivity|].
      destruct (msg_tool_calls msg) as [[|tc tcs]|]; try discriminate.
      * destruct (tools request) as [[|d ds]|]; discriminate.
      * split; [discriminate|]. now apply (Hhas tc tcs).
  - destruct (negb (tier_eqb t HEARTBEAT)
              && negb (nonEmpty (msg_tool_calls msg))
              && (Js.length (contentString msg) <? 15)
              && negb (Js.isEmpty (Js.trim (contentString msg))));
      [split; [split|]; cbn; discriminate|].
    split; [split; reflexivity|]. cbn [hadToolCalls]. intros Htc.
    split; [reflexivity|].
    destruct (msg_tool_calls msg) as [[|tc tcs]|]; try discriminate.
    split; [discriminate|]. now apply (Hhas tc tcs).
Qed.

(** When the request declares no tools, the tool calls of a response are
    not looked at: an ok response without an error property whose message
    calls tools is valid whatever the names and the arguments are. *)
Theorem undeclared_tools_unchecked (response : Response)
    (b : ChatCompletionResponse) (t : TaskTier) :
  ok response = true ->
  error_truthy b = false ->
  Executor.hasToolCalls b = true ->
  tools request = None \/ tools request = Some [] ->
  validateResponse P response (Some b) request t
  = {| valid := true; v_reason := reason_ok; hadToolCalls := true |}.
Proof.
  intros Hok He Htc Htools. unfold validateResponse.
  rewrite Hok, He. cbn [negb].
  unfold Executor.hasToolCalls, Executor.firstMessage in Htc.
  destruct (choices b) as [[|[c|] rest]|]; try discriminate.
  destruct (message c) as [msg|]; [|discriminate].
  unfold validateMessage. rewrite Htc.
  assert (Hnone : match msg_tool_calls msg, tools request with
                  | Some tcs, Some ((_ :: _) as defs) =>
                      if true
                      then checkToolCalls P (map fn_name defs) tcs
                      else None
                  | _, _ => None
                  end = None).
  { destruct (msg_tool_calls msg); [|reflexivity].
    destruct Htools as [-> | ->]; reflexivity. }
  rewrite Hnone. cbn [negb]. now rewrite !andb_false_r.
Qed.

End Verdicts.

(* ----------------------------------------------------------------- *)
(** ** Searching a string: substrings and unanchored patterns *)

Section Search.

Import Re.
Local Open Scope string_scope.

Lemma prefix_app (p s : string) :
  prefix p s = true <-> exists b, s = p ++ b.
Proof.
  revert s. induction p as [|c p IH]; intros s; simpl prefix.
  - split; [intros _; now exists s | intros _; now destruct s].
  - destruct s as [|x s].
    + split; [discriminate | intros [b Hb]; discriminate].
    + simpl prefix. destruct (ascii_dec c x) as [->|Hne].
      * rewrite IH. split; intros [b Hb]; exists b; cbn in *; congruence.
      * split; [discriminate|]. intros [b Hb]. cbn in Hb. congruence.
Qed.

Lemma includes_app (p s : string) :
  Js.includes p s = true <-> exists a b, s = a ++ p ++ b.
Proof.
  induction s as [|x s IH]; cbn [Js.includes].
  - destruct (prefix p "") eqn:Hp.
    + split; [intros _|reflexivity].
      apply prefix_app in Hp. destruct Hp as [b Hb]. now exists "", b.
    + split; [discriminate|]. intros (a & b & Hab).
      destruct a; [|discriminate]. cbn in Hab.
      rewrite <- Hp. apply prefix_app. now exists b.
  - destruct (prefix p (String x s)) eqn:Hp.
    + split; [intros _|reflexivity].
      apply prefix_app in Hp. destruct Hp as [b Hb]. now exists "", b.
    + rewrite IH. split.
      * intros (a & b & ->). now exists (String x a), b.
      * intros (a & b & Hab). destruct a as [|y a].
        -- exfalso. cbn in Hab. rewrite Hab in Hp.
           assert (Ht : prefix p (p ++ b) = true)
             by (apply prefix_app; now exists b).
           congruence.
        -- cbn in Hab. injection Hab as _ ->. now exists a, b.
Qed.

Lemma toLowerCase_app (a b : string) :
  Js.toLowerCase (a ++ b) = Js.toLowerCase a ++ Js.toLowerCase b.
Proof. induction a as [|x a IH]; cbn; congruence. Qed.

Lemma toLowerCase_split (s x y : string) :
  Js.toLowerCase s = x ++ y ->
  exists a b, s = a ++ b /\ Js.toLowerCase a = x /\ Js.toLowerCase b = y.
Proof.
  revert s. induction x as [|c x IH]; intros s H.
  - now exists "", s.
  - destruct s as [|d s]; [discriminate|]. cbn in H.
    injection H as Hc Hs. destruct (IH s Hs) as (a & b & -> & Ha & Hb).
    exists (String d a), b. cbn. now rewrite Hc, Ha.
Qed.

Lemma lang_any_star (s : string) : lang (Star anyChar) s.
Proof.
  induction s as [|c s IH]; [constructor|].
  change (String c s) with (String c "" ++ s).
  constructor; [now constructor | exact IH].
Qed.

(** An unanchored pattern is found when some substring is in its
    language. *)
Lemma test_search_spec (r : re) (s : string) :
  test_search r s = true <-> exists a w b, s = a ++ w ++ b /\ lang r w.
Proof.
  unfold test_search. rewrite matches_lang. split.
  - intros H. destruct (lang_cat_inv _ _ _ H) as (a & t & -> & _ & Ht).
    destruct (lang_cat_inv _ _ _ Ht) as (w & b & -> & Hw & _).
    now exists a, w, b.
  - intros (a & w & b & -> & Hw).
    constructor; [apply lang_any_star|].
    constructor; [exact Hw | apply lang_any_star].
Qed.

(** *** The phrases of a pattern made of case-insensitive literals *)

Lemma phrases_eps (w : string) : lang Eps w <-> In (Js.toLowerCase w) [""].
Proof.
  split.
  - intros H. apply lang_eps_inv in H. subst w. now left.
  - intros [H|[]]. destruct w; [constructor | discriminate].
Qed.

Lemma phrases_chr_i (c : ascii) (w : string) :
  lang (chr_i c) w
  <-> Js.toLowerCase w = String (Js.toLowerChar c) "".
Proof.
  unfold chr_i. split.
  - intros H. apply lang_cls_inv in H. destruct H as (x & -> & Hx).
    apply Ascii.eqb_eq in Hx. cbn. now rewrite Hx.
  - intros H. destruct w as [|x [|y w]]; try discriminate.
    cbn in H. injection H as Hx. constructor. now apply Ascii.eqb_eq.
Qed.

Lemma phrases_lit_i (p w : string) :
  lang (lit_i p) w <-> In (Js.toLowerCase w) [Js.toLowerCase p].
Proof.
  revert w. induction p as [|c p IH]; intros w; cbn [lit_i].
  - apply phrases_eps.
  - split.
    + intros H. destruct (lang_cat_inv _ _ _ H) as (a & b & -> & Ha & Hb).
      apply phrases_chr_i in Ha. apply IH in Hb. destruct Hb as [Hb|[]].
      left. rewrite toLowerCase_app, Ha, <- Hb. reflexivity.
    + intros [H|[]]. cbn [Js.toLowerCase] in H.
      change (String (Js.toLowerChar c) (Js.toLowerCase p))
        with (String (Js.toLowerChar c) "" ++ Js.toLowerCase p) in H.
      symmetry in H.
      destruct (toLowerCase_split _ _ _ H) as (a & b & -> & Ha & Hb).
      constructor; [now apply phrases_chr_i|].
      apply IH. now left.
Qed.

Lemma phrases_alt (r1 r2 : re) (l1 l2 : list string) :
  (forall w, lang r1 w <-> In (Js.toLowerCase w) l1) ->
  (forall w, lang r2 w <-> In (Js.toLowerCase w) l2) ->
  forall w, lang (Alt r1 r2) w <-> In (Js.toLowerCase w) (l1 ++ l2).
Proof.
  intros H1 H2 w. rewrite in_app_iff, <- H1, <- H2. split.
  - intros H. inversion H; subst; auto.
  - intros [H|H]; [now apply lang_alt_l | now apply lang_alt_r].
Qed.

Lemma phrases_cat (r1 r2 : re) (l1 l2 : list string) :
  (forall w, lang r1 w <-> In (Js.toLowerCase w) l1) ->
  (forall w, lang r2 w <-> In (Js.toLowerCase w) l2) ->
  forall w, lang (Cat r1 r2) w
            <-> In (Js.toLowerCase w)
                   (flat_map (fun x => map (append x) l2) l1).
Proof.
  intros H1 H2 w. rewrite in_flat_map. split.
  - intros H. destruct (lang_cat_inv _ _ _ H) as (a & b & -> & Ha & Hb).
    exists (Js.toLowerCase a). split; [now apply H1|].
    rewrite toLowerCase_app. apply in_map. now apply H2.
  - intros (x & Hx & Hin). apply in_map_iff in Hin.
    destruct Hin as (y & Hxy & Hy). symmetry in Hxy.
    destruct (toLowerCase_split _ _ _ Hxy) as (a & b & -> & Ha & Hb).
    subst x y. constructor; [now apply H1 | now apply H2].
Qed.

Lemma phrases_search (r : re) (l : list string) :
  (forall w, lang r w <-> In (Js.toLowerCase w) l) ->
  forall s, test_search r s
            = existsb (fun p => Js.includes p (Js.toLowerCase s)) l.
Proof.
  intros Hr s. apply eq_true_iff_eq.
  rewrite test_search_spec, existsb_exists. split.
  - intros (a & w & b & -> & Hw). exists (Js.toLowerCase w).
    split; [now apply Hr|]. apply includes_app.
    exists (Js.toLowerCase a), (Js.toLowerCase b).
    now rewrite !toLowerCase_app.
  - intros (p & Hp & Hinc). apply includes_app in Hinc.
    destruct Hinc as (x & y & Hxy).
    destruct (toLowerCase_split _ _ _ Hxy) as (a & t & -> & Ha & Ht).
    symmetry in Ht.
    destruct (toLowerCase_split _ _ _ (eq_sym Ht)) as (w & b & -> & Hw & Hb).
    exists a, w, b. split; [reflexivity|]. apply Hr. now rewrite Hw.
Qed.

End Search.

Ltac phrases :=
  lazymatch goal with
  | |- forall w, Re.lang (Re.lit_i _) w <-> _ =>
      intros w; apply phrases_lit_i
  | |- forall w, Re.lang Re.Eps w <-> _ => intros w; apply phrases_eps
  | |- forall w, Re.lang (Re.Alt _ _) w <-> _ =>
      apply phrases_alt; phrases
  | |- forall w, Re.lang (Re.Cat _ _) w <-> _ =>
      apply phrases_cat; phrases
  end.

Section Confusion.

Import Validator.
Local Open Scope string_scope.
Local Open Scope Z_scope.

(** X14.  A response counts as confused exactly when it is not empty, has at
    most 500 characters and, letter case apart, contains one of the phrases
    that the six patterns spell out. *)
Theorem isConfusedResponse_phrases (content : string) :
  isConfusedResponse content
  = negb (Js.isEmpty content) && (Js.length content <=? 500)
    && existsb (fun p => Js.includes p (Js.toLowerCase content))
         [ "i'm not sure"; "i'm confused"; "i'm uncertain";
           "i am not sure"; "i am confused"; "i am uncertain";
           "i don't understand"; "i don't know what";
           "i do not understand"; "i do not know what";
           "could you clarify"; "could you explain"; "could you rephrase";
           "could you please clarify"; "could you please explain";
           "could you please rephrase";
           "what do you mean"; "what exactly do you mean";
           "what specifically do you mean";
           "i'm an ai"; "i'm just an ai"; "i am an ai"; "i am just an ai";
           "as an ai"; "as an ai language model" ].
Proof.
  unfold isConfusedResponse.
  destruct (Js.isEmpty content); [reflexivity|].
  rewrite Z.leb_antisym.
  destruct (500 <? Js.length content); [reflexivity|].
  cbn [orb negb andb].
  unfold confusionPatterns, opt, Re.words_i.
  cbn [map Re.alts existsb].
  repeat match goal with
  | |- context [Re.test_search ?r content] =>
      erewrite (phrases_search r) by phrases
  end.
  rewrite orb_false_r, <- !existsb_app. reflexivity.
Qed.

End Confusion.

(* ----------------------------------------------------------------- *)
(** ** Classifier: what the rule groups guarantee *)

Section Rules.

Import Classifier.
Local Open Scope string_scope.

Variable request : ChatCompletionRequest.

Let msgs := messages request.
Let lastMessage := Utils.getLastUserMessage msgs.
Let messageCount := List.length msgs.
Let estimatedTokens := Utils.estimateMessagesTokens msgs.
Let hasTools := hasToolsOf request.

(** The state before the frontier rule. *)
Let early : St :=
  heartbeatRule lastMessage messageCount hasTools
    (modelNameHint request initial).

Lemma rules_unfold :
  rules request
  = moderateRule
      (simpleRule lastMessage messageCount hasTools
         (complexRule request lastMessage messageCount estimatedTokens
            (frontierRule request lastMessage estimatedTokens early))).
Proof. reflexivity. Qed.

Lemma early_tier : st_tier early = MODERATE \/ st_tier early = HEARTBEAT.
Proof.
  unfold early, heartbeatRule, modelNameHint.
  destruct (_ || _); cbn [st_tier tier_eqb initial]; [now right|].
  destruct (chk_match _); cbn; auto.
Qed.

Lemma complexRule_keeps (lm : string) (n : nat) (tok : Z) (st : St) :
  st_tier st <> MODERATE -> complexRule request lm n tok st = st.
Proof.
  intros H. unfold complexRule.
  destruct (tier_eqb (st_tier st) MODERATE) eqn:E; [|reflexivity].
  apply tier_eqb_eq in E. contradiction.
Qed.

Lemma simpleRule_keeps (lm : string) (n : nat) (b : bool) (st : St) :
  st_tier st <> MODERATE -> simpleRule lm n b st = st.
Proof.
  intros H. unfold simpleRule.
  destruct (tier_eqb (st_tier st) MODERATE) eqn:E; [|reflexivity].
  apply tier_eqb_eq in E. contradiction.
Qed.

Lemma moderateRule_keeps (st : St) :
  st_tier st <> MODERATE -> moderateRule st = st.
Proof.
  intros H. unfold moderateRule.
  destruct (tier_eqb (st_tier st) MODERATE) eqn:E; [|reflexivity].
  apply tier_eqb_eq in E. contradiction.
Qed.

Lemma late_rules_keep (st : St) :
  st_tier st <> MODERATE ->
  moderateRule
    (simpleRule lastMessage messageCount hasTools
       (complexRule request lastMessage messageCount estimatedTokens st))
  = st.
Proof.
  intros H.
  now rewrite complexRule_keeps, simpleRule_keeps, moderateRule_keeps.
Qed.

(** When the frontier check hits, the rules end in Frontier with the
    check's confidence. *)
Lemma rules_frontier :
  chk_match (isFrontier request lastMessage estimatedTokens) = true ->
  st_tier (rules request) = FRONTIER
  /\ st_confidence (rules request)
     = chk_confidence (isFrontier request lastMessage estimatedTokens).
Proof.
  intros Hhit. rewrite rules_unfold.
  assert (Hf : frontierRule request lastMessage estimatedTokens early
               = {| st_tier := FRONTIER;
                    st_confidence :=
                      chk_confidence
                        (isFrontier request lastMessage estimatedTokens);
                    st_reason :=
                      ReasonFrontier
                        (chk_signals
                           (isFrontier request lastMessage estimatedTokens));
                    st_signals :=
                      st_signals early
                      ++ chk_signals
                           (isFrontier request lastMessage estimatedTokens)
                 |}).
  { unfold frontierRule. rewrite Hhit.
    destruct early_tier as [-> | ->]; reflexivity. }
  rewrite Hf, late_rules_keep by (cbn; discriminate). now split.
Qed.

(** When the frontier check misses, the frontier rule changes nothing. *)
Lemma frontierRule_miss (st : St) :
  chk_match (isFrontier request lastMessage estimatedTokens) = false ->
  frontierRule request lastMessage estimatedTokens st = st.
Proof.
  intros H. unfold frontierRule. rewrite H. now destruct (_ || _).
Qed.

End Rules.

Section Flags.

Import Classifier.
Local Open Scope string_scope.

Variable request : ChatCompletionRequest.
Variable config : ClawRouteConfig.

Lemma toolAwareRule_raises (b : bool) (st : St) :
  (TIER_ORDER (st_tier st)
   <= TIER_ORDER (st_tier (toolAwareRule config b st)))%nat.
Proof.
  unfold toolAwareRule.
  destruct (toolAwareRouting (classification config) && b); [|lia].
  destruct (Nat.ltb_spec (TIER_ORDER (st_tier st)) (TIER_ORDER COMPLEX));
    cbn [st_tier]; lia.
Qed.

Lemma lowConfidenceStep_raises (st : St) :
  (TIER_ORDER (st_tier st)
   <= TIER_ORDER (st_tier (lowConfidenceStep config st)))%nat.
Proof.
  unfold lowConfidenceStep.
  destruct (Qltb _ _); [|lia].
  destruct st as [[] c r sigs]; cbn; lia.
Qed.

Lemma veryLowConfidenceStep_raises (st : St) :
  (TIER_ORDER (st_tier st)
   <= TIER_ORDER (st_tier (veryLowConfidenceStep st)))%nat.
Proof.
  unfold veryLowConfidenceStep.
  destruct (_ && _); [|lia].
  destruct st as [[] c r sigs]; cbn; lia.
Qed.

Lemma conservativeRule_raises (st : St) :
  (TIER_ORDER (st_tier st)
   <= TIER_ORDER (st_tier (conservativeRule config st)))%nat.
Proof.
  unfold conservativeRule.
  destruct (conservativeMode (classification config)); [|lia].
  etransitivity; [apply lowConfidenceStep_raises|].
  apply veryLowConfidenceStep_raises.
Qed.

Lemma classify_above_rules :
  (TIER_ORDER (st_tier (rules request))
   <= TIER_ORDER (tier (classifyRequest request config)))%nat.
Proof.
  unfold classifyRequest. cbn [tier].
  etransitivity; [apply (toolAwareRule_raises (hasToolsOf request))|].
  apply conservativeRule_raises.
Qed.

Lemma classify_flags_off :
  toolAwareRouting (classification config) = false ->
  conservativeMode (classification config) = false ->
  tier (classifyRequest request config) = st_tier (rules request)
  /\ confidence (classifyRequest request config)
     = st_confidence (rules request).
Proof.
  intros Ht Hc. unfold classifyRequest, conservativeRule, toolAwareRule.
  now rewrite Ht, Hc.
Qed.

Lemma order_frontier (t : TaskTier) :
  (TIER_ORDER FRONTIER <= TIER_ORDER t)%nat -> t = FRONTIER.
Proof. destruct t; cbn; intros H; try lia; reflexivity. Qed.

(** X15.  The two safety settings only ever raise the tier: with tool-aware
    routing and conservative mode both off in [plain], no other
    configuration gives the same request a lower tier. *)
Theorem safety_flags_only_raise (plain : ClawRouteConfig) :
  toolAwareRouting (classification plain) = false ->
  conservativeMode (classification plain) = false ->
  (TIER_ORDER (tier (classifyRequest request plain))
   <= TIER_ORDER (tier (classifyRequest request config)))%nat.
Proof.
  intros Ht Hc.
  unfold classifyRequest at 1. unfold conservativeRule, toolAwareRule.
  rewrite Ht, Hc. cbn [andb tier]. apply classify_above_rules.
Qed.

(** X16.  With tool-aware routing on, a request that declares a tool is
    never classified below Complex, whatever its text and the other
    settings. *)
Theorem tool_aware_floor :
  toolAwareRouting (classification config) = true ->
  hasToolsOf request = true ->
  (TIER_ORDER COMPLEX
   <= TIER_ORDER (tier (classifyRequest request config)))%nat.
Proof.
  intros Ht Hh. unfold classifyRequest. cbn [tier].
  etransitivity; [|apply conservativeRule_raises].
  unfold toolAwareRule. rewrite Ht, Hh. cbn [andb].
  destruct (Nat.ltb_spec (TIER_ORDER (st_tier (rules request)))
              (TIER_ORDER COMPLEX)); cbn [st_tier]; lia.
Qed.

(** X17.  Each of four findings alone sends a request to Frontier under
    every configuration: tools together with a tool choice other than none,
    a last user message with two code fences, an estimate of more than 8000
    tokens, or an image part in some message. Such a request is not safe to
    retry. *)
Theorem frontier_triggers :
  let msgs := messages request in
  let lastMessage := Utils.getLastUserMessage msgs in
  (hasToolsOf request = true /\ hasToolChoiceOf request = true)
  \/ (exists a b c, lastMessage = a ++ "```" ++ b ++ "```" ++ c)
  \/ (8000 < Utils.estimateMessagesTokens msgs)%Z
  \/ hasImagesOf request = true ->
  tier (classifyRequest request config) = FRONTIER
  /\ safeToRetry (classifyRequest request config) = false.
Proof.
  cbv zeta. intros H.
  assert (Hhit : chk_match
                   (isFrontier request
                      (Utils.getLastUserMessage (messages request))
                      (Utils.estimateMessagesTokens (messages request)))
                 = true).
  { unfold isFrontier.
    destruct (hasToolsOf request && hasToolChoiceOf request) eqn:E1;
      [reflexivity|].
    destruct (Re.test_search CODE_BLOCK_PATTERN _) eqn:E2; [reflexivity|].
    destruct (if (1000 <? _)%Z then _ else false); [reflexivity|].
    destruct (8000 <? _)%Z eqn:E4; [reflexivity|].
    destruct (hasImagesOf request) eqn:E5; [reflexivity|].
    exfalso. destruct H as [[Ha Hb]|[(a & b & c & Hl)|[Hl|Hi]]].
    - rewrite Ha, Hb in E1. discriminate.
    - assert (Ht : Re.test_search CODE_BLOCK_PATTERN
                     (Utils.getLastUserMessage (messages request)) = true).
      { apply test_search_spec. exists a, ("```" ++ b ++ "```"), c.
        split; [rewrite Hl; now rewrite !append_assoc|].
        unfold CODE_BLOCK_PATTERN.
        assert (Hfence : Re.lang (Re.lit "```") "```").
        { apply matches_lang. reflexivity. }
        constructor; [exact Hfence|].
        constructor; [apply lang_any_star | exact Hfence]. }
      congruence.
    - apply Z.ltb_ge in E4. lia.
    - congruence. }
  destruct (rules_frontier request Hhit) as [Htier _].
  assert (Hfinal : tier (classifyRequest request config) = FRONTIER).
  { apply order_frontier. rewrite <- Htier. apply classify_above_rules. }
  split; [exact Hfinal|].
  unfold classifyRequest in *. cbn [tier safeToRetry] in *.
  rewrite Hfinal. now destruct (hasToolsOf request).
Qed.

End Flags.

Section Confidence.

Import Classifier.
Local Open Scope string_scope.

Variable request : ChatCompletionRequest.
Variable config : ClawRouteConfig.

Ltac break_ifs :=
  repeat match goal with
         | |- context [if ?b then _ else _] => destruct b
         end.

Lemma isHeartbeat_levels (lm : string) (n : nat) (b : bool) :
  chk_match (isHeartbeat lm n b) = true ->
  In (chk_confidence (isHeartbeat lm n b)) [95#100; 8#10]%Q.
Proof. unfold isHeartbeat. break_ifs; cbn; auto; discriminate. Qed.

Lemma isSimple_levels (lm : string) (n : nat) (b : bool) :
  chk_match (isSimple lm n b) = true ->
  In (chk_confidence (isSimple lm n b)) [9#10; 8#10]%Q.
Proof. unfold isSimple. break_ifs; cbn; auto; discriminate. Qed.

Lemma isFrontier_levels (lm : string) (tok : Z) :
  chk_match (isFrontier request lm tok) = true ->
  In (chk_confidence (isFrontier request lm tok))
     [9#10; 85#100; 8#10; 75#100]%Q
  /\ chk_signals (isFrontier request lm tok) <> [].
Proof.
  unfold isFrontier.
  destruct (_ && _); [cbn; split; [auto|discriminate]|].
  destruct (Re.test_search _ _); [cbn; split; [auto|discriminate]|].
  destruct (if (1000 <? _)%Z then _ else false);
    [cbn; split; [auto|discriminate]|].
  destruct (8000 <? _)%Z; [cbn; split; [auto 6|discriminate]|].
  destruct (hasImagesOf request); [cbn; split; [auto|discriminate]|].
  discriminate.
Qed.

Lemma isComplex_levels (lm : string) (n : nat) (tok : Z) :
  chk_match (isComplex request lm n tok) = true ->
  In (chk_confidence (isComplex request lm n tok))
     [85#100; 8#10; 75#100; 7#10]%Q
  /\ chk_signals (isComplex request lm n tok) <> [].
Proof.
  unfold isComplex.
  destruct (hasToolsOf request); [cbn; split; [auto|discriminate]|].
  destruct (if (500 <=? _)%Z && _ then _ else false);
    [cbn; split; [auto|discriminate]|].
  destruct (8 <? n)%nat; [cbn; split; [auto 6|discriminate]|].
  destruct (_ && _); [cbn; split; [auto 6|discriminate]|].
  discriminate.
Qed.

(** What holds of the state after the rule groups: the confidence is one
    of six levels, the reason is one that a rule wrote, and a signal was
    recorded. *)
Lemma rules_invariant :
  let st := rules request in
  In (st_confidence st) [95#100; 9#10; 85#100; 8#10; 75#100; 7#10]%Q
  /\ st_reason st <> ReasonDefault
  /\ (forall c, st_reason st <> ReasonVeryLowConfidence c)
  /\ st_signals st <> [].
Proof.
  cbv zeta. unfold rules.
  set (lm := Utils.getLastUserMessage (messages request)).
  set (n := List.length (messages request)).
  set (tok := Utils.estimateMessagesTokens (messages request)).
  set (b := hasToolsOf request).
  assert (Hfrontier : forall st,
            chk_match (isFrontier request lm tok) = true ->
            let st' :=
              {| st_tier := FRONTIER;
                 st_confidence := chk_confidence (isFrontier request lm tok);
                 st_reason :=
                   ReasonFrontier (chk_signals (isFrontier request lm tok));
                 st_signals :=
                   st_signals st ++ chk_signals (isFrontier request lm tok)
              |} in
            In (st_confidence st')
               [95#100; 9#10; 85#100; 8#10; 75#100; 7#10]%Q
            /\ st_reason st' <> ReasonDefault
            /\ (forall c, st_reason st' <> ReasonVeryLowConfidence c)
            /\ st_signals st' <> []).
  { intros st Hf. cbn. destruct (isFrontier_levels _ _ Hf) as [Hl Hs].
    repeat split; try discriminate.
    - cbn in Hl. intuition.
    - intros E. apply app_eq_nil in E. now destruct E. }
  unfold modelNameHint.
  destruct (_ || _).
  - (* the model name hint: Heartbeat, then only the frontier rule *)
    unfold heartbeatRule. cbn [st_tier tier_eqb].
    unfold frontierRule. cbn [st_tier tier_eqb orb].
    destruct (chk_match (isFrontier request lm tok)) eqn:Hf;
      rewrite (late_rules_keep request) by (cbn; discriminate).
    + now apply Hfrontier.
    + cbn. repeat split; try discriminate. auto.
  - unfold heartbeatRule. cbn [st_tier tier_eqb initial].
    destruct (chk_match (isHeartbeat lm n b)) eqn:Hh.
    + unfold frontierRule. cbn [st_tier tier_eqb orb].
      destruct (chk_match (isFrontier request lm tok)) eqn:Hf;
        rewrite (late_rules_keep request) by (cbn; discriminate).
      * now apply Hfrontier.
      * cbn. pose proof (isHeartbeat_levels _ _ _ Hh) as Hl.
        repeat split; try discriminate. cbn in Hl. intuition.
    + unfold frontierRule. cbn [st_tier tier_eqb orb].
      destruct (chk_match (isFrontier request lm tok)) eqn:Hf.
      * rewrite (late_rules_keep request) by (cbn; discriminate).
        now apply Hfrontier.
      * unfold complexRule. cbn [st_tier tier_eqb].
        destruct (chk_match (isComplex request lm n tok)) eqn:Hc.
        -- rewrite simpleRule_keeps, moderateRule_keeps
             by (cbn; discriminate).
           cbn. destruct (isComplex_levels _ _ _ Hc) as [Hl Hs].
           repeat split; try discriminate; [|exact Hs].
           cbn in Hl. intuition.
        -- unfold simpleRule. cbn [st_tier tier_eqb].
           destruct (chk_match (isSimple lm n b)) eqn:Hs.
           ++ rewrite moderateRule_keeps by (cbn; discriminate). cbn.
              pose proof (isSimple_levels _ _ _ Hs) as Hl.
              repeat split; try discriminate. cbn in Hl. intuition.
           ++ cbn. repeat split; try discriminate. auto.
Qed.

Lemma Qltb_half (c : Q) :
  In c [95#100; 9#10; 85#100; 8#10; 75#100; 7#10]%Q ->
  Qltb c (5#10) = false.
Proof.
  intros H. cbn in H.
  repeat (destruct H as [<-|H]; [reflexivity|]). destruct H.
Qed.

(** X18.  Every classification carries one of the six confidence levels
    0.95, 0.9, 0.85, 0.8, 0.75 and 0.7. The escalation for a confidence
    below 0.5 therefore never happens, whatever the configuration; and every
    classification records at least one signal and a reason other than the
    initial one. *)
Theorem confidence_levels :
  let result := classifyRequest request config in
  In (confidence result) [95#100; 9#10; 85#100; 8#10; 75#100; 7#10]%Q
  /\ (forall c, reason result <> ReasonVeryLowConfidence c)
  /\ reason result <> ReasonDefault
  /\ signals result <> [].
Proof.
  cbv zeta. unfold classifyRequest.
  cbn [confidence reason signals].
  destruct rules_invariant as (Hl & Hd & Hv & Hs).
  set (st0 := rules request) in *.
  assert (H1 : let st := toolAwareRule config (hasToolsOf request) st0 in
               In (st_confidence st)
                  [95#100; 9#10; 85#100; 8#10; 75#100; 7#10]%Q
               /\ st_reason st <> ReasonDefault
               /\ (forall c, st_reason st <> ReasonVeryLowConfidence c)
               /\ st_signals st <> []).
  { cbv zeta. unfold toolAwareRule.
    destruct (_ && _); [|now repeat split].
    destruct (_ <? _)%nat; [|now repeat split].
    cbn. repeat split; try discriminate.
    - unfold Qmin, GenericMinMax.gmin.
      destruct (_ ?= _)%Q; cbn in Hl; intuition.
    - intros E. apply app_eq_nil in E. destruct E; discriminate. }
  cbv zeta in H1.
  set (st1 := toolAwareRule config (hasToolsOf request) st0) in *.
  clearbody st1. clear Hl Hd Hv Hs. destruct H1 as (Hl & Hd & Hv & Hs).
  unfold conservativeRule.
  destruct (conservativeMode (classification config));
    [|now repeat split].
  assert (H2 : let st := lowConfidenceStep config st1 in
               In (st_confidence st)
                  [95#100; 9#10; 85#100; 8#10; 75#100; 7#10]%Q
               /\ st_reason st <> ReasonDefault
               /\ (forall c, st_reason st <> ReasonVeryLowConfidence c)
               /\ st_signals st <> []).
  { cbv zeta. unfold lowConfidenceStep.
    destruct (Qltb _ _); [|now repeat split].
    destruct (negb _); [|now repeat split].
    cbn. repeat split; try discriminate; [exact Hl|].
    intros E. apply app_eq_nil in E. destruct E; discriminate. }
  cbv zeta in H2. destruct H2 as (Hl2 & Hd2 & Hv2 & Hs2).
  unfold veryLowConfidenceStep.
  rewrite (Qltb_half _ Hl2). cbn [andb]. now repeat split.
Qed.

End Confidence.

Section ShortMessages.

Import Classifier.
Local Open Scope string_scope.

Variable request : ChatCompletionRequest.
Variable config : ClawRouteConfig.

(** X19.  A last user message of fewer than 30 characters in a conversation
    of at most two messages, without tools and without a frontier finding,
    is classified Heartbeat and safe to retry: the heartbeat rule comes
    first, so the acknowledgment and short-question patterns of the Simple
    tier are not consulted for it. Conservative mode is off or its threshold
    is at most 0.8. *)
Theorem short_message_is_heartbeat :
  let msgs := messages request in
  let lastMessage := Utils.getLastUserMessage msgs in
  (Js.length lastMessage < 30)%Z ->
  (List.length msgs <= 2)%nat ->
  hasToolsOf request = false ->
  chk_match (isFrontier request lastMessage
               (Utils.estimateMessagesTokens msgs)) = false ->
  conservativeMode (classification config) = false
  \/ (minConfidence (classification config) <= 8#10)%Q ->
  tier (classifyRequest request config) = HEARTBEAT
  /\ safeToRetry (classifyRequest request config) = true.
Proof.
  cbv zeta. intros Hlen Hcount Htools Hfr Hcons.
  assert (Hrules : st_tier (rules request) = HEARTBEAT
                   /\ (8#10 <= st_confidence (rules request))%Q).
  { rewrite rules_unfold, frontierRule_miss by exact Hfr.
    assert (Hearly :
      st_tier (heartbeatRule (Utils.getLastUserMessage (messages request))
                 (List.length (messages request)) (hasToolsOf request)
                 (modelNameHint request initial)) = HEARTBEAT
      /\ (8#10 <= st_confidence
            (heartbeatRule (Utils.getLastUserMessage (messages request))
               (List.length (messages request)) (hasToolsOf request)
               (modelNameHint request initial)))%Q).
    { unfold modelNameHint, heartbeatRule.
      destruct (_ || _); cbn [st_tier tier_eqb initial];
        [split; [reflexivity | cbn; discriminate]|].
      unfold isHeartbeat. rewrite Htools.
      destruct (anyPattern _ _); cbn;
        [split; [reflexivity | discriminate]|].
      apply Z.ltb_lt in Hlen. rewrite Hlen.
      apply Nat.leb_le in Hcount. rewrite Hcount. cbn.
      split; [reflexivity | discriminate]. }
    destruct Hearly as [Ht Hc].
    rewrite (late_rules_keep request) by (rewrite Ht; discriminate).
    now split. }
  destruct Hrules as [Ht Hc].
  unfold classifyRequest. cbn [tier safeToRetry]. rewrite Htools.
  unfold toolAwareRule. rewrite andb_false_r.
  unfold conservativeRule.
  destruct (conservativeMode (classification config)) eqn:Hm.
  - destruct Hcons as [Hoff|Hmin]; [discriminate|].
    unfold lowConfidenceStep.
    rewrite Qltb_false by (eapply Qle_trans; eassumption).
    unfold veryLowConfidenceStep.
    rewrite Qltb_false by (eapply Qle_trans; [|exact Hc]; discriminate).
    cbn [andb]. rewrite Ht. now split.
  - rewrite Ht. now split.
Qed.

End ShortMessages.

(* ----------------------------------------------------------------- *)
(** ** Executor: what the retry loops maintain *)

Section Coherence.

Import Models Config Router Validator Executor.
Local Open Scope string_scope.
Local Open Scope Z_scope.

Variable P : Platform.
Variable request : ChatCompletionRequest.
Variable routingDecision : RoutingDecision.
Variable config : ClawRouteConfig.

Lemma hasApiKey_truthy (p : ProviderType) :
  hasApiKey config p = Js.truthy (getApiKey config p).
Proof.
  unfold hasApiKey, getApiKey, Js.truthy.
  destruct (apiKeys config p) as [[|c k]|]; reflexivity.
Qed.

(** An upstream call extends the log by at most the call itself, which
    goes to the model asked for and needs its key. *)
Lemma makeProviderRequest_log (modelId : string) (l l' : list Dispatch)
    (r : Thrown + Upstream) :
  makeProviderRequest P modelId config l = (l', r) ->
  (l' = l /\ exists e, r = inl e)
  \/ (exists d, l' = (l ++ [d])%list /\ to d = modelId
              /\ keyed config (to d) = true).
Proof.
  unfold makeProviderRequest.
  destruct (negb (Js.truthy _)) eqn:Hk.
  - intros [= <- <-]. left. eauto.
  - apply negb_false_iff in Hk.
    assert (Hkeyed : forall o,
              keyed config (to {| to := modelId; answer := o |}) = true).
    { intros o. unfold keyed. cbn [to]. now rewrite hasApiKey_truthy. }
    destruct (fetch P _ _ _) as [m|u]; intros [= <- <-]; right; eauto.
Qed.

Lemma coherent_setResponse (r : Response) (st : St) :
  coherent config routingDecision st ->
  coherent config routingDecision (setResponse r (log st) st).
Proof. intros H. exact H. Qed.

Lemma coherent_setValidated (rb : option ChatCompletionResponse)
    (tc : bool) (st : St) :
  coherent config routingDecision st ->
  coherent config routingDecision (setValidated rb tc st).
Proof. intros H. exact H. Qed.

(** The log may grow by a call to the current model. *)
Lemma coherent_call (l : list Dispatch) (r : Thrown + Upstream) (st : St) :
  coherent config routingDecision st ->
  makeProviderRequest P (currentModel st) config (log st) = (l, r) ->
  coherent config routingDecision (setLog l st).
Proof.
  intros (Hhd & Hlast & Hlog & Hesc) Hcall.
  repeat split; cbn [setLog escalationChain currentModel log escalated];
    try assumption.
  apply makeProviderRequest_log in Hcall.
  destruct Hcall as [[-> _]|(d & -> & Hto & Hk)]; [assumption|].
  apply Forall_app. split; [assumption|].
  constructor; [|constructor]. split; [|assumption].
  destruct Hlast as [pre ->]. rewrite Hto. apply in_or_app. right. now left.
Qed.

Lemma coherent_switchTo (st : St) :
  coherent config routingDecision st ->
  coherent config routingDecision
    (switchTo (originalModel routingDecision) st).
Proof.
  intros (Hhd & Hlast & Hlog & Hesc).
  repeat split; cbn [switchTo escalationChain currentModel log escalated].
  - destruct Hhd as [rest ->]. now exists (rest ++ [originalModel routingDecision])%list.
  - now exists (escalationChain st).
  - eapply Forall_impl; [|exact Hlog]. intros d [Hin Hk].
    split; [apply in_or_app; now left | assumption].
  - intros He. apply Forall_app. split; [now apply Hesc|].
    constructor; [now right | constructor].
Qed.

Lemma coherent_escalateTo (e : string * TaskTier) (st : St) :
  coherent config routingDecision st ->
  coherent config routingDecision (escalateTo e st).
Proof.
  intros (Hhd & Hlast & Hlog & Hesc).
  repeat split; cbn [escalateTo escalationChain currentModel log escalated].
  - destruct Hhd as [rest ->]. now exists (rest ++ [fst e])%list.
  - now exists (escalationChain st).
  - eapply Forall_impl; [|exact Hlog]. intros d [Hin Hk].
    split; [apply in_or_app; now left | assumption].
  - discriminate.
Qed.

Lemma coherent_tryEscalate (guard : bool) (st st' : St) :
  coherent config routingDecision st ->
  tryEscalate config guard st = Some st' ->
  coherent config routingDecision st'.
Proof.
  unfold tryEscalate. intros Hc. destruct guard; [|discriminate].
  destruct (getEscalatedModel _ _) as [e|]; [|discriminate].
  intros [= <-]. now apply coherent_escalateTo.
Qed.

Lemma coherent_onThrow (msg : string) (e : Thrown) (st : St) :
  coherent config routingDecision st ->
  coherent config routingDecision
    (after (onThrow P routingDecision config msg e st)).
Proof.
  intros Hc. unfold onThrow.
  destruct (tryEscalate config _ st) as [st'|] eqn:Ht;
    [cbn [after]; eapply coherent_tryEscalate; eassumption|].
  destruct (alwaysFallbackToOriginal (escalation config)); [|exact Hc].
  destruct (makeProviderRequest P _ config _) as [l [e'|u]] eqn:Hcall;
    cbn [after];
    apply (coherent_call _ _ _ (coherent_switchTo _ Hc)) in Hcall;
    exact Hcall.
Qed.

Lemma coherent_onHttpError (msg : string) (guard : bool) (st : St) :
  coherent config routingDecision st ->
  coherent config routingDecision
    (after (onHttpError P routingDecision config msg guard st)).
Proof.
  intros Hc. unfold onHttpError.
  destruct (tryEscalate config guard st) as [st'|] eqn:Ht;
    [cbn [after]; eapply coherent_tryEscalate; eassumption|].
  destruct (_ && _); [|exact Hc].
  destruct (makeProviderRequest P _ config _) as [l [e'|u]] eqn:Hcall;
    apply (coherent_call _ _ _ (coherent_switchTo _ Hc)) in Hcall.
  - now apply coherent_onThrow.
  - exact Hcall.
Qed.

Lemma coherent_nonStreamingPass (st : St) :
  coherent config routingDecision st ->
  coherent config routingDecision
    (after (nonStreamingPass P request routingDecision config st)).
Proof.
  intros Hc. unfold nonStreamingPass.
  destruct (makeProviderRequest P _ config _) as [l [e|u]] eqn:Hcall;
    apply (coherent_call _ _ _ Hc) in Hcall.
  - now apply coherent_onThrow.
  - destruct (ok (received u)).
    + destruct (readText u) as [bodyText|message];
        [|apply coherent_onThrow; exact Hcall].
      assert (Hre : forall rb tc,
                coherent config routingDecision
                  (after (recreate P routingDecision config bodyText
                            (received u) l
                            (setValidated rb tc
                               (setResponse (afterRead (received u)) l
                                  st))))).
      { intros rb tc. unfold recreate.
        destruct (Http.initOk true _); [exact Hcall|].
        apply coherent_onThrow. exact Hcall. }
      destruct (negb (valid _)); [|apply Hre].
      destruct (_ || _); [exact Hcall|].
      destruct (tryEscalate config _ _) as [st'|] eqn:Ht; [|apply Hre].
      cbn [after]. eapply coherent_tryEscalate; [|exact Ht]. exact Hcall.
    + apply coherent_onHttpError. exact Hcall.
Qed.

Lemma coherent_streamingPass (st : St) :
  coherent config routingDecision st ->
  coherent config routingDecision
    (after (streamingPass P routingDecision config st)).
Proof.
  intros Hc. unfold streamingPass.
  destruct (makeProviderRequest P _ config _) as [l [e|u]] eqn:Hcall;
    apply (coherent_call _ _ _ Hc) in Hcall.
  - now apply coherent_onThrow.
  - destruct (ok (received u)); [exact Hcall|].
    apply coherent_onHttpError. exact Hcall.
Qed.

(** Whatever a pass maintains holds when the loop is left. *)
Lemma loop_invariant (I : St -> Prop) (pass : St -> Step) :
  (forall st, I st -> I (after (pass st))) ->
  forall fuel st st',
    I st -> loop config pass fuel st = Some st' -> I st'.
Proof.
  intros Hpass. induction fuel as [|fuel IH]; intros st st' Hi;
    cbn [loop]; destruct (_ <? _); try (intros [= <-]; exact Hi);
    specialize (Hpass st Hi); destruct (pass st) as [s|s];
    cbn [after] in Hpass.
  - discriminate.
  - intros [= <-]. exact Hpass.
  - now apply IH.
  - intros [= <-]. exact Hpass.
Qed.

Lemma coherent_initial :
  coherent config routingDecision (initialSt routingDecision).
Proof.
  repeat split; cbn.
  - now exists [].
  - now exists [].
  - constructor.
  - intros _. constructor; [now left | constructor].
Qed.

(** The state either loop ends in, when [executeRequest] resolves. *)
Lemma executeRequest_final (r : ExecutionResult) :
  outcome (executeRequest P request routingDecision config) = Some r ->
  exists st,
    (if stream request
     then loop config (streamingPass P routingDecision config)
            (fuelFor config (initialSt routingDecision))
            (initialSt routingDecision)
     else loop config (nonStreamingPass P request routingDecision config)
            (fuelFor config (initialSt routingDecision))
            (initialSt routingDecision)) = Some st
    /\ dispatches (executeRequest P request routingDecision config) = log st
    /\ actualModel r = currentModel st
    /\ er_escalated r = escalated st
    /\ er_escalationChain r = escalationChain st
    /\ coherent config routingDecision st.
Proof.
  intros Hr.
  destruct (executeRequest_result P request routingDecision config r Hr)
    as (st & out & i & o & tc & Hf & Hd & ->).
  exists st. split; [exact Hf|]. split; [exact Hd|].
  cbn [actualModel er_escalated er_escalationChain buildExecutionResult].
  assert (Hco : coherent config routingDecision st).
  { unfold finalState in Hf. destruct (stream request).
    - apply (loop_invariant _ _ coherent_streamingPass _ _ _
               coherent_initial Hf).
    - apply (loop_invariant _ _ coherent_nonStreamingPass _ _ _
               coherent_initial Hf). }
  split; [reflexivity|]. split; [reflexivity|].
  split; [reflexivity | exact Hco].
Qed.

(** X20.  The escalation chain of a result opens with the routed model and
    closes with the model that answered; every upstream call went to a model
    of the chain whose provider has a key; and when the result is not marked
    escalated, the chain holds nothing but the routed and the original
    model. *)
Theorem escalation_chain_shape (r : ExecutionResult) :
  outcome (executeRequest P request routingDecision config) = Some r ->
  (exists rest,
     er_escalationChain r = routedModel routingDecision :: rest)
  /\ (exists pre, er_escalationChain r = (pre ++ [actualModel r])%list)
  /\ (forall d,
        In d (dispatches (executeRequest P request routingDecision config))
        -> In (to d) (er_escalationChain r)
           /\ hasApiKey config (getProviderForModel (to d)) = true)
  /\ (er_escalated r = false ->
      forall m, In m (er_escalationChain r) ->
                m = routedModel routingDecision
                \/ m = originalModel routingDecision).
Proof.
  intros Hr.
  destruct (executeRequest_final _ Hr)
    as (st & _ & -> & -> & -> & -> & Hhd & Hlast & Hlog & Hesc).
  repeat split; try assumption.
  - rewrite Forall_forall in Hlog. now apply Hlog.
  - rewrite Forall_forall in Hlog. now apply Hlog.
  - intros He. rewrite <- Forall_forall. now apply Hesc.
Qed.

End Coherence.

Section Attempts.

Import Models Config Router Validator Executor.
Local Open Scope string_scope.
Local Open Scope Z_scope.

Variable P : Platform.
Variable request : ChatCompletionRequest.
Variable routingDecision : RoutingDecision.
Variable config : ClawRouteConfig.

Abbreviation maxR := (effectiveMaxRetries config).
Abbreviation calls st := (List.length (log st)).

Lemma makeProviderRequest_length (modelId : string) (l l' : list Dispatch)
    (r : Thrown + Upstream) :
  makeProviderRequest P modelId config l = (l', r) ->
  (List.length l' <= List.length l + 1)%nat.
Proof.
  intros H. apply (makeProviderRequest_log P config) in H.
  destruct H as [[-> _]|(d & -> & _)]; [lia|].
  rewrite List.length_app. cbn. lia.
Qed.

Lemma tryEscalate_none_again (guard : bool) (st st2 : St) :
  tryEscalate config guard st = None ->
  currentTier st2 = currentTier st ->
  tryEscalate config guard st2 = None.
Proof.
  unfold tryEscalate. intros H Ht. destruct guard; [|reflexivity].
  rewrite Ht. now destruct (getEscalatedModel _ _).
Qed.

(** The [catch] block: no call when it continues, one at most when it
    breaks. *)
Lemma onThrow_calls (msg : string) (e : Thrown) (st : St) :
  let s := onThrow P routingDecision config msg e st in
  (calls (after s) <= calls st + (if continues s then 0 else 1))%nat.
Proof.
  cbv zeta. unfold onThrow.
  destruct (tryEscalate config _ st) as [st'|] eqn:Ht.
  - apply tryEscalate_some in Ht. destruct Ht as (_ & _ & Hl & _).
    cbn. rewrite Hl. lia.
  - destruct (alwaysFallbackToOriginal (escalation config)); [|cbn; lia].
    destruct (makeProviderRequest P _ config _) as [l [e'|u]] eqn:Hcall;
      apply makeProviderRequest_length in Hcall; cbn in *; lia.
Qed.

(** The branch for a response that is not ok: when it continues, it made
    one call at most, and none if its guard is the one of the [catch]
    block; when it breaks, two at most. *)
Lemma onHttpError_calls (msg : string) (guard : bool) (st : St) :
  let s := onHttpError P routingDecision config msg guard st in
  (calls (after s) <= calls st + (if continues s then 1 else 2))%nat
  /\ (guard = retriesRemain config st && rd_safeToRetry routingDecision ->
      continues s = true -> calls (after s) = calls st).
Proof.
  cbv zeta. unfold onHttpError.
  destruct (tryEscalate config guard st) as [st'|] eqn:Ht.
  - apply tryEscalate_some in Ht. destruct Ht as (_ & _ & Hl & _).
    cbn. rewrite Hl. split; [lia | reflexivity].
  - destruct (_ && _); [|cbn; split; [lia | discriminate]].
    destruct (makeProviderRequest P _ config _) as [l [e'|u]] eqn:Hcall;
      pose proof (makeProviderRequest_length _ _ _ _ Hcall) as Hlen;
      cbn in Hlen; [|cbn; split; [lia | discriminate]].
    pose proof (onThrow_calls msg e'
                  (setLog l (switchTo (originalModel routingDecision) st)))
      as Hthrow.
    cbv zeta in Hthrow. cbn [setLog log] in Hthrow.
    split.
    + destruct (continues _); lia.
    + intros Hg Hcont. exfalso. revert Hcont. unfold onThrow.
      subst guard.
      rewrite (tryEscalate_none_again _ st _ Ht) by reflexivity.
      destruct (alwaysFallbackToOriginal (escalation config));
        [|cbn; intros Hx; discriminate Hx].
      match goal with
      | |- context [makeProviderRequest P ?a config ?b] =>
          destruct (makeProviderRequest P a config b) as [l2 [e2|u2]]
      end; cbn; intros Hx; discriminate Hx.
Qed.

Lemma nonStreamingPass_calls (st : St) :
  let s := nonStreamingPass P request routingDecision config st in
  (calls (after s) <= calls st + (if continues s then 1 else 3))%nat.
Proof.
  cbv zeta. unfold nonStreamingPass.
  destruct (makeProviderRequest P _ config _) as [l [e|u]] eqn:Hcall;
    apply makeProviderRequest_length in Hcall.
  - pose proof (onThrow_calls "All models failed" e (setLog l st)) as H.
    cbv zeta in H. cbn [setLog log] in H.
    destruct (continues _); lia.
  - destruct (ok (received u)).
    + assert (Hthrow : forall e st0,
                log st0 = l ->
                (calls (after (onThrow P routingDecision config
                                 "All models failed" e st0))
                 <= calls st
                    + (if continues (onThrow P routingDecision config
                                       "All models failed" e st0)
                       then 1 else 3))%nat).
      { intros e st0 Hl0.
        pose proof (onThrow_calls "All models failed" e st0) as H.
        cbv zeta in H. rewrite Hl0 in H.
        destruct (continues _); lia. }
      destruct (readText u) as [bodyText|message];
        [|apply Hthrow; reflexivity].
      assert (Hre : forall rb tc,
                let s := recreate P routingDecision config bodyText
                           (received u) l
                           (setValidated rb tc
                              (setResponse (afterRead (received u)) l st))
                in
                (calls (after s)
                 <= calls st + (if continues s then 1 else 3))%nat).
      { intros rb tc. cbv zeta. unfold recreate.
        destruct (Http.initOk true _); [cbn; lia|].
        apply Hthrow. reflexivity. }
      destruct (negb (valid _)); [|apply Hre].
      destruct (_ || _); [cbn; lia|].
      destruct (tryEscalate config _ _) as [st'|] eqn:Ht; [|apply Hre].
      apply tryEscalate_some in Ht. destruct Ht as (_ & _ & Hl & _).
      cbn in *. rewrite Hl. lia.
    + destruct (onHttpError_calls "All models failed"
                  (retriesRemain config st
                   && rd_safeToRetry routingDecision)
                  (setResponse (received u) l st)) as [Hb Hc].
      cbv zeta in Hb, Hc. cbn [setResponse log] in Hb, Hc.
      destruct (continues _) eqn:Hk.
      * rewrite Hc by reflexivity. lia.
      * lia.
Qed.

Lemma streamingPass_calls (st : St) :
  let s := streamingPass P routingDecision config st in
  (calls (after s) <= calls st + (if continues s then 2 else 3))%nat.
Proof.
  cbv zeta. unfold streamingPass.
  destruct (makeProviderRequest P _ config _) as [l [e|u]] eqn:Hcall;
    apply makeProviderRequest_length in Hcall.
  - pose proof (onThrow_calls "All models failed to respond" e
                  (setLog l st)) as H.
    cbv zeta in H. cbn [setLog log] in H.
    destruct (continues _); lia.
  - destruct (ok (received u)); [cbn; lia|].
    destruct (onHttpError_calls "All models failed to respond"
                (retriesRemain config st && rd_safeToRetry routingDecision
                 && canEscalate P (currentTier st) config)
                (setResponse (received u) l st)) as [Hb _].
    cbv zeta in Hb. cbn [setResponse log] in Hb.
    destruct (continues _); lia.
Qed.

(** A loop whose passes make [c] calls when they continue and three when
    they break makes [c] calls for each retry left and three more. *)
Lemma loop_calls (pass : St -> Step) (c : nat) :
  goodPass config pass ->
  (forall st, (calls (after (pass st))
               <= calls st + (if continues (pass st) then c else 3))%nat) ->
  forall fuel st st',
    loop config pass fuel st = Some st' ->
    (calls st' <= calls st + c * Z.to_nat (maxR - retryCount st) + 3)%nat.
Proof.
  intros Hgood Hc. induction fuel as [|fuel IH]; intros st st';
    cbn [loop]; destruct (maxR <? retryCount st) eqn:Hm;
    try (intros [= <-]; nia);
    specialize (Hc st); destruct (Hgood st) as [Hcont _];
    destruct (pass st) as [s|s]; cbn [after continues] in *.
  - discriminate.
  - intros [= <-]. nia.
  - intros Hl. apply IH in Hl.
    destruct Hcont as [Hlt Hr]; [reflexivity|]. rewrite Hr in Hl.
    replace (Z.to_nat (maxR - retryCount st))
      with (S (Z.to_nat (maxR - (retryCount st + 1)))) by lia.
    nia.
  - intros [= <-]. nia.
Qed.

(** X21.  The upstream calls of one request are bounded by the retry budget:
    without streaming there are at most three more calls than retries
    allowed, with streaming at most three more than twice as many. The
    budget is [maxRetries] when escalation is enabled and zero otherwise. *)
Theorem upstream_calls_bounded :
  let calls := List.length
                 (dispatches
                    (executeRequest P request routingDecision config)) in
  let budget := Z.max 0 maxR in
  (Z.of_nat calls
   <= (if stream request then 2 * budget else budget) + 3).
Proof.
  cbv zeta. unfold executeRequest.
  destruct (stream request).
  - destruct (loop _ _ _ _) as [st|] eqn:Hl; cbn [dispatches];
      [|cbn [List.length]; lia].
    apply (loop_calls _ 2 (streamingPass_good P routingDecision config)
             streamingPass_calls) in Hl.
    cbn [initialSt log retryCount List.length] in Hl. lia.
  - destruct (loop _ _ _ _) as [st|] eqn:Hl; cbn [dispatches];
      [|cbn [List.length]; lia].
    apply (loop_calls _ 1
             (nonStreamingPass_good P request routingDecision config)
             nonStreamingPass_calls) in Hl.
    cbn [initialSt log retryCount List.length] in Hl. lia.
Qed.

End Attempts.

Section Consent.

Import Models Config Router Validator Executor.
Local Open Scope string_scope.
Local Open Scope Z_scope.

Variable P : Platform.
Variable request : ChatCompletionRequest.
Variable routingDecision : RoutingDecision.
Variable config : ClawRouteConfig.

Hypothesis noConsent :
  rd_safeToRetry routingDecision = false
  \/ esc_enabled (escalation config) = false.

Lemma guard_off (st : St) :
  retriesRemain config st && rd_safeToRetry routingDecision = false.
Proof.
  unfold retriesRemain.
  destruct noConsent as [-> | ->]; [apply andb_false_r | reflexivity].
Qed.

Lemma onThrow_stays (msg : string) (e : Thrown) (st : St) :
  let s := onThrow P routingDecision config msg e st in
  continues s = false /\ escalated (after s) = escalated st.
Proof.
  cbv zeta. unfold onThrow. rewrite guard_off. cbn [tryEscalate].
  destruct (alwaysFallbackToOriginal (escalation config)); [|now split].
  destruct (makeProviderRequest P _ config _) as [l [e'|u]]; now split.
Qed.

Lemma onHttpError_stays (msg : string) (guard : bool) (st : St) :
  guard = false ->
  let s := onHttpError P routingDecision config msg guard st in
  continues s = false /\ escalated (after s) = escalated st.
Proof.
  intros ->. cbv zeta. unfold onHttpError. cbn [tryEscalate].
  destruct (_ && _); [|now split].
  destruct (makeProviderRequest P _ config _) as [l [e'|u]];
    [|now split].
  apply (onThrow_stays msg e'
           (setLog l (switchTo (originalModel routingDecision) st))).
Qed.

Lemma nonStreamingPass_stays (st : St) :
  let s := nonStreamingPass P request routingDecision config st in
  continues s = false /\ escalated (after s) = escalated st.
Proof.
  cbv zeta. unfold nonStreamingPass.
  destruct (makeProviderRequest P _ config _) as [l [e|u]].
  - apply (onThrow_stays _ e (setLog l st)).
  - destruct (ok (received u)).
    + destruct (readText u) as [bodyText|message];
        [|apply (onThrow_stays _ _
                   (setResponse (afterRead (received u)) l st))].
      assert (Hre : forall rb tc,
                let s := recreate P routingDecision config bodyText
                           (received u) l
                           (setValidated rb tc
                              (setResponse (afterRead (received u)) l st))
                in
                continues s = false /\ escalated (after s) = escalated st).
      { intros rb tc. cbv zeta. unfold recreate.
        destruct (Http.initOk true _); [now split|].
        apply (onThrow_stays _ _
                 (setValidated rb tc
                    (setResponse (afterRead (received u)) l st))). }
      destruct (negb (valid _)); [|apply Hre].
      destruct (hadToolCalls _ || negb (rd_safeToRetry routingDecision)
                || negb (onlyRetryWithoutToolCalls (escalation config)))
        eqn:Hor; [now split|].
      assert (Hr : forall st1, retriesRemain config st1 = false).
      { intros st1. unfold retriesRemain.
        destruct noConsent as [Hs|He]; [|now rewrite He].
        rewrite Hs in Hor. cbn in Hor.
        now rewrite orb_true_r in Hor. }
      rewrite Hr. cbn [tryEscalate]. apply Hre.
    + apply (onHttpError_stays _ _ (setResponse (received u) l st)).
      apply guard_off.
Qed.

Lemma streamingPass_stays (st : St) :
  let s := streamingPass P routingDecision config st in
  continues s = false /\ escalated (after s) = escalated st.
Proof.
  cbv zeta. unfold streamingPass.
  destruct (makeProviderRequest P _ config _) as [l [e|u]].
  - apply (onThrow_stays _ e (setLog l st)).
  - destruct (ok (received u)); [now split|].
    apply (onHttpError_stays _ _ (setResponse (received u) l st)).
    now rewrite guard_off.
Qed.

(** A loop whose passes all break makes one pass at most. *)
Lemma loop_once (pass : St -> Step) (fuel : nat) (st st' : St) :
  (forall st, continues (pass st) = false) ->
  loop config pass fuel st = Some st' ->
  st' = st \/ st' = after (pass st).
Proof.
  intros Hb. specialize (Hb st).
  destruct fuel; cbn [loop]; destruct (_ <? _);
    try (intros [= <-]; now left);
    destruct (pass st); try discriminate; intros [= <-]; now right.
Qed.

Lemma single_pass (r : ExecutionResult) :
  outcome (executeRequest P request routingDecision config) = Some r ->
  er_escalated r = false
  /\ (List.length
        (dispatches (executeRequest P request routingDecision config))
      <= 3)%nat.
Proof.
  intros Hr.
  destruct (executeRequest_final P request routingDecision config r Hr)
    as (st & Hl & -> & _ & -> & _).
  destruct (stream request).
  - apply loop_once in Hl; [|intros s; apply streamingPass_stays].
    destruct Hl as [-> | ->]; [split; [reflexivity | cbn; lia]|].
    destruct (streamingPass_stays (initialSt routingDecision)) as [Hc He].
    pose proof (streamingPass_calls P routingDecision config
                  (initialSt routingDecision)) as Hn.
    cbv zeta in Hc, He, Hn. rewrite Hc in Hn. rewrite He.
    split; [reflexivity | cbn in Hn; lia].
  - apply loop_once in Hl; [|intros s; apply nonStreamingPass_stays].
    destruct Hl as [-> | ->]; [split; [reflexivity | cbn; lia]|].
    destruct (nonStreamingPass_stays (initialSt routingDecision))
      as [Hc He].
    pose proof (nonStreamingPass_calls P request routingDecision config
                  (initialSt routingDecision)) as Hn.
    cbv zeta in Hc, He, Hn. rewrite Hc in Hn. rewrite He.
    split; [reflexivity | cbn in Hn; lia].
Qed.

End Consent.

Section NoEscalation.

Import Models Config Router Validator Executor.
Local Open Scope string_scope.

Variable P : Platform.
Variable request : ChatCompletionRequest.
Variable config : ClawRouteConfig.

(** X22.  Without consent there is no escalation: when the routing decision
    is not safe to retry, or escalation is disabled, a request is answered
    in one pass of at most three upstream calls, each to the routed or the
    original model, and the result is not marked escalated. *)
Theorem no_escalation_without_consent (routingDecision : RoutingDecision)
    (r : ExecutionResult) :
  rd_safeToRetry routingDecision = false
  \/ esc_enabled (escalation config) = false ->
  outcome (executeRequest P request routingDecision config) = Some r ->
  er_escalated r = false
  /\ (List.length
        (dispatches (executeRequest P request routingDecision config))
      <= 3)%nat
  /\ (actualModel r = routedModel routingDecision
      \/ actualModel r = originalModel routingDecision)
  /\ forall d,
       In d (dispatches (executeRequest P request routingDecision config))
       -> to d = routedModel routingDecision
          \/ to d = originalModel routingDecision.
Proof.
  intros Hno Hr.
  destruct (single_pass P request routingDecision config Hno r Hr)
    as [Hesc Hlen].
  destruct (executeRequest_final P request routingDecision config r Hr)
    as (st & _ & Hd & Ha & He & Hch & _ & Hlast & Hlog & Hfew).
  rewrite He in Hesc. specialize (Hfew Hesc).
  rewrite Forall_forall in Hfew, Hlog.
  repeat split; try assumption.
  - rewrite He. exact Hesc.
  - rewrite Ha. apply Hfew. destruct Hlast as [pre ->].
    apply in_or_app. right. now left.
  - intros d Hin. rewrite Hd in Hin. apply Hfew. now apply Hlog.
Qed.

(** X23.  From the request to the upstream calls: a request that declares a
    tool is classified, routed and executed without escalation under every
    configuration; each upstream call goes to the routed model or to the
    model the request names. *)
Theorem tool_requests_are_never_escalated (r : ExecutionResult) :
  let cls := Classifier.classifyRequest request config in
  let routingDecision := routeRequest P request cls config in
  let run := executeRequest P request routingDecision config in
  Classifier.hasToolsOf request = true ->
  outcome run = Some r ->
  er_escalated r = false
  /\ forall d, In d (dispatches run) ->
               to d = routedModel routingDecision \/ to d = model request.
Proof.
  cbv zeta. intros Htools Hr.
  set (cls := Classifier.classifyRequest request config) in *.
  set (rd := routeRequest P request cls config) in *.
  assert (Hsafe : rd_safeToRetry rd = false).
  { assert (Hrd : rd_safeToRetry rd = safeToRetry cls).
    { unfold rd, routeRequest.
      destruct (negb (cfg_enabled config)); [reflexivity|].
      destruct (forcedModel config);
        [|destruct (tierRouting P (model request) cls config)
            as [[m0 r0] p0]];
        destruct (dryRun config); reflexivity. }
    rewrite Hrd. unfold cls, Classifier.classifyRequest.
    cbn [safeToRetry]. now rewrite Htools. }
  assert (Horig : originalModel rd = model request).
  { unfold rd, routeRequest.
    destruct (negb (cfg_enabled config)); [reflexivity|].
    destruct (forcedModel config);
      [|destruct (tierRouting P (model request) cls config)
          as [[m0 r0] p0]];
      destruct (dryRun config); reflexivity. }
  destruct (single_pass P request rd config (or_introl Hsafe) r Hr)
    as [Hesc _].
  destruct (executeRequest_final P request rd config r Hr)
    as (st & _ & Hd & _ & He & _ & _ & _ & Hlog & Hfew).
  split; [exact Hesc|].
  rewrite He in Hesc. specialize (Hfew Hesc).
  rewrite Forall_forall in Hfew, Hlog.
  intros d Hin. rewrite Hd in Hin. rewrite <- Horig.
  apply Hfew. now apply Hlog.
Qed.

End NoEscalation.

Section Results.

Import Models Config Router Validator Executor.
Local Open Scope string_scope.
Local Open Scope Z_scope.

Variable P : Platform.
Variable request : ChatCompletionRequest.
Variable routingDecision : RoutingDecision.
Variable config : ClawRouteConfig.

Lemma tryEscalate_hadToolCalls (guard : bool) (st st' : St) :
  tryEscalate config guard st = Some st' ->
  st_hadToolCalls st' = st_hadToolCalls st.
Proof.
  unfold tryEscalate. destruct guard; [|discriminate].
  destruct (getEscalatedModel _ _); [|discriminate].
  now intros [= <-].
Qed.

Lemma onThrow_hadToolCalls (msg : string) (e : Thrown) (st : St) :
  st_hadToolCalls (after (onThrow P routingDecision config msg e st))
  = st_hadToolCalls st.
Proof.
  unfold onThrow.
  destruct (tryEscalate config _ st) as [st'|] eqn:Ht;
    [now apply tryEscalate_hadToolCalls in Ht|].
  destruct (alwaysFallbackToOriginal (escalation config)); [|reflexivity].
  destruct (makeProviderRequest P _ config _) as [l [e'|u]]; reflexivity.
Qed.

Lemma onHttpError_hadToolCalls (msg : string) (guard : bool) (st : St) :
  st_hadToolCalls (after (onHttpError P routingDecision config msg guard st))
  = st_hadToolCalls st.
Proof.
  unfold onHttpError.
  destruct (tryEscalate config guard st) as [st'|] eqn:Ht;
    [now apply tryEscalate_hadToolCalls in Ht|].
  destruct (_ && _); [|reflexivity].
  destruct (makeProviderRequest P _ config _) as [l [e'|u]];
    [|reflexivity].
  now rewrite onThrow_hadToolCalls.
Qed.

Lemma streamingPass_hadToolCalls (st : St) :
  st_hadToolCalls st = false ->
  st_hadToolCalls (after (streamingPass P routingDecision config st))
  = false.
Proof.
  intros H. unfold streamingPass.
  destruct (makeProviderRequest P _ config _) as [l [e|u]].
  - now rewrite onThrow_hadToolCalls.
  - destruct (ok (received u)); [exact H|].
    now rewrite onHttpError_hadToolCalls.
Qed.

(** X24.  The result of a streamed request is built before any of the stream
    is read: its input tokens are the estimate for the request, its output
    tokens are zero, it reports no tool calls, and its cost is that of the
    input estimate alone. *)
Theorem streamed_result_is_an_estimate (r : ExecutionResult) :
  stream request = true ->
  outcome (executeRequest P request routingDecision config) = Some r ->
  inputTokens r = Utils.estimateMessagesTokens (messages request)
  /\ outputTokens r = 0
  /\ er_hadToolCalls r = false
  /\ actualCostUsd r
     = calculateCost (actualModel r)
         (Utils.estimateMessagesTokens (messages request)) 0.
Proof.
  intros Hs. unfold executeRequest. rewrite Hs.
  destruct (loop _ _ _ _) as [st|] eqn:Hl; cbn [outcome]; [|discriminate].
  apply (loop_invariant config (fun st => st_hadToolCalls st = false) _
           streamingPass_hadToolCalls) in Hl; [|reflexivity].
  unfold finishStreaming. destruct (response st) as [resp|];
    [|discriminate].
  destruct (ok resp && Http.hasBody resp).
  - destruct (streamHeaders st) as [hs|]; [|discriminate].
    destruct (Http.initOk true (status resp)); [|discriminate].
    intros [= <-]. cbn. now rewrite Hl.
  - intros [= <-]. cbn. now rewrite Hl.
Qed.

Lemma sameName_refl (a : string) : Http.sameName a a = true.
Proof. apply String.eqb_refl. Qed.

Lemma sameName_trans (a b c : string) :
  Http.sameName a b = true -> Http.sameName b c = Http.sameName a c.
Proof.
  unfold Http.sameName. intros H. apply String.eqb_eq in H. now rewrite H.
Qed.

Lemma filter_none {A} (p : A -> bool) (l : list A) :
  filter p (filter (fun x => negb (p x)) l) = [].
Proof.
  induction l as [|x l IH]; [reflexivity|]. cbn [filter].
  destruct (p x) eqn:E; cbn [negb filter]; [exact IH | now rewrite E].
Qed.

(** After a [set], the list holds the name once, with the value. *)
Lemma setIn_same (name value : string) (hs : list (string * string)) :
  map snd (filter (Http.named name) (Http.setIn name value hs)) = [value].
Proof.
  induction hs as [|h hs IH]; cbn [Http.setIn].
  - cbn [filter]. unfold Http.named at 1. cbn [fst].
    now rewrite sameName_refl.
  - destruct (Http.named name h) eqn:E; cbn [filter].
    + unfold Http.named at 1. cbn [fst].
      unfold Http.named in E. rewrite E. cbn [map snd].
      now rewrite filter_none.
    + rewrite E. exact IH.
Qed.

(** A [set] leaves the headers of other names as they are. *)
Lemma setIn_other (name key value : string)
    (hs : list (string * string)) :
  Http.sameName name key = false ->
  filter (Http.named key) (Http.setIn name value hs)
  = filter (Http.named key) hs.
Proof.
  intros Hne.
  assert (Hx : forall x, Http.named name x = true ->
                         Http.named key x = false).
  { intros x Hn. unfold Http.named in *.
    now rewrite <- (sameName_trans _ _ key Hn). }
  induction hs as [|h hs IH]; cbn [Http.setIn].
  - cbn [filter]. unfold Http.named at 1. cbn [fst]. now rewrite Hne.
  - destruct (Http.named name h) eqn:E; cbn [filter].
    + rewrite (Hx h E). unfold Http.named at 1. cbn [fst].
      unfold Http.named in E. rewrite <- (sameName_trans _ _ key E), Hne.
      clear IH. induction hs as [|x hs IH]; [reflexivity|].
      cbn [filter]. destruct (Http.named name x) eqn:Ex; cbn [negb].
      * rewrite (Hx x Ex). exact IH.
      * cbn [filter]. now rewrite IH.
    + now rewrite IH.
Qed.

(** X25.  The response of a request that is not streamed names the route
    exactly once: whatever headers the upstream sent, the result has one
    model header, whose value is the name of the model that answered
    without leading and trailing whitespace, one tier header and one
    escalation header, with the flag of the result. *)
Theorem route_headers_are_unique (r : ExecutionResult) :
  stream request = false ->
  outcome (executeRequest P request routingDecision config) = Some r ->
  let values name :=
    map snd (filter (Http.named name) (headers (er_response r))) in
  (exists v, Http.headerValue (actualModel r) = Some v
             /\ values "X-ClawRoute-Model" = [v])
  /\ (exists t, values "X-ClawRoute-Tier" = [tierName t])
  /\ values "X-ClawRoute-Escalated" = [boolName (er_escalated r)].
Proof.
  intros Hs. unfold executeRequest. rewrite Hs.
  destruct (loop _ _ _ _) as [st|] eqn:Hl; cbn [outcome]; [|discriminate].
  unfold finishNonStreaming. destruct (response st) as [resp|];
    [|discriminate].
  destruct (match responseBody st with
            | Some {| usage := Some u |} => _
            | _ => _ end) as [i o].
  unfold routeHeaders, setHeader.
  destruct (Http.headerValue (currentModel st)) as [v|] eqn:Hv;
    [|discriminate].
  assert (Ht : Http.headerValue (tierName (currentTier st))
               = Some (tierName (currentTier st)))
    by (destruct (currentTier st); reflexivity).
  assert (He : Http.headerValue (boolName (escalated st))
               = Some (boolName (escalated st)))
    by (destruct (escalated st); reflexivity).
  rewrite Ht, He.
  destruct (_ && _); [|discriminate].
  intros [= <-].
  cbn [er_response buildExecutionResult headers actualModel er_escalated].
  split; [|split].
  - exists v. split; [exact Hv|].
    rewrite !setIn_other by reflexivity. apply setIn_same.
  - exists (currentTier st).
    rewrite setIn_other by reflexivity. apply setIn_same.
  - apply setIn_same.
Qed.

End Results.

Section Passthrough.

Import Models Config Router Validator Executor.
Local Open Scope string_scope.
Local Open Scope Z_scope.

Variable P : Platform.
Variable request : ChatCompletionRequest.
Variable config : ClawRouteConfig.

(** X26.  Passing a request through calls the model it names and no other,
    at most once. It calls nothing exactly when the provider of that model
    has no key, and then answers with status 500; when the call returns,
    status and body of the upstream are handed on, and when it throws the
    answer has status 500. *)
Theorem passthrough_calls_once :
  let run := executePassthrough P request config in
  let provider := getProviderForModel (model request) in
  (hasApiKey config provider = false ->
   fst run = [] /\ status (snd run) = 500)
  /\ (hasApiKey config provider = true ->
      exists o,
        fst run = [{| to := model request; answer := o |}]
        /\ match o with
           | FetchReturns u => snd run = received u
           | FetchThrows m => snd run = createErrorResponse m
           end).
Proof.
  cbv zeta. unfold executePassthrough, makeProviderRequest.
  rewrite hasApiKey_truthy.
  destruct (Js.truthy _); cbn [negb]; split; try discriminate.
  - intros _. destruct (fetch P _ _ _) as [m|u] eqn:Hf.
    + exists (FetchThrows m). now split.
    + exists (FetchReturns u). now split.
  - intros _. now split.
Qed.

End Passthrough.

(* ----------------------------------------------------------------- *)
(** ** Stream pump: the statistics do not depend on the chunking *)

Section PumpFacts.

Import Streaming.
Local Open Scope string_scope.
Local Open Scope Z_scope.

Variable parse : string -> option StreamChunk.

Lemma last_app_right {A} (l l' : list A) (d : A) :
  l' <> [] -> last (l ++ l') d = last l' d.
Proof.
  intros Hne. induction l as [|x l IH]; [reflexivity|].
  cbn [app last]. destruct (l ++ l')%list eqn:E; [|exact IH].
  apply app_eq_nil in E. destruct E. contradiction.
Qed.

Lemma split_app (c : ascii) (x y : string) :
  Js.split c (x ++ y)
  = (removelast (Js.split c x)
     ++ Js.split c (last (Js.split c x) "" ++ y))%list.
Proof.
  induction x as [|a t IH]; [reflexivity|].
  change (String a t ++ y) with (String a (t ++ y)).
  cbn [Js.split]. rewrite IH. clear IH.
  pose proof (split_not_nil c t) as Hne.
  destruct (Ascii.eqb a c) eqn:Ha.
  - destruct (Js.split c t) as [|p ps]; [contradiction|]. reflexivity.
  - destruct (Js.split c t) as [|p [|p' ps']]; [contradiction| |].
    + cbn [removelast last app].
      change (String a p ++ y) with (String a (p ++ y)).
      cbn [Js.split]. now rewrite Ha.
    + reflexivity.
Qed.

Lemma split_last_clean (c : ascii) (s : string) :
  Js.split c (last (Js.split c s) "") = [last (Js.split c s) ""].
Proof.
  induction s as [|a t IH]; [reflexivity|]. cbn [Js.split].
  pose proof (split_not_nil c t) as Hne.
  destruct (Ascii.eqb a c) eqn:Ha.
  - destruct (Js.split c t) as [|p ps]; [contradiction|]. exact IH.
  - destruct (Js.split c t) as [|p [|p' ps']]; [contradiction| |].
    + cbn [last] in *. cbn [Js.split]. rewrite Ha, IH. reflexivity.
    + exact IH.
Qed.

Lemma processLines_app (l1 l2 : list string) (r : StreamResult) :
  processLines parse (l1 ++ l2) r
  = processLines parse l2 (processLines parse l1 r).
Proof. apply fold_left_app. Qed.

(** A line that is blank once trimmed changes nothing. *)
Lemma processSSELine_blank (line : string) (r : StreamResult) :
  Js.truthy (Js.trim line) = false -> processSSELine parse line r = r.
Proof.
  unfold Js.truthy, processSSELine. intros H.
  apply negb_false_iff, isEmpty_true in H. now rewrite H.
Qed.

(** The text read so far. *)
Lemma pump_state (chunks : list string) :
  let text := fold_right append "" chunks in
  let p := fold_left (fun p value => onChunk parse value p) chunks start in
  written p = chunks
  /\ buffer p = last (Js.split Js.lf text) ""
  /\ chunkCount p = Z.of_nat (List.length chunks)
  /\ result p
     = processLines parse (removelast (Js.split Js.lf text)) emptyResult.
Proof.
  cbv zeta.
  assert (Hgen : forall p0 text0,
            buffer p0 = last (Js.split Js.lf text0) "" ->
            result p0
            = processLines parse (removelast (Js.split Js.lf text0))
                emptyResult ->
            let p := fold_left (fun p value => onChunk parse value p)
                       chunks p0 in
            let text := text0 ++ fold_right append "" chunks in
            written p = (written p0 ++ chunks)%list
            /\ buffer p = last (Js.split Js.lf text) ""
            /\ chunkCount p = chunkCount p0 + Z.of_nat (List.length chunks)
            /\ result p
               = processLines parse (removelast (Js.split Js.lf text))
                   emptyResult).
  { induction chunks as [|v vs IH]; intros p0 text0 Hb Hr; cbv zeta.
    - cbn [fold_left fold_right List.length]. rewrite append_empty_r.
      rewrite app_nil_r. repeat split; try assumption. lia.
    - cbn [fold_left fold_right].
      specialize (IH (onChunk parse v p0) (text0 ++ v)).
      cbv zeta in IH. rewrite <- append_assoc.
      destruct IH as (Hw & Hbuf & Hn & Hres).
      + cbn [onChunk buffer]. rewrite Hb, (split_app Js.lf text0 v).
        pose proof (split_not_nil Js.lf
                      (last (Js.split Js.lf text0) "" ++ v)) as Hne.
        now rewrite last_app_right by exact Hne.
      + cbn [onChunk result]. rewrite Hb, Hr, (split_app Js.lf text0 v).
        pose proof (split_not_nil Js.lf
                      (last (Js.split Js.lf text0) "" ++ v)) as Hne.
        rewrite removelast_app by exact Hne.
        now rewrite processLines_app.
      + repeat split; try assumption.
        * rewrite Hw. cbn [onChunk written]. now rewrite <- app_assoc.
        * rewrite Hn. cbn [onChunk chunkCount List.length]. lia. }
  apply (Hgen start ""); reflexivity.
Qed.

(** When the reader is done, the result is that of the lines of the
    whole text. *)
Lemma pump_seen (chunks : list string) (doneWritten : bool) :
  result (onEnding parse Done doneWritten
            (fold_left (fun p value => onChunk parse value p) chunks start))
  = processLines parse (Js.split Js.lf (fold_right append "" chunks))
      emptyResult.
Proof.
  destruct (pump_state chunks) as (_ & Hb & _ & Hr). cbv zeta in *.
  set (p := fold_left (fun p value => onChunk parse value p) chunks start)
    in *.
  set (text := fold_right append "" chunks) in *.
  cbn [onEnding result].
  pose proof (split_not_nil Js.lf text) as Hne.
  rewrite (app_removelast_last "" Hne) at 1.
  rewrite processLines_app, <- Hr, <- Hb. cbn [processLines fold_left].
  destruct (Js.truthy (Js.trim (buffer p))) eqn:Ht.
  - unfold processSSEBuffer. rewrite Hb, split_last_clean. reflexivity.
  - now rewrite processSSELine_blank.
Qed.

(** X28.  What a stream that ends normally yields depends on its text alone,
    not on how the text was cut into chunks: every chunk is written as it
    came, and the statistics are those of the lines of the whole text. Only
    the fallback for the output tokens, used when no usage was seen, counts
    the chunks. *)
Theorem pipeStream_chunking (chunks : list string) (doneWritten : bool) :
  let text := fold_right append "" chunks in
  let seen := processLines parse (Js.split Js.lf text) emptyResult in
  let n := Z.of_nat (List.length chunks) in
  pipeStream parse (Some (chunks, Done)) doneWritten
  = (chunks,
     if (sr_outputTokens seen =? 0) && (0 <? n)
     then {| sr_inputTokens := sr_inputTokens seen;
             sr_outputTokens := (3 * n + 1) / 2;
             sr_hadToolCalls := sr_hadToolCalls seen;
             sr_error := sr_error seen |}
     else seen).
Proof.
  cbv zeta. unfold pipeStream, estimateOutput.
  rewrite pump_seen.
  destruct (pump_state chunks) as (Hw & _ & Hn & _). cbv zeta in *.
  cbn [onEnding written chunkCount]. now rewrite Hw, Hn.
Qed.

End PumpFacts.

Section PumpResults.

Import Streaming.
Local Open Scope string_scope.
Local Open Scope Z_scope.

Variable parse : string -> option StreamChunk.

Lemma processSSELine_error (line : string) (r : StreamResult) :
  sr_error (processSSELine parse line r) = sr_error r.
Proof.
  unfold processSSELine.
  destruct (negb _); [reflexivity|].
  destruct (String.eqb _ _); [reflexivity|].
  destruct (parse _) as [parsed|]; [|reflexivity].
  now destruct (sc_usage parsed).
Qed.

Lemma processLines_error (lines : list string) (r : StreamResult) :
  sr_error (processLines parse lines r) = sr_error r.
Proof.
  revert r. induction lines as [|l ls IH]; intros r; [reflexivity|].
  change (processLines parse (l :: ls) r)
    with (processLines parse ls (processSSELine parse l r)).
  now rewrite IH, processSSELine_error.
Qed.

Lemma pump_error (chunks : list string) (p : Pump) :
  sr_error (result (fold_left (fun p value => onChunk parse value p)
                      chunks p))
  = sr_error (result p).
Proof.
  revert p. induction chunks as [|v vs IH]; intros p; [reflexivity|].
  cbn [fold_left]. rewrite IH. cbn [onChunk result].
  apply processLines_error.
Qed.

Lemma pump_written (chunks : list string) (p : Pump) :
  written (fold_left (fun p value => onChunk parse value p) chunks p)
  = (written p ++ chunks)%list.
Proof.
  revert p. induction chunks as [|v vs IH]; intros p;
    [now rewrite app_nil_r|].
  cbn [fold_left]. rewrite IH. cbn [onChunk written].
  now rewrite <- app_assoc.
Qed.

Lemma estimateOutput_error (p : Pump) :
  sr_error (estimateOutput p) = sr_error (result p).
Proof. unfold estimateOutput. now destruct (_ && _). Qed.

(** X29.  The pump reports an error exactly when there is no body or the
    reading or writing failed, and then with the message of the failure.
    Every chunk read before is on the client's side, in order, followed by
    the closing frame when that could still be written. *)
Theorem pipeStream_reports_failure (body : option (list string * Ending))
    (doneWritten : bool) :
  let out := pipeStream parse body doneWritten in
  match body with
  | None =>
      fst out = [] /\ sr_error (snd out) = Some "No response body"
  | Some (chunks, Done) =>
      fst out = chunks /\ sr_error (snd out) = None
  | Some (chunks, Failed m) =>
      fst out = (if doneWritten then chunks ++ [doneFrame] else chunks)%list
      /\ sr_error (snd out) = Some m
  end.
Proof.
  cbv zeta. destruct body as [[chunks [|m]]|]; cbn [pipeStream fst snd].
  - rewrite estimateOutput_error. cbn [onEnding written result].
    rewrite pump_written. split; [reflexivity|].
    destruct (Js.truthy _).
    + unfold processSSEBuffer. now rewrite processLines_error, pump_error.
    + now rewrite pump_error.
  - rewrite estimateOutput_error. cbn [onEnding written result].
    rewrite pump_written. split; [now destruct doneWritten | reflexivity].
  - now split.
Qed.

(** A stream of at least one chunk never reports zero output tokens: when
    no usage was seen, the count is estimated from the chunks. *)
Theorem stream_output_is_counted (chunks : list string) (e : Ending)
    (doneWritten : bool) :
  chunks <> [] ->
  sr_outputTokens (snd (pipeStream parse (Some (chunks, e)) doneWritten))
  <> 0.
Proof.
  intros Hne. cbn [pipeStream snd]. unfold estimateOutput.
  set (p0 := fold_left (fun p value => onChunk parse value p) chunks start).
  assert (Hn : chunkCount (onEnding parse e doneWritten p0)
               = Z.of_nat (List.length chunks)).
  { destruct (pump_state parse chunks) as (_ & _ & Hc & _).
    cbv zeta in Hc. fold p0 in Hc. now destruct e. }
  destruct (sr_outputTokens _ =? 0) eqn:Hz; cbn [andb].
  - rewrite Hn. destruct chunks as [|v vs]; [contradiction|].
    cbn [List.length]. 
    destruct (0 <? Z.of_nat (S (List.length vs))) eqn:Hpos;
      [|apply Z.ltb_ge in Hpos; lia].
    cbn [sr_outputTokens].
    assert (1 <= (3 * Z.of_nat (S (List.length vs)) + 1) / 2)
      by (apply Z.div_le_lower_bound; lia).
    lia.
  - now apply Z.eqb_neq in Hz.
Qed.

End PumpResults.

Section PumpToolCalls.

Import Streaming.
Local Open Scope string_scope.
Local Open Scope Z_scope.

Variable parse : string -> option StreamChunk.

(** The line is a data frame other than the closing one whose payload
    parses to a chunk with at least one tool call. *)
Let carries (line : string) : Prop :=
  let trimmed := Js.trim line in
  let data := Js.trim (Js.drop 5 trimmed) in
  Js.startsWith "data:" trimmed = true
  /\ data <> "[DONE]"
  /\ exists parsed n,
       parse data = Some parsed
       /\ sc_tool_calls parsed = Some n /\ (0 < n)%nat.

Lemma processSSELine_toolCalls (line : string) (r : StreamResult) :
  sr_hadToolCalls (processSSELine parse line r) = true
  <-> sr_hadToolCalls r = true \/ carries line.
Proof.
  unfold carries, processSSELine.
  destruct (Js.startsWith "data:" (Js.trim line)); cbn [negb];
    [|split; [auto | intros [H|[H _]]; [exact H | discriminate]]].
  destruct (String.eqb_spec (Js.trim (Js.drop 5 (Js.trim line))) "[DONE]")
    as [He|He];
    [split; [auto | intros [H|(_ & H & _)]; [exact H | contradiction]]|].
  destruct (parse _) as [parsed|];
    [|split; [auto | intros [H|(_ & _ & p & n & H & _)];
                       [exact H | discriminate]]].
  assert (Htc : (match sc_tool_calls parsed with
                 | Some n => if (0 <? n)%nat then true
                             else sr_hadToolCalls r
                 | None => sr_hadToolCalls r
                 end) = true
                <-> sr_hadToolCalls r = true
                    \/ exists n, sc_tool_calls parsed = Some n
                                 /\ (0 < n)%nat).
  { destruct (sc_tool_calls parsed) as [n|].
    - destruct (Nat.ltb_spec 0 n).
      + split; [intros _; right; eauto | reflexivity].
      + split; [auto|]. intros [H0|(n' & [= <-] & Hn)]; [exact H0 | lia].
    - split; [auto|]. intros [H0|(n' & Hn & _)]; [exact H0 | discriminate]. }
  destruct (sc_usage parsed); cbn [sr_hadToolCalls]; rewrite Htc; split.
  - intros [H|(n & Hn & Hpos)]; [now left|].
    right. split; [reflexivity|]. split; [exact He|]. eauto.
  - intros [H|(_ & _ & p & n & [= <-] & Hn & Hpos)]; [now left|].
    right. eauto.
  - intros [H|(n & Hn & Hpos)]; [now left|].
    right. split; [reflexivity|]. split; [exact He|]. eauto.
  - intros [H|(_ & _ & p & n & [= <-] & Hn & Hpos)]; [now left|].
    right. eauto.
Qed.

Lemma processLines_toolCalls (lines : list string) (r : StreamResult) :
  sr_hadToolCalls (processLines parse lines r) = true
  <-> sr_hadToolCalls r = true \/ exists line, In line lines /\ carries line.
Proof.
  revert r. induction lines as [|l ls IH]; intros r.
  - cbn. split; [auto | intros [H|(x & [] & _)]; exact H].
  - change (processLines parse (l :: ls) r)
      with (processLines parse ls (processSSELine parse l r)).
    rewrite IH, processSSELine_toolCalls. split.
    + intros [[H|H]|(x & Hin & Hx)]; [now left | |].
      * right. exists l. split; [now left | exact H].
      * right. exists x. split; [now right | exact Hx].
    + intros [H|(x & [<-|Hin] & Hx)]; [now left; left | now left; right|].
      right. eauto.
Qed.

(** X30.  A stream that ends normally reports tool calls exactly when some
    line of its text is a data frame, other than the closing one, whose
    payload parses to a chunk with a non-empty list of tool calls. *)
Theorem stream_tool_calls_seen (chunks : list string)
    (doneWritten : bool) :
  sr_hadToolCalls
    (snd (pipeStream parse (Some (chunks, Done)) doneWritten)) = true
  <-> exists line,
        In line (Js.split Js.lf (fold_right append "" chunks))
        /\ Js.startsWith "data:" (Js.trim line) = true
        /\ Js.trim (Js.drop 5 (Js.trim line)) <> "[DONE]"
        /\ exists parsed n,
             parse (Js.trim (Js.drop 5 (Js.trim line))) = Some parsed
             /\ sc_tool_calls parsed = Some n /\ (0 < n)%nat.
Proof.
  cbn [pipeStream snd].
  assert (Hsame : forall p, sr_hadToolCalls (estimateOutput p)
                            = sr_hadToolCalls (result p)).
  { intros p. unfold estimateOutput. now destruct (_ && _). }
  rewrite Hsame, pump_seen, processLines_toolCalls.
  cbn [emptyResult sr_hadToolCalls].
  split.
  - intros [Hf|(line & Hin & Hc)]; [discriminate|]. exists line. now split.
  - intros (line & Hin & Hc). right. exists line. now split.
Qed.

End PumpToolCalls.

(* ----------------------------------------------------------------- *)
(** ** Configuration: the views of the API keys *)

Section Keys.

Import Config.
Local Open Scope string_scope.

Variable config : ClawRouteConfig.

Lemma provider_cases (p : ProviderType) :
  In p [anthropic; openai; google; deepseek; openrouter].
Proof. destruct p; cbn; auto 6. Qed.

(** X9.  The views of the API keys agree. Some key is configured exactly
    when [hasApiKey] holds of some provider; a provider has a key exactly
    when [getApiKey] gives a non-empty string; and the redacted
    configuration shows the same providers as configured while no key is
    left in it: it reads [REDACTED] for a provider with a key and is empty
    for any other. *)
Theorem api_key_views_agree (p : ProviderType) :
  (hasAnyApiKey (apiKeys config) = true
   <-> exists q, hasApiKey config q = true)
  /\ hasApiKey config p = Js.truthy (getApiKey config p)
  /\ getApiKey (getRedactedConfig config) p
     = (if hasApiKey config p then "[REDACTED]" else "")
  /\ hasApiKey (getRedactedConfig config) p = hasApiKey config p.
Proof.
  split; [|split; [apply hasApiKey_truthy|]].
  - unfold hasAnyApiKey. rewrite existsb_exists. split.
    + intros (q & _ & Hq). exists q. unfold hasApiKey.
      destruct (apiKeys config q) as [key|]; [|discriminate].
      now apply andb_true_iff in Hq.
    + intros (q & Hq). exists q. split; [apply provider_cases|].
      unfold hasApiKey in Hq.
      destruct (apiKeys config q) as [[|c key]|]; try discriminate.
      reflexivity.
  - unfold hasApiKey, getApiKey, getRedactedConfig, redactedKeys.
    cbn [apiKeys].
    destruct (apiKeys config p) as [[|c key]|]; now split.
Qed.

End Keys.

(* ----------------------------------------------------------------- *)
(** ** Catalog: tool capability *)

Section Capability.

Import Models.
Local Open Scope string_scope.

(** X8.  One entry of the catalog lacks tool calling. A model id counts as
    not tool-capable exactly when the catalog lookup, fuzzy as it is, lands
    on that entry; an id the catalog does not know counts as capable. *)
Theorem isToolCapable_exception (modelId : string) :
  (isToolCapable modelId = false
   <-> option_map id (getModelEntry modelId)
       = Some "google/gemini-2.5-flash-lite")
  /\ (getModelEntry modelId = None -> isToolCapable modelId = true).
Proof.
  unfold isToolCapable.
  destruct (getModelEntry modelId) as [e|] eqn:He;
    [|split; [split; discriminate | reflexivity]].
  split; [|discriminate].
  apply getModelEntry_in in He. cbn [option_map].
  repeat (destruct He as [<-|He];
          [cbn; split; (reflexivity || discriminate)|]).
  destruct He.
Qed.

End Capability.

(* ----------------------------------------------------------------- *)
(** ** The system prompt *)

Section SystemPrompt.

Import Utils.
Local Open Scope string_scope.

(** [getSystemPrompt] looks at the first system message only: it returns
    its content when that is a string and the empty string when it is a
    list of parts, whatever system messages follow; without a system
    message it returns the empty string. *)
Theorem getSystemPrompt_first (pre post : list ChatMessage)
    (m : ChatMessage) :
  (forall m', In m' pre -> role m' <> RoleSystem) ->
  (role m = RoleSystem ->
   getSystemPrompt (pre ++ m :: post)
   = match content m with ContentString s => s | _ => "" end)
  /\ getSystemPrompt pre = "".
Proof.
  intros Hpre. unfold getSystemPrompt.
  assert (Hfind : forall rest,
            find (fun m0 => match role m0 with
                            | RoleSystem => true | _ => false end)
                 (pre ++ rest)
            = find (fun m0 => match role m0 with
                              | RoleSystem => true | _ => false end) rest).
  { intros rest. induction pre as [|x xs IH]; [reflexivity|].
    cbn [app find].
    assert (Hx : role x <> RoleSystem) by (apply Hpre; now left).
    destruct (role x); try contradiction;
      apply IH; intros m' Hin; apply Hpre; now right. }
  split.
  - intros Hm. rewrite Hfind. cbn [find]. now rewrite Hm.
  - specialize (Hfind []). rewrite app_nil_r in Hfind. now rewrite Hfind.
Qed.

End SystemPrompt.

(* ----------------------------------------------------------------- *)
(** ** Executor: the routed model is tried first *)

Section FirstCall.

Import Models Config Router Validator Executor.
Local Open Scope string_scope.
Local Open Scope Z_scope.

Variable P : Platform.
Variable request : ChatCompletionRequest.
Variable routingDecision : RoutingDecision.
Variable config : ClawRouteConfig.

Abbreviation maxR := (effectiveMaxRetries config).

Lemma makeProviderRequest_prefix (modelId : string) (l l' : list Dispatch)
    (r : Thrown + Upstream) :
  makeProviderRequest P modelId config l = (l', r) ->
  exists ext, l' = (l ++ ext)%list.
Proof.
  intros H. apply (makeProviderRequest_log P config) in H.
  destruct H as [[-> _]|(d & -> & _)]; [exists []; now rewrite app_nil_r|].
  now exists [d].
Qed.

Lemma onThrow_prefix (msg : string) (e : Thrown) (st : St) :
  exists ext,
    log (after (onThrow P routingDecision config msg e st))
    = (log st ++ ext)%list.
Proof.
  unfold onThrow.
  destruct (tryEscalate config _ st) as [st'|] eqn:Ht.
  - apply tryEscalate_some in Ht. destruct Ht as (_ & _ & Hl & _).
    exists []. cbn [after]. now rewrite Hl, app_nil_r.
  - destruct (alwaysFallbackToOriginal (escalation config));
      [|exists []; cbn; now rewrite app_nil_r].
    destruct (makeProviderRequest P _ config _) as [l [e'|u]] eqn:Hcall;
      apply makeProviderRequest_prefix in Hcall; exact Hcall.
Qed.

Lemma onHttpError_prefix (msg : string) (guard : bool) (st : St) :
  exists ext,
    log (after (onHttpError P routingDecision config msg guard st))
    = (log st ++ ext)%list.
Proof.
  unfold onHttpError.
  destruct (tryEscalate config guard st) as [st'|] eqn:Ht.
  - apply tryEscalate_some in Ht. destruct Ht as (_ & _ & Hl & _).
    exists []. cbn [after]. now rewrite Hl, app_nil_r.
  - destruct (_ && _); [|exists []; cbn; now rewrite app_nil_r].
    destruct (makeProviderRequest P _ config _) as [l [e'|u]] eqn:Hcall;
      apply makeProviderRequest_prefix in Hcall; [|exact Hcall].
    destruct Hcall as [ext1 Hl]. cbn [switchTo log] in Hl.
    destruct (onThrow_prefix msg e'
                (setLog l (switchTo (originalModel routingDecision) st)))
      as [ext2 H2].
    exists (ext1 ++ ext2)%list. rewrite H2. cbn [setLog log].
    now rewrite Hl, app_assoc.
Qed.

(** A pass whose model has a key starts with a call to that model. *)
Lemma makeProviderRequest_keyed (modelId : string) (l : list Dispatch) :
  keyed config modelId = true ->
  exists o r,
    makeProviderRequest P modelId config l
    = ((l ++ [{| to := modelId; answer := o |}])%list, r).
Proof.
  intros Hk. unfold keyed in Hk. rewrite hasApiKey_truthy in Hk.
  unfold makeProviderRequest. rewrite Hk. cbn [negb].
  destruct (fetch P _ _ _) as [m|u] eqn:Hf; eauto.
Qed.

(** A pass keeps the log its first call leaves and adds to it. *)
Lemma nonStreamingPass_after_call (st : St) :
  exists ext,
    log (after (nonStreamingPass P request routingDecision config st))
    = (fst (makeProviderRequest P (currentModel st) config (log st))
       ++ ext)%list.
Proof.
  unfold nonStreamingPass.
  destruct (makeProviderRequest P _ config _) as [l [e|u]]; cbn [fst].
  - apply (onThrow_prefix "All models failed" e (setLog l st)).
  - destruct (ok (received u)).
    + destruct (readText u) as [bodyText|message];
        [|apply (onThrow_prefix "All models failed" _
                   (setResponse (afterRead (received u)) l st))].
      assert (Hre : forall rb tc,
                exists ext,
                  log (after (recreate P routingDecision config bodyText
                                (received u) l
                                (setValidated rb tc
                                   (setResponse (afterRead (received u)) l
                                      st))))
                  = (l ++ ext)%list).
      { intros rb tc. unfold recreate.
        destruct (Http.initOk true _);
          [exists []; cbn; now rewrite app_nil_r|].
        apply (onThrow_prefix "All models failed" _
                 (setValidated rb tc
                    (setResponse (afterRead (received u)) l st))). }
      destruct (negb (valid _)); [|apply Hre].
      destruct (_ || _); [exists []; cbn; now rewrite app_nil_r|].
      destruct (tryEscalate config _ _) as [st'|] eqn:Ht; [|apply Hre].
      apply tryEscalate_some in Ht. destruct Ht as (_ & _ & Hl & _).
      exists []. cbn [after]. rewrite Hl. cbn. now rewrite app_nil_r.
    + apply (onHttpError_prefix "All models failed" _
               (setResponse (received u) l st)).
Qed.

Lemma nonStreamingPass_first (st : St) :
  keyed config (currentModel st) = true ->
  exists o ext,
    log (after (nonStreamingPass P request routingDecision config st))
    = (log st ++ {| to := currentModel st; answer := o |} :: ext)%list.
Proof.
  intros Hk. destruct (nonStreamingPass_after_call st) as [ext ->].
  destruct (makeProviderRequest_keyed (currentModel st) (log st) Hk)
    as (o & r & ->).
  exists o, ext. cbn [fst]. now rewrite <- app_assoc.
Qed.

Lemma streamingPass_first (st : St) :
  keyed config (currentModel st) = true ->
  exists o ext,
    log (after (streamingPass P routingDecision config st))
    = (log st ++ {| to := currentModel st; answer := o |} :: ext)%list.
Proof.
  intros Hk. unfold streamingPass.
  destruct (makeProviderRequest_keyed (currentModel st) (log st) Hk)
    as (o & r & ->).
  exists o. destruct r as [e|u].
  - destruct (onThrow_prefix "All models failed to respond" e
                (setLog (log st ++ [{| to := currentModel st;
                                       answer := o |}]) st))
      as [ext ->].
    exists ext. cbn [setLog log]. now rewrite <- app_assoc.
  - destruct (ok (received u)); [now exists []|].
    destruct (onHttpError_prefix "All models failed to respond"
                (retriesRemain config st && rd_safeToRetry routingDecision
                 && canEscalate P (currentTier st) config)
                (setResponse (received u)
                   (log st ++ [{| to := currentModel st;
                                  answer := o |}]) st))
      as [ext ->].
    exists ext. cbn [setResponse log]. now rewrite <- app_assoc.
Qed.

Lemma loop_prefix (pass : St -> Step) :
  (forall st, exists ext, log (after (pass st)) = (log st ++ ext)%list) ->
  forall fuel st st',
    loop config pass fuel st = Some st' ->
    exists ext, log st' = (log st ++ ext)%list.
Proof.
  intros Hp. induction fuel as [|fuel IH]; intros st st'; cbn [loop];
    destruct (_ <? _);
    try (intros [= <-]; exists []; now rewrite app_nil_r);
    destruct (Hp st) as [ext1 H1]; destruct (pass st) as [s|s];
    cbn [after] in H1.
  - discriminate.
  - intros [= <-]. eauto.
  - intros Hl. apply IH in Hl. destruct Hl as [ext2 ->].
    exists (ext1 ++ ext2)%list. now rewrite H1, app_assoc.
  - intros [= <-]. eauto.
Qed.

Lemma loop_first (pass : St -> Step) (fuel : nat) (st st' : St) :
  (forall st, exists ext, log (after (pass st)) = (log st ++ ext)%list) ->
  retryCount st <= maxR ->
  loop config pass fuel st = Some st' ->
  exists ext, log st' = (log (after (pass st)) ++ ext)%list.
Proof.
  intros Hp Hr.
  assert (Hc : (maxR <? retryCount st) = false) by (apply Z.ltb_ge; lia).
  destruct fuel; cbn [loop]; rewrite Hc; destruct (pass st) as [s|s];
    cbn [after]; try discriminate;
    try (intros [= <-]; exists []; now rewrite app_nil_r).
  apply loop_prefix. exact Hp.
Qed.

Lemma nonStreamingPass_prefix (st : St) :
  exists ext,
    log (after (nonStreamingPass P request routingDecision config st))
    = (log st ++ ext)%list.
Proof.
  destruct (nonStreamingPass_after_call st) as [ext ->].
  destruct (makeProviderRequest P (currentModel st) config (log st))
    as [l r] eqn:Hcall.
  apply makeProviderRequest_prefix in Hcall. destruct Hcall as [ext1 ->].
  exists (ext1 ++ ext)%list. cbn [fst]. now rewrite app_assoc.
Qed.

Lemma streamingPass_prefix (st : St) :
  exists ext,
    log (after (streamingPass P routingDecision config st))
    = (log st ++ ext)%list.
Proof.
  unfold streamingPass.
  destruct (makeProviderRequest P _ config _) as [l [e|u]] eqn:Hcall;
    apply makeProviderRequest_prefix in Hcall; destruct Hcall as [ext1 Hl].
  - destruct (onThrow_prefix "All models failed to respond" e (setLog l st))
      as [ext2 ->].
    exists (ext1 ++ ext2)%list. cbn [setLog log]. now rewrite Hl, app_assoc.
  - destruct (ok (received u)); [now exists ext1|].
    destruct (onHttpError_prefix "All models failed to respond"
                (retriesRemain config st && rd_safeToRetry routingDecision
                 && canEscalate P (currentTier st) config)
                (setResponse (received u) l st)) as [ext2 ->].
    exists (ext1 ++ ext2)%list. cbn [setResponse log].
    now rewrite Hl, app_assoc.
Qed.

(** X27.  When the provider of the routed model has a key and the retry
    budget is not negative, the first upstream call of [executeRequest] goes
    to the routed model: there is at least one call, and no other model is
    tried before. *)
Theorem routed_model_is_called_first :
  keyed config (routedModel routingDecision) = true ->
  0 <= maxR ->
  exists o rest,
    dispatches (executeRequest P request routingDecision config)
    = {| to := routedModel routingDecision; answer := o |} :: rest.
Proof.
  intros Hk Hmax. unfold executeRequest.
  destruct (stream request).
  - destruct (loop_ends config _
                (streamingPass_good P routingDecision config)
                (fuelFor config (initialSt routingDecision))
                (initialSt routingDecision)) as (st & Hl & _);
      [unfold fuelFor; lia|].
    rewrite Hl. cbn [dispatches].
    apply loop_first in Hl; [|exact streamingPass_prefix | cbn; lia].
    destruct Hl as [ext ->].
    destruct (streamingPass_first (initialSt routingDecision) Hk)
      as (o & ext1 & ->).
    exists o, (ext1 ++ ext)%list. reflexivity.
  - destruct (loop_ends config _
                (nonStreamingPass_good P request routingDecision config)
                (fuelFor config (initialSt routingDecision))
                (initialSt routingDecision)) as (st & Hl & _);
      [unfold fuelFor; lia|].
    rewrite Hl. cbn [dispatches].
    apply loop_first in Hl; [|exact nonStreamingPass_prefix | cbn; lia].
    destruct Hl as [ext ->].
    destruct (nonStreamingPass_first (initialSt routingDecision) Hk)
      as (o & ext1 & ->).
    exists o, (ext1 ++ ext)%list. reflexivity.
Qed.

End FirstCall.

(* ----------------------------------------------------------------- *)
(** ** Worked instances

    Each property above that has a premise is applied here to sample
    data, with the premises checked by computation. *)

Section Instances.

Import Examples.
Local Open Scope string_scope.

Lemma getLastUserMessage_last_witness :
  Utils.getLastUserMessage
    ([userMessage "first"] ++ userMessage "second"
       :: [assistantMessage "reply"])
  = "second".
Proof.
  refine (proj1 (getLastUserMessage_last [userMessage "first"]
                   [assistantMessage "reply"] (userMessage "second")
                   "second" eq_refl _)).
  intros m' [Hm|[]]. subst m'. reflexivity.
Defined.

Lemma truncateForLog_bound_witness :
  Utils.truncateForLog "short" 20 = "short"
  /\ (Js.length
        (Utils.truncateForLog "abcdefghijklmnopqrstuvwxyz" 11) <= 11)%Z
  /\ Utils.truncateForLog "abcdef" 2 = "...".
Proof.
  split; [|split].
  - apply (proj1 (truncateForLog_bound "short" 20)).
    vm_compute. intros H. discriminate H.
  - apply (proj1 (proj2 (truncateForLog_bound
                           "abcdefghijklmnopqrstuvwxyz" 11))).
    vm_compute. intros H. discriminate H.
  - apply (proj2 (proj2 (truncateForLog_bound "abcdef" 2))).
    + vm_compute. reflexivity.
    + vm_compute. reflexivity.
    + discriminate.
Defined.

Lemma parseModelId_roundtrip_witness :
  let (provider, modelName) := Utils.parseModelId "openai/gpt-5.2" in
  provider ++ "/" ++ modelName = "openai/gpt-5.2"
  /\ Js.includes "/" provider = false
  /\ modelName = Executor.extractModelName "openai/gpt-5.2".
Proof. exact (parseModelId_roundtrip "openai/gpt-5.2" eq_refl). Defined.

Lemma catalog_lookup_witness :
  exists e,
    In e Models.DEFAULT_MODELS
    /\ id e = "openai/gpt-5-mini"
    /\ Models.getModelEntry "gpt-5-mini" = Some e
    /\ Models.getProviderForModel "gpt-5-mini" = provider e.
Proof.
  assert (Hin : exists e, In e Models.DEFAULT_MODELS
                          /\ id e = "openai/gpt-5-mini").
  { eexists. split;
      [right; right; right; left; reflexivity | reflexivity]. }
  destruct Hin as (e & Hin & Hid). exists e.
  pose proof (catalog_lookup e Hin) as H. cbv zeta in H.
  rewrite Hid in H. destruct H as (_ & Hbare & _ & Hprov).
  repeat split; assumption.
Defined.

Lemma getModelEntry_fuzzy_witness :
  Models.getModelEntry "SONNET" <> None.
Proof.
  refine (proj1 (proj2 (getModelEntry_fuzzy "SONNET")) _
            (or_intror (or_intror (or_intror (or_intror
               (or_introl eq_refl))))) _).
  vm_compute. reflexivity.
Defined.

Lemma calculateCost_monotone_witness :
  (0 <= Models.calculateCost "openai/gpt-5.2" 1000 500)%Q
  /\ (Models.calculateCost "openai/gpt-5.2" 1000 500
      <= Models.calculateCost "openai/gpt-5.2" 2000 500)%Q
  /\ Models.calculateCost "no-such-model" 1000 500
     = Models.calculateCost "openai/gpt-5.2" 1000 500.
Proof.
  split; [|split].
  - apply (proj1 (calculateCost_monotone "openai/gpt-5.2" 1000 500 0 0));
      vm_compute; intros H; discriminate H.
  - apply (proj1 (proj2 (calculateCost_monotone "openai/gpt-5.2"
                           1000 500 2000 500)));
      vm_compute; intros H; discriminate H.
  - apply (proj2 (proj2 (calculateCost_monotone "no-such-model"
                           1000 500 0 0))).
    vm_compute. reflexivity.
Defined.

Lemma isToolCapable_exception_witness :
  Models.isToolCapable "flash-lite" = false
  /\ Models.isToolCapable "no-such-model" = true.
Proof.
  split.
  - apply (proj2 (proj1 (isToolCapable_exception "flash-lite"))).
    vm_compute. reflexivity.
  - apply (proj2 (isToolCapable_exception "no-such-model")).
    vm_compute. reflexivity.
Defined.

Lemma api_key_views_agree_witness :
  Config.hasAnyApiKey (apiKeys proConfig) = true.
Proof.
  apply (proj2 (proj1 (api_key_views_agree proConfig anthropic))).
  exists anthropic. reflexivity.
Defined.

Lemma routed_model_is_usable_witness :
  Router.canUseModel (routedModel (pingDecision (always "answer")))
    proConfig = true.
Proof.
  refine (proj1 (routed_model_is_usable (always "answer") (ask "ping")
                   (Classifier.classifyRequest (ask "ping") proConfig)
                   proConfig _ _ _)); vm_compute; reflexivity.
Defined.

Lemma getAvailableModels_exact_witness :
  In "deepseek/deepseek-chat" (Router.getAvailableModels proConfig).
Proof.
  apply (proj2 (proj2 (getAvailableModels_exact proConfig)
                  "deepseek/deepseek-chat")).
  exists SIMPLE. eexists. split; [reflexivity|].
  split; [left; reflexivity | vm_compute; reflexivity].
Defined.

Lemma valid_response_sound_witness :
  ok (okResponse "tool call") = true.
Proof.
  refine (proj1 (valid_response_sound (always "tool call")
                   (askWithTool "do the action") (okResponse "tool call")
                   (Some (assistantSays ContentNull (Some [aToolCall])))
                   MODERATE _)).
  vm_compute. reflexivity.
Defined.

Lemma verdict_consistent_witness :
  Validator.extractToolCalls
    (Some (assistantSays ContentNull (Some [aToolCall]))) <> [].
Proof.
  refine (proj1 (proj2 (proj2 (verdict_consistent (always "tool call")
                   (askWithTool "do the action") (okResponse "tool call")
                   (Some (assistantSays ContentNull (Some [aToolCall])))
                   MODERATE) _))).
  vm_compute. reflexivity.
Defined.

Lemma safety_flags_only_raise_witness :
  (TIER_ORDER
     (tier (Classifier.classifyRequest (askWithTool "ping") plainConfig))
   <= TIER_ORDER
        (tier (Classifier.classifyRequest (askWithTool "ping")
                 proConfig)))%nat.
Proof.
  exact (safety_flags_only_raise (askWithTool "ping") proConfig plainConfig
           eq_refl eq_refl).
Defined.

Lemma tool_aware_floor_witness :
  (TIER_ORDER COMPLEX
   <= TIER_ORDER
        (tier (Classifier.classifyRequest (askWithTool "ping")
                 proConfig)))%nat.
Proof.
  exact (tool_aware_floor (askWithTool "ping") proConfig eq_refl eq_refl).
Defined.

Lemma frontier_triggers_witness :
  tier (Classifier.classifyRequest (ask "see ```code``` here") freeConfig)
  = FRONTIER
  /\ safeToRetry
       (Classifier.classifyRequest (ask "see ```code``` here") freeConfig)
     = false.
Proof.
  pose proof (frontier_triggers (ask "see ```code``` here") freeConfig)
    as H.
  cbv zeta in H. apply H. right. left.
  exists "see ", "code", " here". reflexivity.
Defined.

Lemma confidence_levels_witness :
  In (confidence (Classifier.classifyRequest (ask "ping") proConfig))
     [95#100; 9#10; 85#100; 8#10; 75#100; 7#10]%Q.
Proof.
  exact (proj1 (confidence_levels (ask "ping") proConfig)).
Defined.

Lemma short_message_is_heartbeat_witness :
  tier (Classifier.classifyRequest (ask "thanks") proConfig) = HEARTBEAT
  /\ safeToRetry (Classifier.classifyRequest (ask "thanks") proConfig)
     = true.
Proof.
  pose proof (short_message_is_heartbeat (ask "thanks") proConfig) as H.
  cbv zeta in H. apply H.
  - vm_compute. reflexivity.
  - cbn. lia.
  - reflexivity.
  - vm_compute. reflexivity.
  - right. vm_compute. intros Hc. discriminate Hc.
Defined.

Lemma escalation_chain_shape_witness :
  let P := always "answer" in
  let e := Executor.executeRequest P (ask "ping") (pingDecision P)
             proConfig in
  exists r,
    outcome e = Some r
    /\ exists rest,
         er_escalationChain r = routedModel (pingDecision P) :: rest.
Proof.
  cbv zeta. eexists. split; [vm_compute; reflexivity|].
  refine (proj1 (escalation_chain_shape (always "answer") (ask "ping")
                   (pingDecision (always "answer")) proConfig _ _)).
  vm_compute. reflexivity.
Defined.

Lemma no_escalation_without_consent_witness :
  let P := always "tool call" in
  let request := askWithTool "do the action" in
  let d := Router.routeRequest P request (classified MODERATE true false)
             proConfig in
  exists r,
    outcome (Executor.executeRequest P request d proConfig) = Some r
    /\ er_escalated r = false.
Proof.
  cbv zeta. eexists. split; [vm_compute; reflexivity|].
  refine (proj1 (no_escalation_without_consent (always "tool call")
                   (askWithTool "do the action") proConfig
                   (Router.routeRequest (always "tool call")
                      (askWithTool "do the action")
                      (classified MODERATE true false) proConfig)
                   _ _ _)).
  - left. vm_compute. reflexivity.
  - vm_compute. reflexivity.
Defined.

Lemma tool_requests_are_never_escalated_witness :
  let P := always "tool call" in
  let request := askWithTool "do the action" in
  let cls := Classifier.classifyRequest request proConfig in
  let d := Router.routeRequest P request cls proConfig in
  exists r,
    outcome (Executor.executeRequest P request d proConfig) = Some r
    /\ er_escalated r = false.
Proof.
  cbv zeta. eexists. split; [vm_compute; reflexivity|].
  pose proof (tool_requests_are_never_escalated (always "tool call")
                (askWithTool "do the action") proConfig) as H.
  cbv zeta in H.
  refine (proj1 (H _ _ _)).
  - reflexivity.
  - vm_compute. reflexivity.
Defined.

Lemma streamed_result_is_an_estimate_witness :
  let P := always "answer" in
  let request := askStreamed "ping" in
  let d := Router.routeRequest P request (classified HEARTBEAT false true)
             proConfig in
  exists r,
    outcome (Executor.executeRequest P request d proConfig) = Some r
    /\ outputTokens r = 0%Z.
Proof.
  cbv zeta. eexists. split; [vm_compute; reflexivity|].
  refine (proj1 (proj2 (streamed_result_is_an_estimate (always "answer")
                   (askStreamed "ping")
                   (Router.routeRequest (always "answer")
                      (askStreamed "ping")
                      (classified HEARTBEAT false true) proConfig)
                   proConfig _ _ _))).
  - reflexivity.
  - vm_compute. reflexivity.
Defined.

Lemma route_headers_are_unique_witness :
  let P := always "answer" in
  let e := Executor.executeRequest P (ask "ping") (pingDecision P)
             proConfig in
  exists r,
    outcome e = Some r
    /\ exists v,
         Http.headerValue (actualModel r) = Some v
         /\ map snd
              (filter (Http.named "X-ClawRoute-Model")
                 (headers (er_response r)))
            = [v].
Proof.
  cbv zeta. eexists. split; [vm_compute; reflexivity|].
  pose proof (route_headers_are_unique (always "answer") (ask "ping")
                (pingDecision (always "answer")) proConfig) as H.
  cbv zeta in H.
  refine (proj1 (H _ _ _)).
  - reflexivity.
  - vm_compute. reflexivity.
Defined.

Lemma passthrough_calls_once_witness :
  exists o,
    fst (Executor.executePassthrough (always "answer") (ask "ping")
           proConfig)
    = [{| to := model (ask "ping"); answer := o |}].
Proof.
  pose proof (passthrough_calls_once (always "answer") (ask "ping")
                proConfig) as H.
  cbv zeta in H. destruct H as [_ H].
  destruct H as (o & Ho & _); [vm_compute; reflexivity|].
  exists o. exact Ho.
Defined.

Lemma routed_model_is_called_first_witness :
  let P := always "answer" in
  exists o rest,
    dispatches (Executor.executeRequest P (ask "ping") (pingDecision P)
                  proConfig)
    = {| to := routedModel (pingDecision P); answer := o |} :: rest.
Proof.
  cbv zeta.
  apply (routed_model_is_called_first (always "answer") (ask "ping")
           (pingDecision (always "answer")) proConfig).
  - vm_compute. reflexivity.
  - vm_compute. intros H. discriminate H.
Defined.

Lemma stream_tool_calls_seen_witness :
  sr_hadToolCalls
    (snd (Streaming.pipeStream toyChunk (Some (twoChunks, Done)) true))
  = true.
Proof.
  apply (proj2 (stream_tool_calls_seen toyChunk twoChunks true)).
  exists "data: tool". split; [vm_compute; left; reflexivity|].
  split; [vm_compute; reflexivity|].
  split; [vm_compute; intros H; discriminate H|].
  exists {| sc_tool_calls := Some 1%nat; sc_usage := None |}, 1%nat.
  split; [vm_compute; reflexivity|]. split; [reflexivity | lia].
Defined.

End Instances.
